(** * PeaceTalk: the analysis-request lifecycle of [App.tsx]

    A shallow embedding of the React component [App] (src/App.tsx) and of
    the remote client [analyzeContent] (src/services/geminiService.ts).

    The component is modelled as an event-driven state machine:
    - the [useState] slots and the [useRef] cells are fields of one record;
    - the browser (clock, timer table, promises that are still pending,
      capture tracks, the log of requests sent to the model) is part of the
      same record, so that timers and late promise results are explicit;
    - an [async] function is split at its [await]: the part before it runs
      in the event that calls the function and registers a pending
      operation, the part after it runs when the pending operation settles;
    - after every event React renders and runs the effects whose
      dependency array changed ([commit]).

    A render that throws shows nothing of the component, and nothing in
    [App] catches it. [step] follows the component as long as its renders
    return and does not stop at one that throws, so the runs of [step]
    include the runs of the component; [renderThrows] tells when the
    render function of [App] throws, and [runTyped] picks the runs on
    which every render finds results of the declared type, where no
    render throws.

    In this machine voice dictation enters only through the text it
    writes ([ChangeText]), and a request stands for its system
    instruction by what selects it. The second part of the definitions
    ("Further parts of the sources") adds the text of the system
    instruction, the preview of the uploaded image, the components that
    draw the temperature, and the dictation itself on top of this
    machine. Left out are the markup, the texts of the translations
    (translations.ts is not among the sources), the feedback form of
    [SuggestionCard] and the colours of the emotion and feeling labels,
    which depend on the case mapping of Unicode. The component is followed
    from its mount on; its unmount is not an event. *)

Set Warnings "-register-all".
From Stdlib Require Import List String Ascii ZArith NArith PArith Bool Lia Arith.
Import ListNotations.
Open Scope string_scope.
Open Scope list_scope.

Set Implicit Arguments.

(** ** JavaScript strings

    A string is a sequence of UTF-16 code units.  The texts that the
    component handles are modelled by [string], whose characters are read
    as the code units 0..255; the strings inside a parsed JSON value are
    kept as lists of code units because an escape can denote any unit. *)

Module JS.

Definition units := list N.

Definition units_of_string (s : string) : units :=
  map N_of_ascii (list_ascii_of_string s).

(** [String.prototype.trim]: white space and line terminators.  Among the
    code units 0..255 these are TAB, LF, VT, FF, CR, SP and NBSP. *)
Definition is_trim_space (c : ascii) : bool :=
  let n := N_of_ascii c in
  ((9 <=? n) && (n <=? 13) || (n =? 32) || (n =? 160))%N.

Fixpoint trim_start (l : list ascii) : list ascii :=
  match l with
  | c :: r => if is_trim_space c then trim_start r else l
  | [] => []
  end.

Definition trim (s : string) : string :=
  string_of_list_ascii
    (rev (trim_start (rev (trim_start (list_ascii_of_string s))))).

(** [!s] for a string: only the empty string is falsy. *)
Definition str_truthy (s : string) : bool := negb (s =? "").

(** Truthiness of a [string | null] slot. *)
Definition opt_truthy (o : option string) : bool :=
  match o with
  | Some s => str_truthy s
  | None => false
  end.

(** [s.split(',')[1]]: the text between the first and the second comma,
    [undefined] (here [None]) when [s] has no comma. *)
Fixpoint until_comma (l : list ascii) : list ascii :=
  match l with
  | [] => []
  | c :: r => if (c =? ",")%char then [] else c :: until_comma r
  end.

Fixpoint after_comma (l : list ascii) : option (list ascii) :=
  match l with
  | [] => None
  | c :: r => if (c =? ",")%char then Some r else after_comma r
  end.

Definition split_comma_1 (s : string) : option string :=
  match after_comma (list_ascii_of_string s) with
  | Some r => Some (string_of_list_ascii (until_comma r))
  | None => None
  end.

(** [arr.slice(-k)]: the last [k] elements, the whole array when it is
    shorter. *)
Definition slice_last {A} (k : nat) (l : list A) : list A :=
  skipn (List.length l - k) l.

End JS.

(** ** JSON values and [JSON.parse] *)

Module Json.

Import JS.

(** A number keeps the decimal that was written: [JNumber m e] is
    [m * 10^e]. *)
Inductive value : Type :=
| JNull
| JBool (b : bool)
| JNumber (mantissa exponent : Z)
| JString (s : units)
| JArray (items : list value)
| JObject (members : list (units * value)).

(** Code units with a role in the grammar. *)
Definition QUOTE : N := 34.
Definition BACKSLASH : N := 92.

Definition is_ws (c : N) : bool :=
  ((c =? 9) || (c =? 10) || (c =? 13) || (c =? 32))%N.

Fixpoint skip_ws (l : units) : units :=
  match l with
  | c :: r => if is_ws c then skip_ws r else l
  | [] => []
  end.

Definition is_digit (c : N) : bool := ((48 <=? c) && (c <=? 57))%N.

Definition hex_digit (c : N) : option N :=
  if ((48 <=? c) && (c <=? 57))%N then Some (c - 48)%N
  else if ((65 <=? c) && (c <=? 70))%N then Some (c - 55)%N
  else if ((97 <=? c) && (c <=? 102))%N then Some (c - 87)%N
  else None.

(** Strip a literal prefix. *)
Fixpoint strip (p l : units) : option units :=
  match p, l with
  | [], _ => Some l
  | a :: p', b :: l' => if (a =? b)%N then strip p' l' else None
  | _ :: _, [] => None
  end.

(** Leading digits, most significant first, folded into [acc]. *)
Fixpoint digits (l : units) (acc : Z) (count : nat) : Z * nat * units :=
  match l with
  | c :: r =>
      if is_digit c then digits r (10 * acc + Z.of_N (c - 48)) (S count)
      else (acc, count, l)
  | [] => (acc, count, [])
  end.

(** The body of a string after its opening quote. *)
Fixpoint string_body (l : units) : option (units * units) :=
  match l with
  | [] => None
  | c :: r =>
      if (c =? QUOTE)%N then Some ([], r)
      else if (c =? BACKSLASH)%N then
        match r with
        | e :: r1 =>
            let simple (u : N) :=
              match string_body r1 with
              | Some (s, rest) => Some (u :: s, rest)
              | None => None
              end in
            if (e =? QUOTE)%N then simple QUOTE
            else if (e =? BACKSLASH)%N then simple BACKSLASH
            else if (e =? 47)%N then simple 47%N
            else if (e =? 98)%N then simple 8%N
            else if (e =? 102)%N then simple 12%N
            else if (e =? 110)%N then simple 10%N
            else if (e =? 114)%N then simple 13%N
            else if (e =? 116)%N then simple 9%N
            else if (e =? 117)%N then
              match r1 with
              | a :: b :: c' :: d :: r2 =>
                  match hex_digit a, hex_digit b, hex_digit c', hex_digit d with
                  | Some x3, Some x2, Some x1, Some x0 =>
                      match string_body r2 with
                      | Some (s, rest) =>
                          Some ((4096 * x3 + 256 * x2 + 16 * x1 + x0)%N :: s, rest)
                      | None => None
                      end
                  | _, _, _, _ => None
                  end
              | _ => None
              end
            else None
        | [] => None
        end
      else if (c <? 32)%N then None
      else
        match string_body r with
        | Some (s, rest) => Some (c :: s, rest)
        | None => None
        end
  end.

(** [-? int frac? exp?] *)
Definition number (l : units) : option (Z * Z * units) :=
  let '(neg, l0) :=
    match l with
    | c :: r => if (c =? 45)%N then (true, r) else (false, l)
    | [] => (false, l)
    end in
  let int_part :=
    match l0 with
    | c :: r =>
        if (c =? 48)%N then Some (0%Z, r)
        else if is_digit c then
          let '(m, _, rest) := digits l0 0%Z 0 in Some (m, rest)
        else None
    | [] => None
    end in
  match int_part with
  | None => None
  | Some (m, l1) =>
      let frac :=
        match l1 with
        | c :: r =>
            if (c =? 46)%N then
              let '(m', k, rest) := digits r m 0 in
              match k with
              | O => None
              | S _ => Some (m', Z.of_nat k, rest)
              end
            else Some (m, 0%Z, l1)
        | [] => Some (m, 0%Z, l1)
        end in
      match frac with
      | None => None
      | Some (m1, k, l2) =>
          let signed := if neg then (- m1)%Z else m1 in
          match l2 with
          | c :: r =>
              if ((c =? 101) || (c =? 69))%N then
                let '(eneg, r1) :=
                  match r with
                  | s :: r' =>
                      if (s =? 45)%N then (true, r')
                      else if (s =? 43)%N then (false, r')
                      else (false, r)
                  | [] => (false, r)
                  end in
                let '(e, n, rest) := digits r1 0%Z 0 in
                match n with
                | O => None
                | S _ => Some (signed, ((if eneg then - e else e) - k)%Z, rest)
                end
              else Some (signed, (- k)%Z, l2)
          | [] => Some (signed, (- k)%Z, l2)
          end
      end
  end.

Definition lit_null : units := [110; 117; 108; 108]%N.
Definition lit_true : units := [116; 114; 117; 101]%N.
Definition lit_false : units := [102; 97; 108; 115; 101]%N.

(** Recursive descent; [fuel] bounds the nesting of calls. *)
Fixpoint parse_value (fuel : nat) (l : units) {struct fuel}
  : option (value * units) :=
  match fuel with
  | O => None
  | S fuel' =>
      match skip_ws l with
      | [] => None
      | c :: r =>
          if (c =? 123)%N then
            match skip_ws r with
            | c' :: r' =>
                if (c' =? 125)%N then Some (JObject [], r')
                else parse_members fuel' r []
            | [] => None
            end
          else if (c =? 91)%N then
            match skip_ws r with
            | c' :: r' =>
                if (c' =? 93)%N then Some (JArray [], r')
                else parse_elements fuel' r []
            | [] => None
            end
          else if (c =? QUOTE)%N then
            match string_body r with
            | Some (s, rest) => Some (JString s, rest)
            | None => None
            end
          else
            match strip lit_null (c :: r) with
            | Some rest => Some (JNull, rest)
            | None =>
            match strip lit_true (c :: r) with
            | Some rest => Some (JBool true, rest)
            | None =>
            match strip lit_false (c :: r) with
            | Some rest => Some (JBool false, rest)
            | None =>
            match number (c :: r) with
            | Some (m, e, rest) => Some (JNumber m e, rest)
            | None => None
            end end end end
      end
  end

with parse_elements (fuel : nat) (l : units) (acc : list value) {struct fuel}
  : option (value * units) :=
  match fuel with
  | O => None
  | S fuel' =>
      match parse_value fuel' l with
      | Some (v, r) =>
          match skip_ws r with
          | c :: r' =>
              if (c =? 44)%N then parse_elements fuel' r' (v :: acc)
              else if (c =? 93)%N then Some (JArray (rev (v :: acc)), r')
              else None
          | [] => None
          end
      | None => None
      end
  end

with parse_members (fuel : nat) (l : units) (acc : list (units * value))
  {struct fuel} : option (value * units) :=
  match fuel with
  | O => None
  | S fuel' =>
      match skip_ws l with
      | q :: r =>
          if (q =? QUOTE)%N then
            match string_body r with
            | Some (k, r1) =>
                match skip_ws r1 with
                | colon :: r2 =>
                    if (colon =? 58)%N then
                      match parse_value fuel' r2 with
                      | Some (v, r3) =>
                          match skip_ws r3 with
                          | c :: r4 =>
                              if (c =? 44)%N
                              then parse_members fuel' r4 ((k, v) :: acc)
                              else if (c =? 125)%N
                              then Some (JObject (rev ((k, v) :: acc)), r4)
                              else None
                          | [] => None
                          end
                      | None => None
                      end
                    else None
                | [] => None
                end
            | None => None
            end
          else None
      | [] => None
      end
  end.

(** [JSON.parse(text)]: one value, nothing but white space after it.
    [None] stands for the [SyntaxError] that [JSON.parse] throws. *)
Definition parse (text : string) : option value :=
  let l := units_of_string text in
  match parse_value (2 * List.length l + 2) l with
  | Some (v, rest) =>
      match skip_ws rest with
      | [] => Some v
      | _ :: _ => None
      end
  | None => None
  end.

(** Property read [o.key]: the last member with that name wins, as in the
    object that [JSON.parse] builds. *)
Fixpoint units_eqb (a b : units) : bool :=
  match a, b with
  | [], [] => true
  | x :: a', y :: b' => (x =? y)%N && units_eqb a' b'
  | _, _ => false
  end.

Fixpoint lookup (key : units) (ms : list (units * value)) : option value :=
  match ms with
  | [] => None
  | (k, v) :: rest =>
      match lookup key rest with
      | Some v' => Some v'
      | None => if units_eqb k key then Some v else None
      end
  end.

Definition get (key : string) (v : value) : option value :=
  match v with
  | JObject ms => lookup (units_of_string key) ms
  | _ => None
  end.

(** JavaScript truthiness of a parsed value. [JSON.parse] turns the
    decimal [m * 10^e] into the nearest binary64 number, which is 0 when
    [m] is 0 or the decimal is at most 2^-1075, half of the least positive
    number. *)
Definition is_zero (m e : Z) : bool :=
  (m =? 0)%Z || ((e <? 0)%Z && (Z.abs m * 2 ^ 1075 <=? 10 ^ (- e))%Z).

Definition truthy (v : value) : bool :=
  match v with
  | JNull => false
  | JBool b => b
  | JNumber m e => negb (is_zero m e)
  | JString [] => false
  | JString (_ :: _) => true
  | JArray _ => true
  | JObject _ => true
  end.

(** *** JSON texts

    [print v] is a JSON text of the value [v], written without white
    space: the members and elements in their order; in a string the
    quotation mark and the backslash behind a backslash, the control
    characters and the units above 255 as [\u] escapes with four
    hexadecimal digits (a text holds the units 0..255), every other unit
    as it is; a number as its mantissa in decimal digits, followed by [e]
    and the exponent when that is not 0. *)
Fixpoint decimal_from (fuel : nat) (n : N) (acc : units) : units :=
  match fuel with
  | O => acc
  | S fuel' =>
      let acc' := (48 + n mod 10)%N :: acc in
      if (n <? 10)%N then acc' else decimal_from fuel' (n / 10)%N acc'
  end.

Definition decimal (n : N) : units :=
  decimal_from (S (N.to_nat (N.log2 n))) n [].

Definition print_integer (z : Z) : units :=
  if (z <? 0)%Z then 45%N :: decimal (Z.abs_N z) else decimal (Z.abs_N z).

Definition print_number (m e : Z) : units :=
  print_integer m
  ++ (if (e =? 0)%Z then [] else 101%N :: print_integer e).

Definition hex_char (d : N) : N :=
  if (d <? 10)%N then (48 + d)%N else (87 + d)%N.

Definition print_unit (c : N) : units :=
  if (c =? QUOTE)%N then [BACKSLASH; QUOTE]
  else if (c =? BACKSLASH)%N then [BACKSLASH; BACKSLASH]
  else if ((c <? 32) || (255 <? c))%N then
    [BACKSLASH; 117%N; hex_char (c / 4096); hex_char ((c / 256) mod 16);
     hex_char ((c / 16) mod 16); hex_char (c mod 16)]
  else [c].

(** A string with its closing quotation mark. *)
Fixpoint print_string (s : units) : units :=
  match s with
  | [] => [QUOTE]
  | c :: r => print_unit c ++ print_string r
  end.

Fixpoint print (v : value) : units :=
  match v with
  | JNull => lit_null
  | JBool true => lit_true
  | JBool false => lit_false
  | JNumber m e => print_number m e
  | JString s => QUOTE :: print_string s
  | JArray [] => [91; 93]%N
  | JArray (x :: r) =>
      91%N :: print x
      ++ (fix tail (l : list value) : units :=
            match l with
            | [] => [93%N]
            | y :: l' => 44%N :: print y ++ tail l'
            end) r
  | JObject [] => [123; 125]%N
  | JObject ((k, x) :: r) =>
      123%N :: QUOTE :: print_string k ++ 58%N :: print x
      ++ (fix tail (l : list (units * value)) : units :=
            match l with
            | [] => [125%N]
            | (k', y) :: l' =>
                44%N :: QUOTE :: print_string k' ++ 58%N :: print y ++ tail l'
            end) r
  end.

(** The rest of an array and of an object, after their first entry. *)
Fixpoint print_elements (l : list value) : units :=
  match l with
  | [] => [93%N]
  | y :: l' => 44%N :: print y ++ print_elements l'
  end.

Fixpoint print_members (l : list (units * value)) : units :=
  match l with
  | [] => [125%N]
  | (k, y) :: l' =>
      44%N :: QUOTE :: print_string k ++ 58%N :: print y ++ print_members l'
  end.

(** The text as a string. *)
Definition text_of (l : units) : string :=
  string_of_list_ascii (map ascii_of_N l).

Definition text (v : value) : string := text_of (print v).

(** Every unit of a string is a UTF-16 code unit. *)
Definition is_unit (c : N) : bool := (c <? 65536)%N.

Fixpoint units_ok (v : value) : bool :=
  match v with
  | JString s => forallb is_unit s
  | JArray items => forallb units_ok items
  | JObject members =>
      (fix all (l : list (units * value)) : bool :=
         match l with
         | [] => true
         | (k, x) :: l' => forallb is_unit k && units_ok x && all l'
         end) members
  | _ => true
  end.

(** Bookkeeping for the fuel: [rest] is what a run left of [l], and the
    fuel [k] is enough for a run that consumes [l] down to [rest]. *)
Definition shorter (rest l : units) : Prop :=
  (List.length rest <= List.length l)%nat.

Definition enough (l rest : units) (k : nat) : Prop :=
  (2 * (List.length l - List.length rest) + 1 <= k)%nat.

End Json.


(** ** Data of the component *)

Notation "s |> f" := (f s) (at level 45, left associativity, only parsing).

(** [Language] of translations.ts and the [SocialTopic] union of App.tsx. *)
Inductive Language : Type := en | ko | es | fr | ja | zh.

Inductive SocialTopic : Type :=
| general | gender_equality | human_rights | violence_prevention
| workplace_conflict.

Inductive FeedbackState : Type := FeedbackNone | FeedbackSubmitted.

(** The table of translations.ts is not part of the sources at hand: the
    text that [t(key)] returns under a language is represented by the pair
    of the language and the key. *)
Inductive TranslationKey : Type := imageSizeError | imageLoadError.

Inductive Message : Type :=
| Translated (lang : Language) (key : TranslationKey)
| Literal (text : string).

(** [getDisplayMedia({video: true, audio: false})] resolves to a stream
    with at least one video track; tracks are named by numbers. *)
Record MediaStream : Type :=
  { videoTrack : nat; moreTracks : list nat }.

Definition getTracks (m : MediaStream) : list nat :=
  videoTrack m :: moreTracks m.

Record VideoElement : Type := { srcObject : option MediaStream }.

(** The two callbacks that the component hands to the timer API. *)
Inductive TimerCallback : Type :=
| CallAnalysisFn        (* () => analysisFnRef.current()        l.327 *)
| CallAnalysisFrameFn.  (* () => analysisFrameFnRef.current()   l.225 *)

(** Timer handles are the positive integers the HTML timer API returns,
    so a stored handle is always truthy. [every] is set for [setInterval]. *)
Record Timer : Type :=
  { tid : positive; due : Z; every : option Z; callback : TimerCallback }.

(** Which function awaits [analyzeContent]. *)
Inductive Flow : Type := Manual | Frame.

(** Promises the component is suspended on. [AwaitFileReader] keeps what
    the rest of [handleImageChange] reads from its closure: [file.type] and
    the language of [t]. *)
Inductive Pending : Type :=
| AwaitGenerateContent (flow : Flow)
| AwaitFileReader (fileType : string) (lang : Language)
| AwaitGetDisplayMedia.

(** The request built by [analyzeContent]. The system instruction is a
    fixed text chosen by three things, which are recorded in its place:
    whether an image was given, the topic and the language. *)
Inductive Part : Type :=
| InlineData (mimeType data : string)
| TextPart (text : string).

Record Request : Type :=
  { imageInstruction : bool; reqTopic : SocialTopic; reqLanguage : Language;
    parts : list Part }.

Record File : Type := { size : N; type : string }.

(** What the canvas yields at a frame tick: whether [getContext('2d')]
    returned a context, and the text of [toDataURL('image/jpeg', 0.8)]. *)
Record Capture : Type := { hasContext : bool; frameDataUrl : string }.

(** ** State *)

(** The [useState] slots (ll.66-78). *)
Record UI : Type :=
  { inputText : string;
    imageBase64 : option string;
    imageMimeType : option string;
    analysisResult : option Json.value;
    analysisHistory : list Json.value;
    isLoading : bool;
    isAnalyzingFrame : bool;
    error : option Message;
    language : Language;
    socialTopic : SocialTopic;
    isScreenSharing : bool;
    feedbackState : FeedbackState }.

(** The [useRef] cells (ll.80-86) and, in [debounceCleanup], the timer
    handle held by the cleanup function that the last run of the debounce
    effect returned (l.331). [videoRef] is [None] while the <video> element
    is not rendered; the <canvas> and the file <input> are always rendered,
    so [canvasRef.current] and [fileInputRef.current] are never null. *)
Record Refs : Type :=
  { fileInputValue : string;
    videoRef : option VideoElement;
    mediaStreamRef : option MediaStream;
    analysisIntervalRef : option positive;
    isAnalyzingFrameRef : bool;
    debounceCleanup : option positive }.

(** The platform: clock (ms), timer table, pending promises, the requests
    sent to the model so far, the tracks stopped so far and the video
    tracks that carry an [onended] handler of the component. *)
Record Browser : Type :=
  { now : Z;
    timers : list Timer;
    nextTimer : positive;
    pending : list (nat * Pending);
    nextOp : nat;
    requests : list Request;
    stoppedTracks : list nat;
    onended : list nat }.

Record State : Type := { ui :> UI; refs :> Refs; browser :> Browser }.

Definition setInputText (v : string) (s : State) : State :=
  {| ui :=
    {| inputText := v; imageBase64 := imageBase64 s;
       imageMimeType := imageMimeType s;
       analysisResult := analysisResult s;
       analysisHistory := analysisHistory s; isLoading := isLoading s;
       isAnalyzingFrame := isAnalyzingFrame s; error := error s;
       language := language s; socialTopic := socialTopic s;
       isScreenSharing := isScreenSharing s;
       feedbackState := feedbackState s |};
     refs := refs s; browser := browser s |}.

Definition setImageBase64 (v : option string) (s : State) : State :=
  {| ui :=
    {| inputText := inputText s; imageBase64 := v;
       imageMimeType := imageMimeType s;
       analysisResult := analysisResult s;
       analysisHistory := analysisHistory s; isLoading := isLoading s;
       isAnalyzingFrame := isAnalyzingFrame s; error := error s;
       language := language s; socialTopic := socialTopic s;
       isScreenSharing := isScreenSharing s;
       feedbackState := feedbackState s |};
     refs := refs s; browser := browser s |}.

Definition setImageMimeType (v : option string) (s : State) : State :=
  {| ui :=
    {| inputText := inputText s; imageBase64 := imageBase64 s;
       imageMimeType := v; analysisResult := analysisResult s;
       analysisHistory := analysisHistory s; isLoading := isLoading s;
       isAnalyzingFrame := isAnalyzingFrame s; error := error s;
       language := language s; socialTopic := socialTopic s;
       isScreenSharing := isScreenSharing s;
       feedbackState := feedbackState s |};
     refs := refs s; browser := browser s |}.

Definition setAnalysisResult (v : option Json.value) (s : State) : State :=
  {| ui :=
    {| inputText := inputText s; imageBase64 := imageBase64 s;
       imageMimeType := imageMimeType s; analysisResult := v;
       analysisHistory := analysisHistory s; isLoading := isLoading s;
       isAnalyzingFrame := isAnalyzingFrame s; error := error s;
       language := language s; socialTopic := socialTopic s;
       isScreenSharing := isScreenSharing s;
       feedbackState := feedbackState s |};
     refs := refs s; browser := browser s |}.

Definition setAnalysisHistory (v : list Json.value) (s : State) : State :=
  {| ui :=
    {| inputText := inputText s; imageBase64 := imageBase64 s;
       imageMimeType := imageMimeType s;
       analysisResult := analysisResult s; analysisHistory := v;
       isLoading := isLoading s; isAnalyzingFrame := isAnalyzingFrame s;
       error := error s; language := language s;
       socialTopic := socialTopic s; isScreenSharing := isScreenSharing s;
       feedbackState := feedbackState s |};
     refs := refs s; browser := browser s |}.

Definition setIsLoading (v : bool) (s : State) : State :=
  {| ui :=
    {| inputText := inputText s; imageBase64 := imageBase64 s;
       imageMimeType := imageMimeType s;
       analysisResult := analysisResult s;
       analysisHistory := analysisHistory s; isLoading := v;
       isAnalyzingFrame := isAnalyzingFrame s; error := error s;
       language := language s; socialTopic := socialTopic s;
       isScreenSharing := isScreenSharing s;
       feedbackState := feedbackState s |};
     refs := refs s; browser := browser s |}.

Definition setIsAnalyzingFrame (v : bool) (s : State) : State :=
  {| ui :=
    {| inputText := inputText s; imageBase64 := imageBase64 s;
       imageMimeType := imageMimeType s;
       analysisResult := analysisResult s;
       analysisHistory := analysisHistory s; isLoading := isLoading s;
       isAnalyzingFrame := v; error := error s; language := language s;
       socialTopic := socialTopic s; isScreenSharing := isScreenSharing s;
       feedbackState := feedbackState s |};
     refs := refs s; browser := browser s |}.

Definition setError (v : option Message) (s : State) : State :=
  {| ui :=
    {| inputText := inputText s; imageBase64 := imageBase64 s;
       imageMimeType := imageMimeType s;
       analysisResult := analysisResult s;
       analysisHistory := analysisHistory s; isLoading := isLoading s;
       isAnalyzingFrame := isAnalyzingFrame s; error := v;
       language := language s; socialTopic := socialTopic s;
       isScreenSharing := isScreenSharing s;
       feedbackState := feedbackState s |};
     refs := refs s; browser := browser s |}.

Definition setLanguage (v : Language) (s : State) : State :=
  {| ui :=
    {| inputText := inputText s; imageBase64 := imageBase64 s;
       imageMimeType := imageMimeType s;
       analysisResult := analysisResult s;
       analysisHistory := analysisHistory s; isLoading := isLoading s;
       isAnalyzingFrame := isAnalyzingFrame s; error := error s;
       language := v; socialTopic := socialTopic s;
       isScreenSharing := isScreenSharing s;
       feedbackState := feedbackState s |};
     refs := refs s; browser := browser s |}.

Definition setSocialTopic (v : SocialTopic) (s : State) : State :=
  {| ui :=
    {| inputText := inputText s; imageBase64 := imageBase64 s;
       imageMimeType := imageMimeType s;
       analysisResult := analysisResult s;
       analysisHistory := analysisHistory s; isLoading := isLoading s;
       isAnalyzingFrame := isAnalyzingFrame s; error := error s;
       language := language s; socialTopic := v;
       isScreenSharing := isScreenSharing s;
       feedbackState := feedbackState s |};
     refs := refs s; browser := browser s |}.

Definition setIsScreenSharing (v : bool) (s : State) : State :=
  {| ui :=
    {| inputText := inputText s; imageBase64 := imageBase64 s;
       imageMimeType := imageMimeType s;
       analysisResult := analysisResult s;
       analysisHistory := analysisHistory s; isLoading := isLoading s;
       isAnalyzingFrame := isAnalyzingFrame s; error := error s;
       language := language s; socialTopic := socialTopic s;
       isScreenSharing := v; feedbackState := feedbackState s |};
     refs := refs s; browser := browser s |}.

Definition setFeedbackState (v : FeedbackState) (s : State) : State :=
  {| ui :=
    {| inputText := inputText s; imageBase64 := imageBase64 s;
       imageMimeType := imageMimeType s;
       analysisResult := analysisResult s;
       analysisHistory := analysisHistory s; isLoading := isLoading s;
       isAnalyzingFrame := isAnalyzingFrame s; error := error s;
       language := language s; socialTopic := socialTopic s;
       isScreenSharing := isScreenSharing s; feedbackState := v |};
     refs := refs s; browser := browser s |}.

Definition setFileInputValue (v : string) (s : State) : State :=
  {| ui := ui s;
     refs :=
    {| fileInputValue := v; videoRef := videoRef s;
       mediaStreamRef := mediaStreamRef s;
       analysisIntervalRef := analysisIntervalRef s;
       isAnalyzingFrameRef := isAnalyzingFrameRef s;
       debounceCleanup := debounceCleanup s |};
     browser := browser s |}.

Definition setVideoRef (v : option VideoElement) (s : State) : State :=
  {| ui := ui s;
     refs :=
    {| fileInputValue := fileInputValue s; videoRef := v;
       mediaStreamRef := mediaStreamRef s;
       analysisIntervalRef := analysisIntervalRef s;
       isAnalyzingFrameRef := isAnalyzingFrameRef s;
       debounceCleanup := debounceCleanup s |};
     browser := browser s |}.

Definition setMediaStreamRef (v : option MediaStream) (s : State) : State :=
  {| ui := ui s;
     refs :=
    {| fileInputValue := fileInputValue s; videoRef := videoRef s;
       mediaStreamRef := v; analysisIntervalRef := analysisIntervalRef s;
       isAnalyzingFrameRef := isAnalyzingFrameRef s;
       debounceCleanup := debounceCleanup s |};
     browser := browser s |}.

Definition setAnalysisIntervalRef (v : option positive) (s : State) : State :=
  {| ui := ui s;
     refs :=
    {| fileInputValue := fileInputValue s; videoRef := videoRef s;
       mediaStreamRef := mediaStreamRef s; analysisIntervalRef := v;
       isAnalyzingFrameRef := isAnalyzingFrameRef s;
       debounceCleanup := debounceCleanup s |};
     browser := browser s |}.

Definition setIsAnalyzingFrameRef (v : bool) (s : State) : State :=
  {| ui := ui s;
     refs :=
    {| fileInputValue := fileInputValue s; videoRef := videoRef s;
       mediaStreamRef := mediaStreamRef s;
       analysisIntervalRef := analysisIntervalRef s;
       isAnalyzingFrameRef := v; debounceCleanup := debounceCleanup s |};
     browser := browser s |}.

Definition setDebounceCleanup (v : option positive) (s : State) : State :=
  {| ui := ui s;
     refs :=
    {| fileInputValue := fileInputValue s; videoRef := videoRef s;
       mediaStreamRef := mediaStreamRef s;
       analysisIntervalRef := analysisIntervalRef s;
       isAnalyzingFrameRef := isAnalyzingFrameRef s; debounceCleanup := v |};
     browser := browser s |}.

Definition setNow (v : Z) (s : State) : State :=
  {| ui := ui s; refs := refs s;
     browser :=
    {| now := v; timers := timers s; nextTimer := nextTimer s;
       pending := pending s; nextOp := nextOp s; requests := requests s;
       stoppedTracks := stoppedTracks s; onended := onended s |} |}.

Definition setTimers (v : list Timer) (s : State) : State :=
  {| ui := ui s; refs := refs s;
     browser :=
    {| now := now s; timers := v; nextTimer := nextTimer s;
       pending := pending s; nextOp := nextOp s; requests := requests s;
       stoppedTracks := stoppedTracks s; onended := onended s |} |}.

Definition setNextTimer (v : positive) (s : State) : State :=
  {| ui := ui s; refs := refs s;
     browser :=
    {| now := now s; timers := timers s; nextTimer := v;
       pending := pending s; nextOp := nextOp s; requests := requests s;
       stoppedTracks := stoppedTracks s; onended := onended s |} |}.

Definition setPending (v : list (nat * Pending)) (s : State) : State :=
  {| ui := ui s; refs := refs s;
     browser :=
    {| now := now s; timers := timers s; nextTimer := nextTimer s;
       pending := v; nextOp := nextOp s; requests := requests s;
       stoppedTracks := stoppedTracks s; onended := onended s |} |}.

Definition setNextOp (v : nat) (s : State) : State :=
  {| ui := ui s; refs := refs s;
     browser :=
    {| now := now s; timers := timers s; nextTimer := nextTimer s;
       pending := pending s; nextOp := v; requests := requests s;
       stoppedTracks := stoppedTracks s; onended := onended s |} |}.

Definition setRequests (v : list Request) (s : State) : State :=
  {| ui := ui s; refs := refs s;
     browser :=
    {| now := now s; timers := timers s; nextTimer := nextTimer s;
       pending := pending s; nextOp := nextOp s; requests := v;
       stoppedTracks := stoppedTracks s; onended := onended s |} |}.

Definition setStoppedTracks (v : list nat) (s : State) : State :=
  {| ui := ui s; refs := refs s;
     browser :=
    {| now := now s; timers := timers s; nextTimer := nextTimer s;
       pending := pending s; nextOp := nextOp s; requests := requests s;
       stoppedTracks := v; onended := onended s |} |}.

Definition setOnended (v : list nat) (s : State) : State :=
  {| ui := ui s; refs := refs s;
     browser :=
    {| now := now s; timers := timers s; nextTimer := nextTimer s;
       pending := pending s; nextOp := nextOp s; requests := requests s;
       stoppedTracks := stoppedTracks s; onended := v |} |}.

(** ** Platform operations *)

Definition TimerId_eqb (a b : positive) : bool := (a =? b)%positive.

(** [setTimeout(cb, delay)] / [setInterval(cb, delay)]: the handle is
    [nextTimer s] of the state it is applied to. *)
Definition addTimer (cb : TimerCallback) (delay : Z) (repeat : bool)
  (s : State) : State :=
  let t := {| tid := nextTimer s; due := (now s + delay)%Z;
              every := if repeat then Some delay else None;
              callback := cb |} in
  s |> setTimers (timers s ++ [t]) |> setNextTimer (Pos.succ (nextTimer s)).

(** [clearTimeout(h)] / [clearInterval(h)]. *)
Definition clearTimer (h : positive) (s : State) : State :=
  setTimers (filter (fun t => negb (TimerId_eqb (tid t) h)) (timers s)) s.

Definition findTimer (h : positive) (s : State) : option Timer :=
  find (fun t => TimerId_eqb (tid t) h) (timers s).

(** Suspend on a promise. *)
Definition await (p : Pending) (s : State) : State :=
  s |> setPending (pending s ++ [(nextOp s, p)]) |> setNextOp (S (nextOp s)).

Definition findOp (op : nat) (s : State) : option Pending :=
  match find (fun e => Nat.eqb (fst e) op) (pending s) with
  | Some e => Some (snd e)
  | None => None
  end.

Definition settle (op : nat) (s : State) : State :=
  setPending (filter (fun e => negb (Nat.eqb (fst e) op)) (pending s)) s.

(** [track.stop()] on every track of a stream. *)
Definition stopTracks (m : MediaStream) (s : State) : State :=
  setStoppedTracks (stoppedTracks s ++ getTracks m) s.

(** ** geminiService.ts: [analyzeContent] *)

Definition placeholder : string :=
  "Please analyze the conversation in the image and advise me on the best way to respond to continue the conversation peacefully.".

(** ll.85-112: the request. [text || placeholder]; the image part is sent
    when [imageBase64 && imageMimeType]. *)
Definition buildRequest (text : string) (lang : Language)
  (topic : SocialTopic) (image mime : option string) : Request :=
  let textPart := TextPart (if JS.str_truthy text then text else placeholder) in
  {| imageInstruction := JS.opt_truthy image;
     reqTopic := topic;
     reqLanguage := lang;
     parts :=
       match image, mime with
       | Some data, Some mimeType =>
           if JS.str_truthy data && JS.str_truthy mimeType
           then [InlineData mimeType data; textPart]
           else [textPart]
       | _, _ => [textPart]
       end |}.

(** ll.114-123: up to [await ai.models.generateContent(...)]. *)
Definition analyzeContent (flow : Flow) (text : string) (lang : Language)
  (topic : SocialTopic) (image mime : option string) (s : State) : State :=
  s |> setRequests (requests s ++ [buildRequest text lang topic image mime])
    |> await (AwaitGenerateContent flow).

(** How [generateContent] settles: a response with its text, a rejection
    with an [Error], or a rejection with some other value. *)
Inductive Outcome : Type :=
| Responded (text : string)
| Threw (message : string)
| ThrewOther.

(** The message of the [SyntaxError] of [JSON.parse] depends on the
    engine; one fixed text stands for it. *)
Definition syntaxErrorMessage : string := "Unexpected token in JSON".

(** ll.125-135: after the [await]. [inl] is the message of the [Error]
    thrown, [inr] the value returned: [JSON.parse(response.text.trim())],
    cast with [as AnalysisResult], which checks nothing at run time. *)
Definition analyzeContent_settle (o : Outcome) : string + Json.value :=
  match o with
  | Responded text =>
      match Json.parse (JS.trim text) with
      | Some result => inr result
      | None =>
          inl (String.append "Failed to get analysis from AI: "
                 syntaxErrorMessage)
      end
  | Threw message =>
      inl (String.append "Failed to get analysis from AI: " message)
  | ThrewOther =>
      inl "An unknown error occurred while analyzing the content."
  end.

(** types.ts: the shape that [AnalysisResult] declares (and the [required]
    lists of the schema, ll.42 and 45). *)
Definition is_number (v : option Json.value) : bool :=
  match v with Some (Json.JNumber _ _) => true | _ => false end.

Definition is_string (v : option Json.value) : bool :=
  match v with Some (Json.JString _) => true | _ => false end.

Definition isAnalysisResult (v : Json.value) : bool :=
  is_number (Json.get "temperature" v)
  && is_string (Json.get "emotion" v)
  && is_string (Json.get "suggestion" v)
  && is_string (Json.get "explanation" v)
  && match Json.get "recipientImpact" v with
     | Some impact =>
         is_string (Json.get "predictedFeeling" impact)
         && is_string (Json.get "impactExplanation" impact)
     | None => false
     end.

(** The JSON text [null] parses to the value that also marks an empty
    [analysisResult] slot. *)
Definition nullable (v : Json.value) : option Json.value :=
  match v with
  | Json.JNull => None
  | _ => Some v
  end.

(** ** App.tsx: the handlers *)

(** l.104 and l.197: [prev => [...prev, result].slice(-15)]. *)
Definition pushHistory (result : Json.value) (prev : list Json.value)
  : list Json.value :=
  JS.slice_last 15 (prev ++ [result]).

(** [!inputText.trim()] *)
Definition blank (text : string) : bool := negb (JS.str_truthy (JS.trim text)).

(** ll.93-102: [handleAnalyze] up to its [await]. The arguments of
    [analyzeContent] are the values of the render the closure belongs to. *)
Definition handleAnalyze (s : State) : State :=
  if (blank (inputText s) && negb (JS.opt_truthy (imageBase64 s)))
     || isLoading s
  then s
  else
    s |> setIsLoading true
      |> setError None
      |> setAnalysisResult None
      |> setFeedbackState FeedbackNone
      |> analyzeContent Manual (inputText s) (language s) (socialTopic s)
           (imageBase64 s) (imageMimeType s).

(** ll.103-109: after the [await]. *)
Definition handleAnalyze_settle (r : string + Json.value) (s : State)
  : State :=
  match r with
  | inr result =>
      s |> setAnalysisResult (nullable result)
        |> setAnalysisHistory (pushHistory result (analysisHistory s))
  | inl message => s |> setError (Some (Literal message))
  end
  |> setIsLoading false.

(** ll.149-155 *)
Definition handleRemoveImage (s : State) : State :=
  s |> setImageBase64 None |> setImageMimeType None |> setFileInputValue "".

(** ll.157-171 *)
Definition stopScreenSharing (s : State) : State :=
  let s1 :=
    match analysisIntervalRef s with
    | Some h => s |> clearTimer h |> setAnalysisIntervalRef None
    | None => s
    end in
  let s2 :=
    match mediaStreamRef s1 with
    | Some m => s1 |> stopTracks m |> setMediaStreamRef None
    | None => s1
    end in
  let s3 :=
    match videoRef s2 with
    | Some _ => setVideoRef (Some {| srcObject := None |}) s2
    | None => s2
    end in
  s3 |> setIsScreenSharing false |> setAnalysisResult None.

(** ll.173-194: [analyzeFrame] up to its [await]. *)
Definition analyzeFrame (cap : Capture) (s : State) : State :=
  if isAnalyzingFrameRef s
  then s
  else
    match videoRef s with
    | None => s
    | Some _ =>
        let s1 := setIsAnalyzingFrameRef true s in
        if negb (hasContext cap)
        then setIsAnalyzingFrameRef false s1
        else
          s1 |> setIsAnalyzingFrame true
             |> setError None
             |> setFeedbackState FeedbackNone
             |> analyzeContent Frame (inputText s) (language s)
                  (socialTopic s) (JS.split_comma_1 (frameDataUrl cap))
                  (Some "image/jpeg")
    end.

(** ll.195-205: after the [await]. *)
Definition analyzeFrame_settle (r : string + Json.value) (s : State)
  : State :=
  match r with
  | inr result =>
      match mediaStreamRef s with
      | Some _ =>
          s |> setAnalysisResult (nullable result)
            |> setAnalysisHistory (pushHistory result (analysisHistory s))
      | None => s
      end
  | inl message => s |> setError (Some (Literal message)) |> stopScreenSharing
  end
  |> setIsAnalyzingFrame false
  |> setIsAnalyzingFrameRef false.

(** ll.130-139: [handleImageChange] up to [await fileToBase64(file)]. *)
Definition maxImageSize : N := 4 * 1024 * 1024.

Definition handleImageChange (f : option File) (s : State) : State :=
  match f with
  | Some file =>
      if (maxImageSize <? size file)%N
      then setError (Some (Translated (language s) imageSizeError)) s
      else s |> stopScreenSharing
             |> await (AwaitFileReader (type file) (language s))
  | None => s
  end.

(** ll.140-145 with [fileToBase64], ll.122-128: [r] is the data URL that
    the reader loaded, or [None] when the reader failed. A data URL has a
    comma; for a text without one the slot would receive [undefined],
    which is not told apart from [null] here. *)
Definition handleImageChange_settle (fileType : string) (lang : Language)
  (r : option string) (s : State) : State :=
  match r with
  | Some dataUrl =>
      s |> setImageBase64 (JS.split_comma_1 dataUrl)
        |> setImageMimeType (Some fileType)
        |> setError None
  | None => setError (Some (Translated lang imageLoadError)) s
  end.

(** ll.213-216: [startScreenSharing] up to [await getDisplayMedia]. *)
Definition startScreenSharing (s : State) : State :=
  s |> handleRemoveImage |> await AwaitGetDisplayMedia.

(** ll.217-232: after the [await]; [None] is a rejection. *)
Definition startScreenSharing_settle (r : option MediaStream) (s : State)
  : State :=
  match r with
  | Some stream =>
      let s1 := setMediaStreamRef (Some stream) s in
      let s2 :=
        match videoRef s1 with
        | Some _ => setVideoRef (Some {| srcObject := Some stream |}) s1
        | None => s1
        end in
      let s3 :=
        s2 |> setIsScreenSharing true
           |> setOnended (onended s2 ++ [videoTrack stream]) in
      s3 |> addTimer CallAnalysisFrameFn 5000 true
         |> setAnalysisIntervalRef (Some (nextTimer s3))
  | None =>
      s |> setError (Some (Literal
             "Failed to start screen sharing. Please ensure permissions are granted."))
        |> setIsScreenSharing false
  end.

(** l.500: the [disabled] attribute of the analyze button. *)
Definition analyzeDisabled (s : State) : bool :=
  isLoading s
  || (blank (inputText s) && negb (JS.opt_truthy (imageBase64 s)))
  || isScreenSharing s.

(** ** Rendering and effects *)

(** The dependency array [inputText, imageBase64, isScreenSharing] of the
    effects at ll.322-332 and ll.335-342, compared as React does. *)
Definition opt_string_eqb (a b : option string) : bool :=
  match a, b with
  | Some x, Some y => (x =? y)%string
  | None, None => true
  | _, _ => false
  end.

Definition sameDeps (a b : State) : bool :=
  (inputText a =? inputText b)%string
  && opt_string_eqb (imageBase64 a) (imageBase64 b)
  && Bool.eqb (isScreenSharing a) (isScreenSharing b).

(** l.435: the <video> element exists exactly while [isScreenSharing]. *)
Definition attachVideo (s : State) : State :=
  if isScreenSharing s
  then match videoRef s with
       | Some _ => s
       | None => setVideoRef (Some {| srcObject := None |}) s
       end
  else setVideoRef None s.

(** l.331: the cleanup of the previous run of the debounce effect. *)
Definition debounceEffect_cleanup (s : State) : State :=
  match debounceCleanup s with
  | Some handler => s |> clearTimer handler |> setDebounceCleanup None
  | None => s
  end.

(** ll.322-330 *)
Definition debounceEffect (s : State) : State :=
  if isScreenSharing s || JS.opt_truthy (imageBase64 s) || blank (inputText s)
  then s
  else
    s |> addTimer CallAnalysisFn 1000 false
      |> setDebounceCleanup (Some (nextTimer s)).

(** ll.335-342 *)
Definition clearEffect (s : State) : State :=
  if blank (inputText s) && negb (JS.opt_truthy (imageBase64 s))
     && negb (isScreenSharing s)
  then
    s |> setAnalysisResult None
      |> setError None
      |> setFeedbackState FeedbackNone
      |> setAnalysisHistory []
  else s.

(** The render that follows an event, when it returns: [prev] is the state
    of the previous render. The two effects run when a dependency changed;
    what [clearEffect] sets is no dependency, so the render it causes runs
    no effect. *)
Definition commit (prev s : State) : State :=
  let s1 := attachVideo s in
  if sameDeps prev s1 then s1
  else s1 |> debounceEffect_cleanup |> debounceEffect |> clearEffect.

(** ** Events *)

Inductive Event : Type :=
| ChangeText (value : string)
    (* setInputText: textarea onChange (l.469), recognition.onresult (l.292) *)
| ChangeLanguage (lang : Language)                              (* l.378 *)
| ChooseTopic (topic : SocialTopic)                             (* l.408 *)
| ClickAnalyze                                                  (* l.500 *)
| ClickRemoveImage                                              (* l.452 *)
| ClickShare                                                    (* l.491 *)
| FileChosen (f : option File)                                  (* l.479 *)
| Feedback                                                      (* l.547 *)
| TrackEnded (track : nat)                                      (* l.222 *)
| Elapse (dt : Z)
| TimerFired (h : positive) (cap : Capture)
| GenerateContentSettled (op : nat) (o : Outcome)
| FileReaderSettled (op : nat) (r : option string)
| GetDisplayMediaSettled (op : nat) (r : option MediaStream).

Definition runCallback (cb : TimerCallback) (cap : Capture) (s : State)
  : State :=
  match cb with
  | CallAnalysisFn => handleAnalyze s
  | CallAnalysisFrameFn => analyzeFrame cap s
  end.

(** Arming the interval [h] again for the time [d]. *)
Definition rearm (h : positive) (d : Z) (t' : Timer) : Timer :=
  if TimerId_eqb (tid t') h
  then {| tid := tid t'; due := d; every := every t';
          callback := callback t' |}
  else t'.

(** A timer runs no earlier than it is due; a timeout leaves the table, an
    interval is armed again. *)
Definition fireTimer (h : positive) (cap : Capture) (s : State)
  : option State :=
  match findTimer h s with
  | Some t =>
      if (due t <=? now s)%Z
      then
        let s1 :=
          match every t with
          | Some period =>
              setTimers (map (rearm h (now s + period)%Z) (timers s)) s
          | None => clearTimer h s
          end in
        Some (runCallback (callback t) cap s1)
      else None
  | None => None
  end.

(** The handler of an event, before React renders. [None]: the event
    cannot happen in this state. A click on a disabled control changes
    nothing. *)
Definition handle (ev : Event) (s : State) : option State :=
  match ev with
  | ChangeText value => Some (setInputText value s)
  | ChangeLanguage lang => Some (setLanguage lang s)
  | ChooseTopic topic =>
      Some (if isLoading s then s else setSocialTopic topic s)
  | ClickAnalyze =>
      Some (if analyzeDisabled s then s else handleAnalyze s)
  | ClickRemoveImage =>
      Some (if JS.opt_truthy (imageBase64 s) && negb (isScreenSharing s)
            then handleRemoveImage s else s)
  | ClickShare =>
      Some (if isLoading s then s
            else if isScreenSharing s then stopScreenSharing s
            else startScreenSharing s)
  | FileChosen f => Some (handleImageChange f s)
  | Feedback =>
      Some (match analysisResult s with
            | Some _ => setFeedbackState FeedbackSubmitted s
            | None => s
            end)
  | TrackEnded track =>
      if existsb (Nat.eqb track) (onended s)
         && negb (existsb (Nat.eqb track) (stoppedTracks s))
      then
        Some (s |> setOnended
                     (filter (fun x => negb (Nat.eqb x track)) (onended s))
                |> stopScreenSharing)
      else None
  | Elapse dt =>
      if (0 <=? dt)%Z then Some (setNow (now s + dt)%Z s) else None
  | TimerFired h cap => fireTimer h cap s
  | GenerateContentSettled op o =>
      match findOp op s with
      | Some (AwaitGenerateContent Manual) =>
          Some (s |> settle op |> handleAnalyze_settle (analyzeContent_settle o))
      | Some (AwaitGenerateContent Frame) =>
          Some (s |> settle op |> analyzeFrame_settle (analyzeContent_settle o))
      | _ => None
      end
  | FileReaderSettled op r =>
      match findOp op s with
      | Some (AwaitFileReader fileType lang) =>
          Some (s |> settle op |> handleImageChange_settle fileType lang r)
      | _ => None
      end
  | GetDisplayMediaSettled op r =>
      match findOp op s with
      | Some AwaitGetDisplayMedia =>
          Some (s |> settle op |> startScreenSharing_settle r)
      | _ => None
      end
  end.

Definition step (ev : Event) (s : State) : option State :=
  match handle ev s with
  | Some s' => Some (commit s s')
  | None => None
  end.

Fixpoint run (evs : list Event) (s : State) : option State :=
  match evs with
  | [] => Some s
  | ev :: rest =>
      match step ev s with
      | Some s' => run rest s'
      | None => None
      end
  end.

(** The state after the component has mounted (ll.66-86); the effects of
    the first render change nothing. *)
Definition init : State :=
  {| ui :=
       {| inputText := ""; imageBase64 := None; imageMimeType := None;
          analysisResult := None; analysisHistory := []; isLoading := false;
          isAnalyzingFrame := false; error := None; language := en;
          socialTopic := general; isScreenSharing := false;
          feedbackState := FeedbackNone |};
     refs :=
       {| fileInputValue := ""; videoRef := None; mediaStreamRef := None;
          analysisIntervalRef := None; isAnalyzingFrameRef := false;
          debounceCleanup := None |};
     browser :=
       {| now := 0; timers := []; nextTimer := 1; pending := []; nextOp := 0;
          requests := []; stoppedTracks := []; onended := [] |} |}.

Definition reachable (s : State) : Prop :=
  exists evs, run evs init = Some s.

(** ** What the render reads of a result

    ll.518-550: [analysisResult && (...)] evaluates the block for a
    truthy value. There the render function of [App] calls
    [getEmotionPillColor(analysisResult.emotion)] (l.524), which starts
    with [emotion.toLowerCase()] (l.352), and reads
    [analysisResult.recipientImpact.predictedFeeling] (l.529). The first
    throws a TypeError unless [emotion] is a string, the second when
    [recipientImpact] is [undefined] or [null]. Nothing in [App] catches
    the error: the render shows nothing, and React unmounts the component
    unless an error boundary outside of it takes over.
    [renderThrows] is about the function of [App] itself; the components
    it draws read more of the result and can throw where it does not, for
    example [ImpactAnalysisCard] on a [predictedFeeling] that is no
    string. *)
Definition is_nullish (v : option Json.value) : bool :=
  match v with
  | None => true
  | Some Json.JNull => true
  | Some _ => false
  end.

Definition renderThrows (s : State) : bool :=
  match analysisResult s with
  | Some v =>
      Json.truthy v
      && (negb (is_string (Json.get "emotion" v))
          || is_nullish (Json.get "recipientImpact" v))
  | None => false
  end.

(** The displayed result and every entry of the history have the declared
    type [AnalysisResult]. Then every read of the render succeeds, in
    [App] and in the components that draw the result and the history. *)
Definition typed (s : State) : bool :=
  match analysisResult s with
  | Some v => isAnalysisResult v
  | None => true
  end
  && forallb isAnalysisResult (analysisHistory s).

(** A run on which the render after every event finds results of the
    declared type: the state that the handler leaves is the one that is
    rendered before the effects run. *)
Fixpoint runTyped (evs : list Event) (s : State) : option State :=
  match evs with
  | [] => Some s
  | ev :: rest =>
      match handle ev s with
      | Some s' => if typed s' then runTyped rest (commit s s') else None
      | None => None
      end
  end.

(** ** Invariants of the reachable states *)

(** The <video> element is mounted exactly while [isScreenSharing]. *)
Definition videoSynced (s : State) : Prop :=
  isScreenSharing s = match videoRef s with Some _ => true | None => false end.

Definition histBounded (s : State) : Prop :=
  (List.length (analysisHistory s) <= 15)%nat.

Definition isFlow (f : Flow) (e : nat * Pending) : bool :=
  match snd e, f with
  | AwaitGenerateContent Manual, Manual => true
  | AwaitGenerateContent Frame, Frame => true
  | _, _ => false
  end.

(** Number of calls of [analyzeContent] of a flow that have not settled. *)
Definition inFlight (f : Flow) (ps : list (nat * Pending)) : nat :=
  List.length (filter (isFlow f) ps).

Definition isDebounce (t : Timer) : bool :=
  match callback t with
  | CallAnalysisFn => true
  | CallAnalysisFrameFn => false
  end.

(** Timer handles are fresh and distinct; a timeout that calls the
    analysis function is the one held by the cleanup of the debounce
    effect. *)
Definition timersOk (ts : list Timer) (next : positive)
  (cleanup : option positive) : Prop :=
  (forall t, In t ts -> (tid t < next)%positive)
  /\ NoDup (map tid ts)
  /\ (forall t, In t ts -> isDebounce t = true ->
        cleanup = Some (tid t) /\ every t = None)
  /\ (forall h, cleanup = Some h -> (h < next)%positive).

(** Every interval of the table is a 5000 ms frame interval. *)
Definition intervalsOk (ts : list Timer) : Prop :=
  forall t, In t ts -> isDebounce t = false -> every t = Some 5000%Z.

(** The handle kept in [analysisIntervalRef] was handed out before. *)
Definition handedOut (ref : option positive) (next : positive) : Prop :=
  match ref with
  | Some h => (h < next)%positive
  | None => True
  end.

Definition intervalRefOk (s : State) : Prop :=
  handedOut (analysisIntervalRef s) (nextTimer s).

(** Operation numbers are fresh and distinct; each in-flight flag counts
    the pending calls of its flow. *)
Definition pendingOk (ps : list (nat * Pending)) (next : nat)
  (loading frameFlag : bool) : Prop :=
  (forall e, In e ps -> (fst e < next)%nat)
  /\ NoDup (map fst ps)
  /\ inFlight Manual ps = Nat.b2n loading
  /\ inFlight Frame ps = Nat.b2n frameFlag.

Record Inv (s : State) : Prop :=
  { inv_video : videoSynced s;
    inv_hist : histBounded s;
    inv_timers : timersOk (timers s) (nextTimer s) (debounceCleanup s);
    inv_intervals : intervalsOk (timers s);
    inv_interval_ref : intervalRefOk s;
    inv_pending :
      pendingOk (pending s) (nextOp s) (isLoading s) (isAnalyzingFrameRef s) }.

Definition timersInv (s : State) : Prop :=
  timersOk (timers s) (nextTimer s) (debounceCleanup s).

Definition pendingInv (s : State) : Prop :=
  pendingOk (pending s) (nextOp s) (isLoading s) (isAnalyzingFrameRef s).

(** ** The manual trigger

    The conditions under which the spec allows a manual analysis. *)
Definition canAnalyze (s : State) : bool :=
  negb (isLoading s)
  && (negb (blank (inputText s)) || JS.opt_truthy (imageBase64 s))
  && negb (isScreenSharing s).

(** ** The reset that a render can bring

    [commit prev s] runs [clearEffect] when a dependency changed; the
    effect resets result, error, feedback and history when no input is
    left. *)
Definition resets (prev s : State) : bool :=
  negb (sameDeps prev (attachVideo s))
  && blank (inputText s) && negb (JS.opt_truthy (imageBase64 s))
  && negb (isScreenSharing s).

(** ** Responses of the service *)

(** A result of the declared type with the temperature [t], and the JSON
    text of it. *)
Definition resultWith (t : Z) : Json.value :=
  Json.JObject
    [(JS.units_of_string "temperature", Json.JNumber t 0);
     (JS.units_of_string "emotion",
      Json.JString (JS.units_of_string "Frustration"));
     (JS.units_of_string "suggestion",
      Json.JString
        (JS.units_of_string "I would like to understand what went wrong."));
     (JS.units_of_string "explanation",
      Json.JString (JS.units_of_string "It names the problem without blame."));
     (JS.units_of_string "recipientImpact",
      Json.JObject
        [(JS.units_of_string "predictedFeeling",
          Json.JString (JS.units_of_string "Understood"));
         (JS.units_of_string "impactExplanation",
          Json.JString
            (JS.units_of_string "An open question invites an answer."))])].

Definition responseWith (t : Z) : string := Json.text (resultWith t).

(** ** Successful analyses

    What an event appends to the history: the result of a pending call of
    [analyzeContent] that settles with a response that parses, in the
    frame flow while a capture stream is held (l.195). *)
Definition appended (ev : Event) (s : State) : list Json.value :=
  match ev with
  | GenerateContentSettled op o =>
      match findOp op s, analyzeContent_settle o with
      | Some (AwaitGenerateContent Manual), inr result => [result]
      | Some (AwaitGenerateContent Frame), inr result =>
          match mediaStreamRef s with
          | Some _ => [result]
          | None => []
          end
      | _, _ => []
      end
  | _ => []
  end.

(** The results that the events of a run append, in the order in which
    the calls complete. *)
Fixpoint successes (evs : list Event) (s : State) : list Json.value :=
  match evs with
  | [] => []
  | ev :: rest =>
      match step ev s with
      | Some s' => appended ev s ++ successes rest s'
      | None => []
      end
  end.

(** No render of the run resets the session: the clear effect
    (ll.335-342) empties the history when a render finds a dependency
    changed and no input left ([resets]). *)
Fixpoint sessionKept (evs : list Event) (s : State) : bool :=
  match evs with
  | [] => true
  | ev :: rest =>
      match handle ev s with
      | Some s1 => negb (resets s s1) && sessionKept rest (commit s s1)
      | None => false
      end
  end.

(** A shared screen with one video track, and a captured frame. *)
Definition screen : MediaStream := {| videoTrack := 7; moreTracks := [] |}.

Definition frame : Capture :=
  {| hasContext := true; frameDataUrl := "data:image/jpeg;base64,FRAME" |}.

(** Twenty analyses in a row, the i-th answered with a result of the
    declared type and the temperature i. The text [hi] is typed and the
    debounce timeout (handle 1) starts the first analysis; nine more are
    started with the button, two seconds apart; then the screen is shared
    and ten frames are analysed, one at each tick of the interval
    (handle 2). The calls are the operations 0 to 9 and 11 to 20, the
    request for the screen is the operation 10. *)
Definition answered (op i : nat) : Event :=
  GenerateContentSettled op (Responded (responseWith (Z.of_nat i))).

Definition autoAnalysis : list Event :=
  [ChangeText "hi"; Elapse 1000; TimerFired 1 frame; answered 0 1].

Definition manualAnalysis (i : nat) : list Event :=
  [Elapse 2000; ClickAnalyze; answered (i - 1) i].

Definition frameAnalysis (i : nat) : list Event :=
  [Elapse 5000; TimerFired 2 frame; answered i i].

Definition twentyAnalyses : list Event :=
  autoAnalysis
  ++ flat_map manualAnalysis (seq 2 9)
  ++ [ClickShare; GetDisplayMediaSettled 10 (Some screen)]
  ++ flat_map frameAnalysis (seq 11 10).

(** ** Concrete runs

    The state a sequence of events leads to from the mounted component
    ([init] itself if some event of the sequence cannot happen). *)
Definition after (evs : list Event) : State :=
  match run evs init with
  | Some s => s
  | None => init
  end.

(** Sharing starts and the call of the first tick is slow: it is still
    pending at the second tick, 12 seconds pass in all. *)
Definition slowFrameCall : list Event :=
  [ClickShare; GetDisplayMediaSettled 0 (Some screen); Elapse 5000;
   TimerFired 1 frame; Elapse 5000; TimerFired 1 frame; Elapse 2000].

(** Sharing starts, the first tick sends a frame, the user stops sharing
    while the call is pending. *)
Definition stoppedWhilePending : list Event :=
  [ClickShare; GetDisplayMediaSettled 0 (Some screen); Elapse 5000;
   TimerFired 1 frame; ClickShare].

(** The same, and sharing is started again and granted, with another
    screen, while the call of the first session is still pending. *)
Definition secondScreen : MediaStream :=
  {| videoTrack := 8; moreTracks := [] |}.

Definition restartedWhilePending : list Event :=
  stoppedWhilePending
  ++ [ClickShare; GetDisplayMediaSettled 2 (Some secondScreen)].

(** The call of the first tick is answered with a result. *)
Definition lateAnswer : Event :=
  GenerateContentSettled 1 (Responded (responseWith 50)).

(** ** Bursts of text changes

    Each element of a burst waits [fst] milliseconds and then sets the
    text to [snd]; no timer fires in between. *)
Definition Burst : Type := list (Z * string).

Definition burstEvents (b : Burst) : list Event :=
  flat_map (fun p => [Elapse (fst p); ChangeText (snd p)]) b.

(** Every element is a change: its value differs from the text before. *)
Fixpoint changes (prev : string) (vs : list string) : Prop :=
  match vs with
  | [] => True
  | v :: rest => v <> prev /\ changes v rest
  end.

Definition finalText (prev : string) (b : Burst) : string :=
  fold_left (fun _ p => snd p) b prev.

(** What a burst leaves alone: image, capture mode, loading flag,
    language, topic and the requests sent so far. *)
Definition keeps (s s1 : State) : Prop :=
  imageBase64 s1 = imageBase64 s /\ imageMimeType s1 = imageMimeType s
  /\ isScreenSharing s1 = isScreenSharing s /\ isLoading s1 = isLoading s
  /\ language s1 = language s /\ socialTopic s1 = socialTopic s
  /\ requests s1 = requests s.

(** The timeouts of the table that call the analysis function. *)
Definition debounceTimers (s : State) : list Timer :=
  filter isDebounce (timers s).

Definition debounceTimer (h : positive) (d : Z) : Timer :=
  {| tid := h; due := d; every := None; callback := CallAnalysisFn |}.

(** The handle [h] is not in the table and will not be handed out again. *)
Definition absentIn (h : positive) (ts : list Timer) (next : positive)
  : Prop :=
  ~ In h (map tid ts) /\ (h < next)%positive.

Definition absent (h : positive) (s : State) : Prop :=
  absentIn h (timers s) (nextTimer s).

(** The scenario of the spec: "a", "ab", "abc" typed within 300 ms. *)
Definition typing : Burst := [(0, "a"); (100, "ab"); (100, "abc")]%Z.

(** A burst that ends with the text deleted again. *)
Definition typedAndDeleted : Burst := [(0, "a"); (100, "")]%Z.

(** ** Responses that lack fields *)

(** A JSON text with a member name needs the quotation mark. *)
Definition quoted (s : string) : string :=
  String (ascii_of_nat 34) (String.append s (String (ascii_of_nat 34) "")).

(** [{"temperature": 50}]: well-formed, all other fields missing. *)
Definition partialResponse : string :=
  String.append "{" (String.append (quoted "temperature") ": 50}").

(** One manual analysis of the text [hi], answered with [text]. *)
Definition analysedWith (text : string) : list Event :=
  [ChangeText "hi"; ClickAnalyze; GenerateContentSettled 0 (Responded text)].

(** ** Failures of a frame analysis *)

(** Sharing with an empty text field; the call of the first tick fails. *)
Definition frameFailure : list Event :=
  [ClickShare; GetDisplayMediaSettled 0 (Some screen); Elapse 5000;
   TimerFired 1 frame; GenerateContentSettled 1 (Threw "503")].

(** The same with a text in the field (its debounce timeout takes the
    handle 1, the interval the handle 2). *)
Definition frameFailureWithText : list Event :=
  [ChangeText "hi"; ClickShare; GetDisplayMediaSettled 0 (Some screen);
   Elapse 5000; TimerFired 2 frame; GenerateContentSettled 1 (Threw "503")].

(** The same with one successful frame before the failing one. *)
Definition frameFailureAfterSuccess : list Event :=
  [ClickShare; GetDisplayMediaSettled 0 (Some screen); Elapse 5000;
   TimerFired 1 frame; GenerateContentSettled 1 (Responded (responseWith 50));
   Elapse 5000; TimerFired 1 frame; GenerateContentSettled 2 (Threw "503")].

(** No input is left: blank text and no image. *)
Definition noInput (s : State) : bool :=
  blank (inputText s) && negb (JS.opt_truthy (imageBase64 s)).

(** ** Upload against share

    The user asks to share the screen and, while the browser still shows
    its prompt, uploads a file; the prompt is answered afterwards. *)
Definition uploadDuringSharePrompt : list Event :=
  [ClickShare;
   FileChosen (Some {| size := 10; type := "image/png" |});
   FileReaderSettled 1 (Some "data:image/png;base64,AAAA");
   GetDisplayMediaSettled 0 (Some screen)].

(** Whether a file read, or a request for the screen, is pending. *)
Definition isFileRead (e : nat * Pending) : bool :=
  match snd e with
  | AwaitFileReader _ _ => true
  | _ => false
  end.

Definition isDisplayRequest (e : nat * Pending) : bool :=
  match snd e with
  | AwaitGetDisplayMedia => true
  | _ => false
  end.

Definition filePending (s : State) : bool := existsb isFileRead (pending s).

Definition displayPending (s : State) : bool :=
  existsb isDisplayRequest (pending s).

(** Events as they happen when the two acquisitions do not overlap: no
    file is chosen while a request for the screen is pending, and sharing
    is not started while a file is being read. *)
Definition apart (ev : Event) (s : State) : bool :=
  match ev with
  | FileChosen (Some _) => negb (displayPending s)
  | ClickShare => isLoading s || isScreenSharing s || negb (filePending s)
  | _ => true
  end.

Fixpoint runApart (evs : list Event) (s : State) : option State :=
  match evs with
  | [] => Some s
  | ev :: rest =>
      if apart ev s
      then match step ev s with
           | Some s' => runApart rest s'
           | None => None
           end
      else None
  end.

(** Uploaded image and screen share exclude each other, also while one of
    them is being acquired: stated on the image slot, the share flag and
    the pending operations. *)
Definition exclusiveOn (img : option string) (sharing : bool)
  (ps : list (nat * Pending)) : Prop :=
  (sharing = true -> img = None)
  /\ (existsb isFileRead ps = true ->
        sharing = false /\ existsb isDisplayRequest ps = false)
  /\ (existsb isDisplayRequest ps = true -> img = None).

Definition exclusive (s : State) : Prop :=
  exclusiveOn (imageBase64 s) (isScreenSharing s) (pending s).

(** * Further parts of the sources

    The rest of geminiService.ts (the system instruction), the preview of
    the uploaded image, the two presentation components that compute
    with the temperature, [TemperatureGauge] and [EmotionChart], further
    invariants of the component, and voice dictation. *)

From Stdlib Require SpecFloat.

(** ** App.tsx: the preview of the uploaded image *)

(** [FileReader.readAsDataURL] of a file whose content encodes to
    [payload]: the media type is [file.type], and for a file without a
    type the browsers write [application/octet-stream]. *)
Definition readAsDataURL (fileType payload : string) : string :=
  String.append "data:"
    (String.append
       (if JS.str_truthy fileType then fileType
        else "application/octet-stream")
       (String.append ";base64," payload)).

(** l.450: [`data:${imageMimeType};base64,${imageBase64}`]; a [null] is
    written out as the text null. *)
Definition previewSrc (mime : option string) (data : string) : string :=
  String.append "data:"
    (String.append (match mime with Some m => m | None => "null" end)
       (String.append ";base64," data)).

(** l.448: [imageBase64 && !isScreenSharing && <img src=... />]. *)
Definition preview (s : State) : option string :=
  match imageBase64 s with
  | Some data =>
      if JS.str_truthy data && negb (isScreenSharing s)
      then Some (previewSrc (imageMimeType s) data)
      else None
  | None => None
  end.

Definition no_comma (s : string) : bool :=
  forallb (fun c => negb (c =? ",")%char) (list_ascii_of_string s).

(** ** geminiService.ts: what a request is made of *)

(** A prompt text that is not empty, after at most one image part; an
    image part comes with the instruction for images. *)
Definition wellFormedRequest (r : Request) : bool :=
  match parts r with
  | [TextPart text] => JS.str_truthy text
  | [InlineData mimeType data; TextPart text] =>
      JS.str_truthy text && JS.str_truthy mimeType && JS.str_truthy data
      && imageInstruction r
  | _ => false
  end.

(** ** geminiService.ts: the system instruction *)

(** ll.75-83: [languageMap[language] || 'English'], on the languages that
    the component passes. *)
Definition languageMap (language : Language) : option string :=
  match language with
  | en => Some "English"
  | ko => Some "Korean"
  | es => Some "Spanish"
  | fr => Some "French"
  | ja => Some "Japanese"
  | zh => Some "Chinese"
  end.

Definition responseLanguage (language : Language) : string :=
  match languageMap language with
  | Some name => if JS.str_truthy name then name else "English"
  | None => "English"
  end.

(** The value of a [SocialTopic] (l.53 of App.tsx). *)
Definition topicId (topic : SocialTopic) : string :=
  match topic with
  | general => "general"
  | gender_equality => "gender-equality"
  | human_rights => "human-rights"
  | violence_prevention => "violence-prevention"
  | workplace_conflict => "workplace-conflict"
  end.

(** ll.85-87: the two openings of the system instruction. *)
Definition instructionWithImage : string :=
  "You are an expert communication coach named 'PeaceTalk'. Analyze the conversation in the provided image. The user has also provided text which might be a draft response or a question. Your goal is to give them the best advice on how to respond. Analyze the emotional tone, predict impact, and suggest a constructive, empathetic response.".

Definition instructionWithoutImage : string :=
  "You are an expert communication coach named 'PeaceTalk'. Your goal is to analyze user-provided text to identify its emotional tone, predict its likely impact on the recipient, and suggest a more constructive, empathetic, and neutral alternative.".

(** ll.48-65: the texts of [topicInstructions]. *)
Definition genderEquality_en : string :=
  "In your analysis, pay special attention to language related to gender equality. Identify any potential gender bias, stereotypes, or microaggressions. Your suggestions should promote respectful, inclusive, and equitable communication between genders.".

Definition genderEquality_ko : string :=
  "분석 시 성 평등과 관련된 언어에 특히 주의를 기울여 주십시오. 잠재적인 성 편견, 고정관념 또는 미묘한 차별을 식별하십시오. 당신의 제안은 성별 간에 존중하고 포용적이며 공평한 의사소통을 촉진해야 합니다.".

Definition humanRights_en : string :=
  "Analyze the conversation through a human rights lens. Identify any language that may be discriminatory, dehumanizing, or disrespectful of fundamental rights. Provide suggestions that uphold dignity, respect, and empathy for all individuals.".

Definition humanRights_ko : string :=
  "인권의 관점에서 대화를 분석하십시오. 차별적이거나, 비인간적이거나, 기본권을 무시하는 언어가 있는지 식별하십시오. 모든 개인에 대한 존엄성, 존중, 공감을 지지하는 제안을 제공하십시오.".

Definition violencePrevention_en : string :=
  "Focus on de-escalation and violence prevention. Analyze the text for aggressive language, threats, or warning signs of conflict escalation. Your suggestions must prioritize safety and guide the user toward peaceful resolutions and non-violent communication techniques.".

Definition violencePrevention_ko : string :=
  "상황 완화 및 폭력 예방에 중점을 두십시오. 공격적인 언어, 위협 또는 갈등 고조의 경고 신호가 있는지 텍스트를 분석하십시오. 당신의 제안은 안전을 최우선으로 해야 하며, 사용자를 평화로운 해결책과 비폭력적인 의사소통 기술로 안내해야 합니다.".

Definition workplaceConflict_en : string :=
  "Analyze the conversation within the context of a school or workplace. Consider power dynamics, professionalism, and constructive conflict resolution. Suggestions should be practical for a professional or academic setting, aiming to resolve disputes while maintaining relationships.".

Definition workplaceConflict_ko : string :=
  "학교나 직장 내의 맥락에서 대화를 분석하십시오. 권력 역학, 전문성, 건설적인 갈등 해결을 고려하십시오. 제안은 관계를 유지하면서 분쟁을 해결하는 것을 목표로 전문적이거나 학문적인 환경에 실용적이어야 합니다.".

(** ll.48-65: [topicInstructions[socialTopic]], an object with the keys
    [en] and [ko], or [undefined] for a topic that is no key. The Korean
    texts are kept as the bytes of the source file; they are only
    appended to other texts. *)
Definition topicInstructions (topic : SocialTopic)
  : option (Language -> option string) :=
  let both (e k : string) :=
    Some (fun language =>
            match language with
            | en => Some e
            | ko => Some k
            | _ => None
            end) in
  match topic with
  | general => None
  | gender_equality => both genderEquality_en genderEquality_ko
  | human_rights => both humanRights_en humanRights_ko
  | violence_prevention => both violencePrevention_en violencePrevention_ko
  | workplace_conflict => both workplaceConflict_en workplaceConflict_ko
  end.

(** [s.split(sep)] for a separator of one character. *)
Fixpoint str_split (sep : ascii) (l : list ascii) : list (list ascii) :=
  match l with
  | [] => [[]]
  | c :: r =>
      if (c =? sep)%char then [] :: str_split sep r
      else
        match str_split sep r with
        | w :: ws => (c :: w) :: ws
        | [] => [[c]]
        end
  end.

(** [words.join(sep)] *)
Fixpoint str_join (sep : list ascii) (words : list (list ascii)) : list ascii :=
  match words with
  | [] => []
  | [w] => w
  | w :: rest => w ++ sep ++ str_join sep rest
  end.

(** [c.toUpperCase()] for a character of a topic value: the letters a-z
    become A-Z, the hyphen and the other ASCII characters stay. *)
Definition toUpperCase (c : ascii) : ascii :=
  let n := N_of_ascii c in
  if ((97 <=? n) && (n <=? 122))%N then ascii_of_N (n - 32) else c.

(** l.91: [word.charAt(0).toUpperCase() + word.slice(1)] *)
Definition capitalize (word : list ascii) : list ascii :=
  match word with
  | [] => []
  | c :: rest => toUpperCase c :: rest
  end.

(** l.91 *)
Definition topicTitle (socialTopic : string) : string :=
  string_of_list_ascii
    (str_join [" "%char]
       (map capitalize (str_split "-"%char (list_ascii_of_string socialTopic)))).

Definition newline : string := String (ascii_of_nat 10) "".

(** ll.89-93: what a topic adds to the instruction. *)
Definition topicFocus (socialTopic : SocialTopic) (language : Language)
  : string :=
  match topicInstructions socialTopic with
  | Some topicInstructionSet =>
      let text :=
        match topicInstructionSet language with
        | Some own => if JS.str_truthy own then Some own
                      else topicInstructionSet en
        | None => topicInstructionSet en
        end in
      String.append newline
        (String.append newline
           (String.append "**Special Coaching Focus: "
              (String.append (topicTitle (topicId socialTopic))
                 (String.append "**"
                    (String.append newline
                       (match text with Some i => i | None => "undefined" end))))))
  | None => ""
  end.

(** l.95 *)
Definition respondIn (name : string) : string :=
  String.append " You must always respond in "
    (String.append name
       " in the structured JSON format defined by the schema.").

(** ll.85-95: [systemInstruction]; [withImage] is the truthiness of
    [imageBase64]. *)
Definition systemInstruction (withImage : bool) (socialTopic : SocialTopic)
  (language : Language) : string :=
  String.append
    (String.append
       (if withImage then instructionWithImage else instructionWithoutImage)
       (topicFocus socialTopic language))
    (respondIn (responseLanguage language)).

(** The instruction that goes out with a request. *)
Definition instructionOf (r : Request) : string :=
  systemInstruction (imageInstruction r) (reqTopic r) (reqLanguage r).

(** ** Numbers

    A JavaScript number is an IEEE 754 binary64 value; the operations
    round to nearest, ties to even. *)
Module Num.

Definition number : Type := SpecFloat.spec_float.

Definition prec : Z := 53.
Definition emax : Z := 1024.

(** An integer literal, and the value of [length] or of an index. *)
Definition of_Z (z : Z) : number :=
  SpecFloat.binary_normalize prec emax z 0 false.

Definition of_nat (n : nat) : number := of_Z (Z.of_nat n).

Definition add : number -> number -> number := SpecFloat.SFadd prec emax.
Definition sub : number -> number -> number := SpecFloat.SFsub prec emax.
Definition mul : number -> number -> number := SpecFloat.SFmul prec emax.
Definition div : number -> number -> number := SpecFloat.SFdiv prec emax.

(** [a <= b], [a < b] and [a > b]; a comparison with NaN is false. *)
Definition leb (a b : number) : bool := SpecFloat.SFleb a b.
Definition ltb (a b : number) : bool := SpecFloat.SFltb a b.
Definition gtb (a b : number) : bool := SpecFloat.SFltb b a.
Definition eqb (a b : number) : bool := SpecFloat.SFeqb a b.

Definition NaN : number := SpecFloat.S754_nan.

(** [Math.PI], the binary64 value 0x400921FB54442D18. *)
Definition PI : number := SpecFloat.S754_finite false 7074237752028440 (-51).

End Num.

(** types.ts, with the temperature as the number it is declared to be. *)
Record RecipientImpact : Type :=
  { predictedFeeling : string; impactExplanation : string }.

Record AnalysisResult : Type :=
  { temperature : Num.number;
    emotion : string;
    suggestion : string;
    explanation : string;
    recipientImpact : RecipientImpact }.

(** ** components/TemperatureGauge.tsx *)
Module TemperatureGauge.

Import Num.

Definition getTemperatureColor (temp : number) : string :=
  if leb temp (of_Z 33) then "bg-sky-500"
  else if leb temp (of_Z 66) then "bg-yellow-500"
  else "bg-red-500".

Definition getTemperatureRingColor (temp : number) : string :=
  if leb temp (of_Z 33) then "stroke-sky-500"
  else if leb temp (of_Z 66) then "stroke-yellow-500"
  else "stroke-red-500".

Definition getTemperatureTextColor (temp : number) : string :=
  if leb temp (of_Z 33) then "text-sky-600 dark:text-sky-400"
  else if leb temp (of_Z 66) then "text-yellow-600 dark:text-yellow-400"
  else "text-red-600 dark:text-red-400".

(** [2 * Math.PI * 52] *)
Definition circumference : number := mul (mul (of_Z 2) PI) (of_Z 52).

(** [circumference - (temperature / 100) * circumference] *)
Definition strokeDashoffset (temperature : number) : number :=
  sub circumference (mul (div temperature (of_Z 100)) circumference).

(** What the markup is computed from: the class and the dashes of the
    ring, the class of the figure and the figure. *)
Record Gauge : Type :=
  { ringClass : string;
    strokeDasharray : number;
    dashoffset : number;
    textClass : string;
    figure : number }.

Definition render (temperature : number) : Gauge :=
  {| ringClass := getTemperatureRingColor temperature;
     strokeDasharray := circumference;
     dashoffset := strokeDashoffset temperature;
     textClass := getTemperatureTextColor temperature;
     figure := temperature |}.

End TemperatureGauge.

(** ** components/EmotionChart.tsx *)
Module EmotionChart.

Import Num.

Definition getTemperatureColor (temp : number) : string :=
  if leb temp (of_Z 33) then "fill-sky-500"
  else if leb temp (of_Z 66) then "fill-yellow-500"
  else "fill-red-500".

Definition SVG_WIDTH : number := of_Z 500.
Definition SVG_HEIGHT : number := of_Z 200.
Definition PADDING : number := of_Z 30.

Definition chartWidth : number := sub SVG_WIDTH (mul PADDING (of_Z 2)).
Definition chartHeight : number := sub SVG_HEIGHT (mul PADDING (of_Z 2)).

(** [arr.map((x, index) => ...)]: the elements with their indices. *)
Definition indexed {A} (l : list A) : list (nat * A) :=
  combine (seq 0 (List.length l)) l.

(** ll.29 and 91: [PADDING + (index / (history.length - 1)) * chartWidth] *)
Definition xOf (index length : nat) : number :=
  add PADDING
    (mul (div (of_nat index) (sub (of_nat length) (of_Z 1))) chartWidth).

(** ll.30 and 92:
    [PADDING + chartHeight - (result.temperature / 100) * chartHeight] *)
Definition yOf (temp : number) : number :=
  sub (add PADDING chartHeight) (mul (div temp (of_Z 100)) chartHeight).

(** l.70: [(index / (history.length - 1)) * 100], shown with a percent
    sign. *)
Definition offsetOf (index length : nat) : number :=
  mul (div (of_nat index) (sub (of_nat length) (of_Z 1))) (of_Z 100).

(** ll.71-73 *)
Definition stopColorOf (temp : number) : string :=
  let stopColor := "#f59e0b" in
  let stopColor := if leb temp (of_Z 33) then "#0ea5e9" else stopColor in
  if gtb temp (of_Z 66) then "#ef4444" else stopColor.

Record Stop : Type := { offset : number; stopColor : string }.

Record Circle : Type :=
  { cx : number; cy : number; className : string;
    title : nat * number }.

(** What the markup is computed from: the points of the line (written
    out as [x,y] pairs), the stops of the gradient and the circles. *)
Record Chart : Type :=
  { points : list (number * number);
    stops : list Stop;
    circles : list Circle }.

(** ll.35-39 *)
Definition yAxisLabels : list (number * number) :=
  [(of_Z 100, PADDING);
   (of_Z 50, add PADDING (div chartHeight (of_Z 2)));
   (of_Z 0, add PADDING chartHeight)].

(** ll.9-12 and what follows: [None] is the [null] that the component
    returns for a history of fewer than two results. *)
Definition render (history : list AnalysisResult) : option Chart :=
  if (List.length history <? 2)%nat then None
  else
    let n := List.length history in
    Some
      {| points :=
           map (fun p => (xOf (fst p) n, yOf (temperature (snd p))))
             (indexed history);
         stops :=
           map (fun p =>
                  {| offset := offsetOf (fst p) n;
                     stopColor := stopColorOf (temperature (snd p)) |})
             (indexed history);
         circles :=
           map (fun p =>
                  {| cx := xOf (fst p) n;
                     cy := yOf (temperature (snd p));
                     className :=
                       String.append
                         (getTemperatureColor (temperature (snd p)))
                         " stroke-white dark:stroke-slate-800";
                     title := (S (fst p), temperature (snd p)) |})
             (indexed history) |}.

(** l.531 of App.tsx: the component is rendered for a history of more
    than one result. *)
Definition shown (history : list AnalysisResult) : bool :=
  (1 <? List.length history)%nat.

End EmotionChart.

(** ** Checks over a range of integers *)

(** [check] holds for [from], [from + 1], ... ([count] integers). *)
Fixpoint allFrom (from : Z) (count : nat) (check : Z -> bool) : bool :=
  match count with
  | O => true
  | S k => check from && allFrom (from + 1) k check
  end.

(** A temperature as the schema asks for it: an integer from 0 to 100
    (geminiService.ts ll.13-16). *)
Definition inRange (z : Z) : Prop := (0 <= z <= 100)%Z.

(** The colour bands of the temperature. *)
Inductive Band : Type := Cool | Warm | Hot.

(** ** Further invariants of the component *)

(** The spinner over the video and the flag that guards the frame
    analysis show the same. *)
Definition spinnerSynced (s : State) : Prop :=
  isAnalyzingFrame s = isAnalyzingFrameRef s.

(** The input for which the debounce effect arms its timeout (l.323). *)
Definition autoAnalysisInput (s : State) : bool :=
  negb (isScreenSharing s) && negb (JS.opt_truthy (imageBase64 s))
  && negb (blank (inputText s)).

(** Every timeout of the table that calls the analysis function has one
    of the handles [ids]. *)
Definition debounceAmong (ids : list positive) (s : State) : Prop :=
  forall t, In t (timers s) -> isDebounce t = true -> In (tid t) ids.

Definition debounceArmed (s : State) : Prop :=
  debounceTimers s <> [] -> autoAnalysisInput s = true.

(** The handle kept by the cleanup of the debounce effect never names a
    frame interval. *)
Definition cleanupIsDebounce (s : State) : Prop :=
  forall t, In t (timers s) -> isDebounce t = false ->
    debounceCleanup s <> Some (tid t).

Definition timersInv2 (s : State) : Prop :=
  timersInv s /\ cleanupIsDebounce s.

(** ** A second request for the screen

    The user clicks the share button twice before the browser's prompt is
    answered; the first request is granted. *)
Definition sharedTwice : list Event :=
  [ClickShare; ClickShare; GetDisplayMediaSettled 0 (Some screen)].

Definition frameInterval (h : positive) (d : Z) : Timer :=
  {| tid := h; due := d; every := Some 5000%Z;
     callback := CallAnalysisFrameFn |}.

Definition shareFailed : string :=
  "Failed to start screen sharing. Please ensure permissions are granted.".

(** ** Texts that [trim] removes *)

Definition all_space (s : string) : bool :=
  forallb JS.is_trim_space (list_ascii_of_string s).

(** The no-break space, which [trim] removes and JSON does not allow
    around a value. *)
Definition NBSP : string := String (ascii_of_nat 160) "".

(** A chosen file, read. *)
Definition chosen (fileType : string) : list Event :=
  [FileChosen (Some {| size := 10; type := fileType |})].

(** ** The colours of a band, by the name of the Tailwind colour *)

Definition bgClass (b : Band) : string :=
  match b with
  | Cool => "bg-sky-500" | Warm => "bg-yellow-500" | Hot => "bg-red-500"
  end.

Definition strokeClass (b : Band) : string :=
  match b with
  | Cool => "stroke-sky-500"
  | Warm => "stroke-yellow-500"
  | Hot => "stroke-red-500"
  end.

Definition textClass (b : Band) : string :=
  match b with
  | Cool => "text-sky-600 dark:text-sky-400"
  | Warm => "text-yellow-600 dark:text-yellow-400"
  | Hot => "text-red-600 dark:text-red-400"
  end.

Definition fillClass (b : Band) : string :=
  match b with
  | Cool => "fill-sky-500" | Warm => "fill-yellow-500" | Hot => "fill-red-500"
  end.

(** sky-500, yellow-500 (as the chart writes it) and red-500. *)
Definition stopHex (b : Band) : string :=
  match b with
  | Cool => "#0ea5e9" | Warm => "#f59e0b" | Hot => "#ef4444"
  end.

(** The band of an integer temperature. *)
Definition bandOf (z : Z) : Band :=
  if (z <=? 33)%Z then Cool else if (z <=? 66)%Z then Warm else Hot.

(** ** Checks on the figures of the components *)

(** Each number is less than the next. *)
Fixpoint increasing (l : list Num.number) : bool :=
  match l with
  | a :: (b :: _) as rest => Num.ltb a b && increasing rest
  | _ => true
  end.

(** The x coordinates of a chart of [n] results. *)
Definition xCoordinates (n : nat) : list Num.number :=
  map (fun index => EmotionChart.xOf index n) (seq 0 n).

Definition offsets (n : nat) : list Num.number :=
  map (fun index => EmotionChart.offsetOf index n) (seq 0 n).

(** The line runs from the left edge of the plot to its right edge, and
    the gradient from 0 to 100 percent. *)
Definition spansThePlot (n : nat) : bool :=
  increasing (xCoordinates n)
  && Num.eqb (nth 0 (xCoordinates n) Num.NaN) EmotionChart.PADDING
  && Num.eqb (nth (n - 1) (xCoordinates n) Num.NaN)
       (Num.sub EmotionChart.SVG_WIDTH EmotionChart.PADDING)
  && increasing (offsets n)
  && Num.eqb (nth 0 (offsets n) Num.NaN) (Num.of_Z 0)
  && Num.eqb (nth (n - 1) (offsets n) Num.NaN) (Num.of_Z 100).

(** A point of an integer temperature lies in the plot, above the point
    of the temperature one less. *)
Definition pointInPlot (z : Z) : bool :=
  let y := EmotionChart.yOf (Num.of_Z z) in
  Num.leb EmotionChart.PADDING y
  && Num.leb y (Num.add EmotionChart.PADDING EmotionChart.chartHeight)
  && Num.ltb (EmotionChart.yOf (Num.of_Z (z + 1))) y.

(** The ring of an integer temperature is filled between nothing and
    all of it, and less than that of the temperature one more. *)
Definition ringInRange (z : Z) : bool :=
  let d := TemperatureGauge.strokeDashoffset (Num.of_Z z) in
  Num.leb (Num.of_Z 0) d
  && Num.leb d TemperatureGauge.circumference
  && Num.ltb (TemperatureGauge.strokeDashoffset (Num.of_Z (z + 1))) d.

(** An integer temperature falls in its band, in both components. *)
Definition bandsOfInteger (z : Z) : bool :=
  (TemperatureGauge.getTemperatureRingColor (Num.of_Z z)
   =? strokeClass (bandOf z))%string
  && (TemperatureGauge.getTemperatureTextColor (Num.of_Z z)
      =? textClass (bandOf z))%string
  && (EmotionChart.getTemperatureColor (Num.of_Z z)
      =? fillClass (bandOf z))%string
  && (EmotionChart.stopColorOf (Num.of_Z z) =? stopHex (bandOf z))%string.

(** A history of [n] results with the temperature [t]. *)
Definition sample (t : Num.number) : AnalysisResult :=
  {| temperature := t; emotion := "Neutral"; suggestion := "";
     explanation := "";
     recipientImpact :=
       {| predictedFeeling := ""; impactExplanation := "" |} |}.

(** ** The <video> element and the stream *)

(** The element is not mounted, or mounted without a source. *)
Definition videoWithoutSource (s : State) : Prop :=
  videoRef s = None \/ videoRef s = Some {| srcObject := None |}.

(** Any event but a granted request for the screen. *)
Definition notGranted (ev : Event) : bool :=
  match ev with
  | GetDisplayMediaSettled _ (Some _) => false
  | _ => true
  end.

(** While the screen is shared the component holds a stream and the
    handle of a frame interval of the timer table, due within 5000 ms. *)
Definition sharingArmed (s : State) : Prop :=
  isScreenSharing s = true ->
  exists m h t,
    mediaStreamRef s = Some m /\ analysisIntervalRef s = Some h
    /\ findTimer h s = Some t /\ callback t = CallAnalysisFrameFn
    /\ every t = Some 5000%Z /\ (due t <= now s + 5000)%Z.

(** ** App.tsx: voice dictation (ll.56-63, 86-91, 235-260, 274-319)

    The component on top of the Web Speech API. A recognition object is
    started by [start()], which throws when the object is started
    already, and stays started until its [end] event; [stop()] asks it to
    end. Its handlers stay attached after the component has replaced it.

    translations.ts is not among the sources: [t] stands for the table,
    read as [t(key)] under a language (ll.118-120). *)
Module Dictation.

Inductive MicKey : Type := micNotSupportedError | micPermissionError.

(** ll.56-63 *)
Definition speechLangMap (language : Language) : string :=
  match language with
  | en => "en-US"
  | ko => "ko-KR"
  | es => "es-ES"
  | fr => "fr-FR"
  | ja => "ja-JP"
  | zh => "zh-CN"
  end.

(** A [SpeechRecognition] object: its [lang], whether it is started,
    whether [stop()] was called since, and the language of the [t] that
    its handlers were made with (l.313). *)
Record Recognition : Type :=
  { rid : nat; lang : string; started : bool; stopRequested : bool;
    boundLanguage : Language }.

(** What the callbacks of [getUserMedia(...).then(...).catch(...)] keep of
    the render in which the button was clicked (ll.247-258): the text, the
    language (also that of [t]) and the recognition object. *)
Record MicRequest : Type :=
  { atText : string; atLanguage : Language; atRecognition : nat }.

(** The component with dictation: the state of the rest of the component,
    the slot [isRecording] (l.77), the refs [baseTextRef] (l.86) and
    [speechRecognitionRef] (l.89), whether the browser has the API (l.91),
    and in the browser the recognition objects made so far and the
    requests for the microphone that are pending. *)
Record World : Type :=
  { app : State;
    isRecording : bool;
    baseTextRef : string;
    speechRecognitionRef : option nat;
    isSpeechRecognitionSupported : bool;
    recognitions : list Recognition;
    nextRecognition : nat;
    micRequests : list (nat * MicRequest);
    nextMicRequest : nat }.

Definition setApp (v : State) (w : World) : World :=
  {| app := v; isRecording := isRecording w; baseTextRef := baseTextRef w;
     speechRecognitionRef := speechRecognitionRef w;
     isSpeechRecognitionSupported := isSpeechRecognitionSupported w;
     recognitions := recognitions w; nextRecognition := nextRecognition w;
     micRequests := micRequests w; nextMicRequest := nextMicRequest w |}.

Definition setIsRecording (v : bool) (w : World) : World :=
  {| app := app w; isRecording := v; baseTextRef := baseTextRef w;
     speechRecognitionRef := speechRecognitionRef w;
     isSpeechRecognitionSupported := isSpeechRecognitionSupported w;
     recognitions := recognitions w; nextRecognition := nextRecognition w;
     micRequests := micRequests w; nextMicRequest := nextMicRequest w |}.

Definition setBaseTextRef (v : string) (w : World) : World :=
  {| app := app w; isRecording := isRecording w; baseTextRef := v;
     speechRecognitionRef := speechRecognitionRef w;
     isSpeechRecognitionSupported := isSpeechRecognitionSupported w;
     recognitions := recognitions w; nextRecognition := nextRecognition w;
     micRequests := micRequests w; nextMicRequest := nextMicRequest w |}.

Definition setRecognitions (v : list Recognition) (w : World) : World :=
  {| app := app w; isRecording := isRecording w;
     baseTextRef := baseTextRef w;
     speechRecognitionRef := speechRecognitionRef w;
     isSpeechRecognitionSupported := isSpeechRecognitionSupported w;
     recognitions := v; nextRecognition := nextRecognition w;
     micRequests := micRequests w; nextMicRequest := nextMicRequest w |}.

Definition setMicRequests (v : list (nat * MicRequest)) (w : World) : World :=
  {| app := app w; isRecording := isRecording w;
     baseTextRef := baseTextRef w;
     speechRecognitionRef := speechRecognitionRef w;
     isSpeechRecognitionSupported := isSpeechRecognitionSupported w;
     recognitions := recognitions w; nextRecognition := nextRecognition w;
     micRequests := v; nextMicRequest := nextMicRequest w |}.

(** [new SpeechRecognitionAPI()], kept in [speechRecognitionRef]
    (ll.281-282). *)
Definition newRecognition (language : Language) (w : World) : World :=
  {| app := app w; isRecording := isRecording w;
     baseTextRef := baseTextRef w;
     speechRecognitionRef := Some (nextRecognition w);
     isSpeechRecognitionSupported := isSpeechRecognitionSupported w;
     recognitions :=
       recognitions w
       ++ [{| rid := nextRecognition w; lang := ""; started := false;
              stopRequested := false; boundLanguage := language |}];
     nextRecognition := S (nextRecognition w);
     micRequests := micRequests w; nextMicRequest := nextMicRequest w |}.

(** [navigator.mediaDevices.getUserMedia({ audio: true })] *)
Definition getUserMedia (req : MicRequest) (w : World) : World :=
  {| app := app w; isRecording := isRecording w;
     baseTextRef := baseTextRef w;
     speechRecognitionRef := speechRecognitionRef w;
     isSpeechRecognitionSupported := isSpeechRecognitionSupported w;
     recognitions := recognitions w; nextRecognition := nextRecognition w;
     micRequests := micRequests w ++ [(nextMicRequest w, req)];
     nextMicRequest := S (nextMicRequest w) |}.

Definition findRecognition (r : nat) (w : World) : option Recognition :=
  find (fun x => Nat.eqb (rid x) r) (recognitions w).

Definition updateRecognition (r : nat) (f : Recognition -> Recognition)
  (w : World) : World :=
  setRecognitions
    (map (fun x => if Nat.eqb (rid x) r then f x else x) (recognitions w)) w.

(** [recognition.lang = v] *)
Definition withLang (v : string) (x : Recognition) : Recognition :=
  {| rid := rid x; lang := v; started := started x;
     stopRequested := stopRequested x; boundLanguage := boundLanguage x |}.

(** [recognition.start()] on an object that is not started. *)
Definition asStarted (x : Recognition) : Recognition :=
  {| rid := rid x; lang := lang x; started := true; stopRequested := false;
     boundLanguage := boundLanguage x |}.

(** [recognition.stop()]: nothing for an object that is not started. *)
Definition asStopping (x : Recognition) : Recognition :=
  {| rid := rid x; lang := lang x; started := started x;
     stopRequested := started x; boundLanguage := boundLanguage x |}.

(** The [end] event. *)
Definition asEnded (x : Recognition) : Recognition :=
  {| rid := rid x; lang := lang x; started := false; stopRequested := false;
     boundLanguage := boundLanguage x |}.

Definition isStarted (r : nat) (w : World) : bool :=
  match findRecognition r w with
  | Some x => started x
  | None => false
  end.

Definition findMicRequest (op : nat) (w : World) : option MicRequest :=
  match find (fun e => Nat.eqb (fst e) op) (micRequests w) with
  | Some e => Some (snd e)
  | None => None
  end.

Definition settleMicRequest (op : nat) (w : World) : World :=
  setMicRequests
    (filter (fun e => negb (Nat.eqb (fst e) op)) (micRequests w)) w.

(** [transcript += event.results[i][0].transcript] for every result
    (ll.288-291). *)
Definition transcriptOf (firstAlternatives : list string) : string :=
  fold_left String.append firstAlternatives "".

(** The events of the rest of the component, a click on the record
    button, the answer to a request for the microphone, and the events
    of a recognition object. *)
Inductive WorldEvent : Type :=
| Component (ev : Event)
| ClickRecord                                                   (* l.481 *)
| UserMediaSettled (op : nat) (granted : bool)
| SpeechResult (recognition : nat) (firstAlternatives : list string)
| SpeechError (recognition : nat) (code : string)
| SpeechEnd (recognition : nat).

(** An event that leaves [baseTextRef] alone: all but a granted request
    for the microphone. *)
Definition keepsBase (ev : WorldEvent) : bool :=
  match ev with
  | UserMediaSettled _ true => false
  | _ => true
  end.

(** In a browser without the API nothing of the dictation exists. *)
Definition noRecognition (w : World) : Prop :=
  isSpeechRecognitionSupported w = false /\ isRecording w = false
  /\ speechRecognitionRef w = None /\ recognitions w = []
  /\ micRequests w = [].

Definition ridsBelow (w : World) : Prop :=
  forall x, In x (recognitions w) -> (rid x < nextRecognition w)%nat.

Section Texts.

Variable t : Language -> MicKey -> string.

(** A state setter of the rest of the component, and the render that
    follows. *)
Definition render (update : State -> State) (w : World) : World :=
  setApp (commit (app w) (update (app w))) w.

(** ll.235-260 *)
Definition handleToggleRecording (w : World) : World :=
  if negb (isSpeechRecognitionSupported w)
  then
    render (setError (Some (Literal (t (language (app w))
                                       micNotSupportedError)))) w
  else
    match speechRecognitionRef w with
    | None => w
    | Some recognition =>
        if isRecording w
        then w |> updateRecognition recognition asStopping
               |> setIsRecording false
        else
          getUserMedia
            {| atText := inputText (app w);
               atLanguage := language (app w);
               atRecognition := recognition |} w
    end.

(** The [catch] callback (ll.255-258). *)
Definition micDenied (req : MicRequest) (w : World) : World :=
  w |> render (setError (Some (Literal (t (atLanguage req)
                                          micPermissionError))))
    |> setIsRecording false.

(** The [then] callback (ll.248-254); when [start()] throws, the rest of
    it is skipped and the [catch] callback runs. *)
Definition micGranted (req : MicRequest) (w : World) : World :=
  let w1 :=
    w |> setBaseTextRef (atText req)
      |> updateRecognition (atRecognition req)
           (withLang (speechLangMap (atLanguage req))) in
  if isStarted (atRecognition req) w1
  then micDenied req w1
  else
    w1 |> updateRecognition (atRecognition req) asStarted
       |> setIsRecording true
       |> render (setError None).

(** ll.287-293 *)
Definition onresult (firstAlternatives : list string) (w : World) : World :=
  render
    (setInputText
       (String.append (baseTextRef w) (transcriptOf firstAlternatives))) w.

(** ll.295-302 *)
Definition onerror (x : Recognition) (code : string) (w : World) : World :=
  (if (code =? "not-allowed")%string
      || (code =? "service-not-allowed")%string
   then
     render (setError (Some (Literal (t (boundLanguage x)
                                        micPermissionError)))) w
   else w)
  |> setIsRecording false.

(** ll.304-306 *)
Definition onend (w : World) : World := setIsRecording false w.

(** ll.274-313 when [t] has changed: the cleanup of the last run, then
    the effect. *)
Definition recognitionEffect (w : World) : World :=
  if isSpeechRecognitionSupported w
  then
    let w1 :=
      match speechRecognitionRef w with
      | Some recognition => updateRecognition recognition asStopping w
      | None => w
      end in
    newRecognition (language (app w)) w1
  else w.

(** ll.315-319 *)
Definition langEffect (w : World) : World :=
  match speechRecognitionRef w with
  | Some recognition =>
      updateRecognition recognition
        (withLang (speechLangMap (language (app w)))) w
  | None => w
  end.

(** What happens to the component with dictation. *)
Definition sameLanguage (a b : Language) : bool :=
  match a, b with
  | en, en | ko, ko | es, es | fr, fr | ja, ja | zh, zh => true
  | _, _ => false
  end.

Definition handleWorld (ev : WorldEvent) (w : World) : option World :=
  match ev with
  | Component e =>
      match step e (app w) with
      | Some a =>
          let w1 := setApp a w in
          Some (if sameLanguage (language (app w)) (language a) then w1
                else w1 |> recognitionEffect |> langEffect)
      | None => None
      end
  | ClickRecord =>
      Some (if isLoading (app w) then w else handleToggleRecording w)
  | UserMediaSettled op granted =>
      match findMicRequest op w with
      | Some req =>
          let w1 := settleMicRequest op w in
          Some (if granted then micGranted req w1 else micDenied req w1)
      | None => None
      end
  | SpeechResult recognition firstAlternatives =>
      if isStarted recognition w
      then Some (onresult firstAlternatives w)
      else None
  | SpeechError recognition code =>
      match findRecognition recognition w with
      | Some x => if started x then Some (onerror x code w) else None
      | None => None
      end
  | SpeechEnd recognition =>
      if isStarted recognition w
      then Some (w |> updateRecognition recognition asEnded |> onend)
      else None
  end.

Fixpoint runWorld (evs : list WorldEvent) (w : World) : option World :=
  match evs with
  | [] => Some w
  | ev :: rest =>
      match handleWorld ev w with
      | Some w' => runWorld rest w'
      | None => None
      end
  end.

(** The mounted component: the effects of the first render have made the
    recognition object, if the browser has the API. *)
Definition initWorld (supported : bool) : World :=
  {| app := init; isRecording := false; baseTextRef := "";
     speechRecognitionRef := None;
     isSpeechRecognitionSupported := supported;
     recognitions := []; nextRecognition := 0;
     micRequests := []; nextMicRequest := 0 |}
  |> recognitionEffect |> langEffect.

Definition reachableWorld (supported : bool) (w : World) : Prop :=
  exists evs, runWorld evs (initWorld supported) = Some w.

Definition afterWorld (supported : bool) (evs : list WorldEvent) : World :=
  match runWorld evs (initWorld supported) with
  | Some w => w
  | None => initWorld supported
  end.

End Texts.

(** A table of texts for the runs below. *)
Definition keyNames (language : Language) (key : MicKey) : string :=
  match key with
  | micNotSupportedError => "micNotSupportedError"
  | micPermissionError => "micPermissionError"
  end.

(** The record button clicked twice before the browser has answered;
    then the first request is granted. *)
Definition clickedTwice : list WorldEvent :=
  [ClickRecord; ClickRecord; UserMediaSettled 0 true].

(** Dictation running. *)
Definition dictating : list WorldEvent :=
  [ClickRecord; UserMediaSettled 0 true].

End Dictation.

(** * Proofs *)

Arguments blank : simpl never.
Arguments JS.trim : simpl never.
Arguments JS.split_comma_1 : simpl never.
Arguments JS.opt_truthy : simpl never.
Arguments JS.str_truthy : simpl never.
Arguments buildRequest : simpl never.
Arguments analyzeContent_settle : simpl never.
Arguments pushHistory : simpl never.
Arguments sameDeps : simpl never.
Arguments Json.parse : simpl never.

Create HintDb app discriminated.
#[local] Hint Unfold handleAnalyze handleImageChange startScreenSharing
  stopScreenSharing handleRemoveImage analyzeContent await fireTimer
  runCallback analyzeFrame handleAnalyze_settle analyzeFrame_settle
  handleImageChange_settle startScreenSharing_settle settle addTimer
  clearTimer stopTracks findOp findTimer : app.
#[local] Hint Unfold commit attachVideo debounceEffect_cleanup
  debounceEffect clearEffect : app.

(** Case analysis on every test that a hypothesis still contains. *)
Ltac split_hyp E :=
  cbn in E;
  repeat match type of E with
  | context [if ?b then _ else _] => destruct b eqn:?; cbn in E
  | context [match ?x with _ => _ end] => destruct x eqn:?; cbn in E
  end; try discriminate E.

Ltac split_goal :=
  cbn; repeat match goal with
  | |- context [if ?b then _ else _] =>
      lazymatch b with
      | context [if _ then _ else _] => fail
      | context [match _ with _ => _ end] => fail
      | _ => destruct b eqn:?; cbn
      end
  | |- context [match ?x with _ => _ end] =>
      lazymatch x with
      | context [if _ then _ else _] => fail
      | context [match _ with _ => _ end] => fail
      | _ => destruct x eqn:?; cbn
      end
  end.

(** ** The history bound *)

Lemma slice_last_length {A} k (l : list A) :
  (List.length (JS.slice_last k l) <= k)%nat.
Proof. unfold JS.slice_last. rewrite length_skipn. lia. Qed.

Lemma pushHistory_length r h : (List.length (pushHistory r h) <= 15)%nat.
Proof. apply slice_last_length. Qed.

Lemma commit_hist (prev s : State) : histBounded s -> histBounded (commit prev s).
Proof.
  unfold histBounded. intros H. repeat autounfold with app.
  split_goal; cbn; auto with arith.
Qed.

(** ** The <video> element *)

Lemma commit_video (prev s : State) : videoSynced (commit prev s).
Proof.
  unfold videoSynced. repeat autounfold with app.
  split_goal; cbn; congruence.
Qed.

(** ** Timers *)

Ltac split4 := split; [|split; [|split]].

Lemma NoDup_map_filter {A B} (f : A -> B) p (l : list A) :
  NoDup (map f l) -> NoDup (map f (filter p l)).
Proof.
  induction l as [|a l IH]; cbn; auto.
  intros Hnd. inversion Hnd; subst. destruct (p a); cbn; auto.
  constructor; auto. intros Hin. apply in_map_iff in Hin.
  destruct Hin as (a' & E & Hin). apply filter_In in Hin.
  apply H1. rewrite <- E. apply in_map, Hin.
Qed.

Lemma timersOk_filter p ts n c :
  timersOk ts n c -> timersOk (filter p ts) n c.
Proof.
  intros (Hlt & Hnd & Hd & Hc). split4.
  - intros t Ht. apply filter_In in Ht. apply Hlt, Ht.
  - apply NoDup_map_filter, Hnd.
  - intros t Ht. apply filter_In in Ht. apply Hd, Ht.
  - apply Hc.
Qed.

(** Clearing the handle of the cleanup removes every debounce timeout. *)
Lemma cleanup_no_debounce ts n h :
  timersOk ts n (Some h) ->
  forall t, In t (filter (fun t => negb (TimerId_eqb (tid t) h)) ts) ->
    isDebounce t = false.
Proof.
  intros (_ & _ & Hd & _) t Ht. apply filter_In in Ht. destruct Ht as [Hin Ht].
  destruct (isDebounce t) eqn:E; auto.
  destruct (Hd t Hin E) as [E1 _]. inversion E1; subst.
  unfold TimerId_eqb in Ht. rewrite Pos.eqb_refl in Ht. discriminate.
Qed.

Lemma timersOk_cleanup ts n h :
  timersOk ts n (Some h) ->
  timersOk (filter (fun t => negb (TimerId_eqb (tid t) h)) ts) n None.
Proof.
  intros H. pose proof (cleanup_no_debounce H) as Hno.
  apply timersOk_filter with (p := fun t => negb (TimerId_eqb (tid t) h)) in H.
  destruct H as (Hlt & Hnd & Hd & Hc). split4; auto.
  - intros t Ht E. rewrite (Hno t Ht) in E. discriminate.
  - discriminate.
Qed.

Lemma timersOk_no_cleanup ts n :
  timersOk ts n None -> forall t, In t ts -> isDebounce t = false.
Proof.
  intros (_ & _ & Hd & _) t Ht. destruct (isDebounce t) eqn:E; auto.
  destruct (Hd t Ht E) as [E1 _]. discriminate.
Qed.

Lemma NoDup_tid_app ts n t :
  (forall t', In t' ts -> (tid t' < n)%positive) -> tid t = n ->
  NoDup (map tid ts) -> NoDup (map tid (ts ++ [t])).
Proof.
  intros Hlt E Hnd. rewrite map_app. cbn.
  apply NoDup_app; auto.
  - repeat constructor. intros [].
  - intros a Ha [Hb|[]]. apply in_map_iff in Ha. destruct Ha as (t' & E' & Ht').
    apply Hlt in Ht'. subst. lia.
Qed.

Lemma timersOk_add_debounce ts n d :
  timersOk ts n None ->
  timersOk (ts ++ [{| tid := n; due := d; every := None;
                      callback := CallAnalysisFn |}])
    (Pos.succ n) (Some n).
Proof.
  intros H. pose proof (timersOk_no_cleanup H) as Hno.
  destruct H as (Hlt & Hnd & Hd & Hc). split4.
  - intros t Ht. apply in_app_iff in Ht. destruct Ht as [Ht|[<-|[]]]; cbn.
    + apply Hlt in Ht. lia.
    + lia.
  - apply NoDup_tid_app with (n := n); auto.
  - intros t Ht E. apply in_app_iff in Ht. destruct Ht as [Ht|[<-|[]]]; cbn; auto.
    rewrite (Hno t Ht) in E. discriminate.
  - intros h E. inversion E; subst. lia.
Qed.

Lemma timersOk_add_interval ts n c d p :
  timersOk ts n c ->
  timersOk (ts ++ [{| tid := n; due := d; every := p;
                      callback := CallAnalysisFrameFn |}])
    (Pos.succ n) c.
Proof.
  intros (Hlt & Hnd & Hd & Hc). split4.
  - intros t Ht. apply in_app_iff in Ht. destruct Ht as [Ht|[<-|[]]]; cbn.
    + apply Hlt in Ht. lia.
    + lia.
  - apply NoDup_tid_app with (n := n); auto.
  - intros t Ht E. apply in_app_iff in Ht.
    destruct Ht as [Ht|[<-|[]]]; [apply Hd; auto|discriminate].
  - intros h E. apply Hc in E. lia.
Qed.

Lemma rearm_same h d t :
  tid (rearm h d t) = tid t /\ every (rearm h d t) = every t
  /\ callback (rearm h d t) = callback t.
Proof. unfold rearm. destruct (TimerId_eqb (tid t) h); cbn; auto. Qed.

Lemma timersOk_rearm ts n c h d :
  timersOk ts n c -> timersOk (map (rearm h d) ts) n c.
Proof.
  intros (Hlt & Hnd & Hd & Hc). split4.
  - intros t Ht. apply in_map_iff in Ht. destruct Ht as (t0 & <- & Ht0).
    destruct (rearm_same h d t0) as (-> & _). auto.
  - rewrite map_map. erewrite map_ext; [exact Hnd|]. intros t. apply rearm_same.
  - intros t Ht E. apply in_map_iff in Ht. destruct Ht as (t0 & <- & Ht0).
    destruct (rearm_same h d t0) as (E1 & E2 & E3).
    unfold isDebounce in E. rewrite E3 in E. rewrite E1, E2. apply Hd; auto.
  - apply Hc.
Qed.

Lemma commit_timers (prev s : State) :
  timersOk (timers s) (nextTimer s) (debounceCleanup s) ->
  timersOk (timers (commit prev s)) (nextTimer (commit prev s))
    (debounceCleanup (commit prev s)).
Proof.
  intros H. repeat autounfold with app.
  split_goal; cbn; auto.
  all: try apply timersOk_add_debounce.
  all: repeat match goal with
       | E : debounceCleanup _ = _ |- _ => rewrite ?E in *; revert E
       end.
  all: auto using timersOk_cleanup.
Qed.

(** ** Pending operations *)

Lemma inFlight_app f ps e :
  inFlight f (ps ++ [e]) = (inFlight f ps + Nat.b2n (isFlow f e))%nat.
Proof.
  unfold inFlight. rewrite filter_app, length_app. cbn.
  destruct (isFlow f e); reflexivity.
Qed.

Lemma filter_absent (op : nat) (ps : list (nat * Pending)) :
  ~ In op (map fst ps) ->
  filter (fun e => negb (Nat.eqb (fst e) op)) ps = ps.
Proof.
  induction ps as [|a ps IH]; cbn; auto. intros Hn.
  destruct (Nat.eqb_spec (fst a) op) as [E|E]; cbn.
  - exfalso. apply Hn. left. exact E.
  - f_equal. apply IH. intros Hin. apply Hn. right. exact Hin.
Qed.

(** Settling an operation removes exactly its entry. *)
Lemma inFlight_settle f ps op e :
  NoDup (map fst ps) ->
  find (fun e => Nat.eqb (fst e) op) ps = Some e ->
  (inFlight f (filter (fun e => negb (Nat.eqb (fst e) op)) ps)
   + Nat.b2n (isFlow f e) = inFlight f ps)%nat.
Proof.
  unfold inFlight. induction ps as [|a ps IH]; cbn; [discriminate|].
  intros Hnd Hf. inversion Hnd; subst.
  destruct (Nat.eqb_spec (fst a) op) as [E|E]; cbn.
  - inversion Hf; subst. rewrite filter_absent by assumption.
    destruct (isFlow f e); cbn; lia.
  - specialize (IH H2 Hf). destruct (isFlow f a); cbn; lia.
Qed.

Lemma pendingOk_await_other ps n l f p :
  (forall flow, p <> AwaitGenerateContent flow) ->
  pendingOk ps n l f -> pendingOk (ps ++ [(n, p)]) (S n) l f.
Proof.
  intros Hp (Hlt & Hnd & Hm & Hf). split4.
  - intros e He. apply in_app_iff in He. destruct He as [He|[<-|[]]]; cbn.
    + apply Hlt in He. lia.
    + lia.
  - rewrite map_app. cbn. apply NoDup_app; auto.
    + repeat constructor. intros [].
    + intros a Ha [<-|[]]. apply in_map_iff in Ha.
      destruct Ha as (e & E & He). apply Hlt in He. lia.
  - rewrite inFlight_app, Hm. unfold isFlow. cbn.
    destruct p as [[]| |]; cbn; try lia; exfalso; eapply Hp; reflexivity.
  - rewrite inFlight_app, Hf. unfold isFlow. cbn.
    destruct p as [[]| |]; cbn; try lia; exfalso; eapply Hp; reflexivity.
Qed.

Lemma pendingOk_await_manual ps n f :
  pendingOk ps n false f ->
  pendingOk (ps ++ [(n, AwaitGenerateContent Manual)]) (S n) true f.
Proof.
  intros (Hlt & Hnd & Hm & Hf). split4.
  - intros e He. apply in_app_iff in He. destruct He as [He|[<-|[]]]; cbn.
    + apply Hlt in He. lia.
    + lia.
  - rewrite map_app. cbn. apply NoDup_app; auto.
    + repeat constructor. intros [].
    + intros a Ha [<-|[]]. apply in_map_iff in Ha.
      destruct Ha as (e & E & He). apply Hlt in He. lia.
  - rewrite inFlight_app, Hm. reflexivity.
  - rewrite inFlight_app, Hf. cbn. lia.
Qed.

Lemma pendingOk_await_frame ps n l :
  pendingOk ps n l false ->
  pendingOk (ps ++ [(n, AwaitGenerateContent Frame)]) (S n) l true.
Proof.
  intros (Hlt & Hnd & Hm & Hf). split4.
  - intros e He. apply in_app_iff in He. destruct He as [He|[<-|[]]]; cbn.
    + apply Hlt in He. lia.
    + lia.
  - rewrite map_app. cbn. apply NoDup_app; auto.
    + repeat constructor. intros [].
    + intros a Ha [<-|[]]. apply in_map_iff in Ha.
      destruct Ha as (e & E & He). apply Hlt in He. lia.
  - rewrite inFlight_app, Hm. cbn. lia.
  - rewrite inFlight_app, Hf. reflexivity.
Qed.

Lemma pendingOk_settle ps n l f op e :
  pendingOk ps n l f ->
  find (fun e => Nat.eqb (fst e) op) ps = Some e ->
  pendingOk (filter (fun e => negb (Nat.eqb (fst e) op)) ps) n
    (l && negb (isFlow Manual e)) (f && negb (isFlow Frame e)).
Proof.
  intros (Hlt & Hnd & Hm & Hf) Hfind. split4.
  - intros a Ha. apply filter_In in Ha. apply Hlt, Ha.
  - apply NoDup_map_filter, Hnd.
  - pose proof (@inFlight_settle Manual _ _ _ Hnd Hfind) as E. rewrite Hm in E.
    destruct l, (isFlow Manual e); cbn in *; lia.
  - pose proof (@inFlight_settle Frame _ _ _ Hnd Hfind) as E. rewrite Hf in E.
    destruct f, (isFlow Frame e); cbn in *; lia.
Qed.

Lemma pendingOk_settle_manual ps n l f op e :
  pendingOk ps n l f ->
  find (fun e => Nat.eqb (fst e) op) ps = Some e ->
  snd e = AwaitGenerateContent Manual ->
  pendingOk (filter (fun e => negb (Nat.eqb (fst e) op)) ps) n false f.
Proof.
  intros H Hfind E. apply pendingOk_settle with (op := op) (e := e) in H; auto.
  unfold isFlow in H. rewrite E in H. cbn in H.
  rewrite andb_false_r, andb_true_r in H. exact H.
Qed.

Lemma pendingOk_settle_frame ps n l f op e :
  pendingOk ps n l f ->
  find (fun e => Nat.eqb (fst e) op) ps = Some e ->
  snd e = AwaitGenerateContent Frame ->
  pendingOk (filter (fun e => negb (Nat.eqb (fst e) op)) ps) n l false.
Proof.
  intros H Hfind E. apply pendingOk_settle with (op := op) (e := e) in H; auto.
  unfold isFlow in H. rewrite E in H. cbn in H.
  rewrite andb_false_r, andb_true_r in H. exact H.
Qed.

Lemma pendingOk_settle_other ps n l f op e :
  pendingOk ps n l f ->
  find (fun e => Nat.eqb (fst e) op) ps = Some e ->
  (forall flow, snd e <> AwaitGenerateContent flow) ->
  pendingOk (filter (fun e => negb (Nat.eqb (fst e) op)) ps) n l f.
Proof.
  intros H Hfind E. apply pendingOk_settle with (op := op) (e := e) in H; auto.
  unfold isFlow in H.
  destruct (snd e) as [flow| |]; [exfalso; eapply E; reflexivity| |];
    cbn in H; rewrite !andb_true_r in H; exact H.
Qed.

(** Rewrite with the equations that case analysis left in the context. *)
Ltac bool_hyps :=
  repeat match goal with
  | H : _ || _ = false |- _ => apply orb_false_elim in H; destruct H
  | H : _ && _ = true |- _ => apply andb_prop in H; destruct H
  | H : negb _ = true |- _ => apply negb_true_iff in H
  | H : negb _ = false |- _ => apply negb_false_iff in H
  end.

Ltac rew_eqs :=
  cbn in *; bool_hyps;
  repeat match goal with
  | E : ?l = ?r |- _ =>
      lazymatch r with
      | true => idtac | false => idtac | None => idtac | Some _ => idtac
      end;
      try rewrite E in *; revert E
  end; intros.

Lemma commit_pending (prev s : State) :
  pending (commit prev s) = pending s /\ nextOp (commit prev s) = nextOp s
  /\ isLoading (commit prev s) = isLoading s
  /\ isAnalyzingFrameRef (commit prev s) = isAnalyzingFrameRef s
  /\ requests (commit prev s) = requests s.
Proof.
  repeat autounfold with app. split_goal; auto.
Qed.

Lemma findOp_find op (s : State) p :
  findOp op s = Some p ->
  exists e, find (fun e => Nat.eqb (fst e) op) (pending s) = Some e
            /\ snd e = p.
Proof.
  unfold findOp. destruct (find _ _) as [e|]; [|discriminate].
  intros E. inversion E. eauto.
Qed.

(** ** Preservation through [handle]

    A property of states that every handler keeps is kept by every event.
    The case analysis on the event is done once, here. *)

Section Preservation.

Variable P : State -> Prop.

Hypothesis P_setInputText : forall v s, P s -> P (setInputText v s).
Hypothesis P_setLanguage : forall v s, P s -> P (setLanguage v s).
Hypothesis P_setSocialTopic : forall v s, P s -> P (setSocialTopic v s).
Hypothesis P_setFeedbackState : forall v s, P s -> P (setFeedbackState v s).
Hypothesis P_setOnended : forall v s, P s -> P (setOnended v s).
Hypothesis P_setNow : forall v s, P s -> P (setNow v s).
Hypothesis P_setTimers_filter :
  forall p s, P s -> P (setTimers (filter p (timers s)) s).
Hypothesis P_setTimers_rearm :
  forall h d s, P s -> P (setTimers (map (rearm h d) (timers s)) s).
Hypothesis P_handleAnalyze : forall s, P s -> P (handleAnalyze s).
Hypothesis P_analyzeFrame : forall cap s, P s -> P (analyzeFrame cap s).
Hypothesis P_handleRemoveImage : forall s, P s -> P (handleRemoveImage s).
Hypothesis P_stopScreenSharing : forall s, P s -> P (stopScreenSharing s).
Hypothesis P_startScreenSharing : forall s, P s -> P (startScreenSharing s).
Hypothesis P_handleImageChange :
  forall f s, P s -> P (handleImageChange f s).
Hypothesis P_handleAnalyze_settle :
  forall r op e (s : State), P s ->
    find (fun e => Nat.eqb (fst e) op) (pending s) = Some e ->
    snd e = AwaitGenerateContent Manual ->
    P (handleAnalyze_settle r (settle op s)).
Hypothesis P_analyzeFrame_settle :
  forall r op e (s : State), P s ->
    find (fun e => Nat.eqb (fst e) op) (pending s) = Some e ->
    snd e = AwaitGenerateContent Frame ->
    P (analyzeFrame_settle r (settle op s)).
Hypothesis P_handleImageChange_settle :
  forall t l r op e (s : State), P s ->
    find (fun e => Nat.eqb (fst e) op) (pending s) = Some e ->
    snd e = AwaitFileReader t l ->
    P (handleImageChange_settle t l r (settle op s)).
Hypothesis P_startScreenSharing_settle :
  forall r op e (s : State), P s ->
    find (fun e => Nat.eqb (fst e) op) (pending s) = Some e ->
    snd e = AwaitGetDisplayMedia ->
    P (startScreenSharing_settle r (settle op s)).

Lemma fireTimer_preserves h cap s s' :
  fireTimer h cap s = Some s' -> P s -> P s'.
Proof.
  unfold fireTimer. intros E H.
  destruct (findTimer h s) as [t|]; [|discriminate].
  destruct (due t <=? now s)%Z; [|discriminate].
  inversion E; subst. clear E. unfold clearTimer.
  destruct (every t); destruct (callback t); cbn; auto.
Qed.

Lemma handle_preserves ev (s s' : State) :
  handle ev s = Some s' -> P s -> P s'.
Proof.
  intros E H.
  destruct ev; cbn in E.
  - inversion E; subst; auto.
  - inversion E; subst; auto.
  - inversion E; subst. destruct (isLoading s); auto.
  - inversion E; subst. destruct (analyzeDisabled s); auto.
  - inversion E; subst. destruct (_ && _); auto.
  - inversion E; subst. destruct (isLoading s); auto.
    destruct (isScreenSharing s); auto.
  - inversion E; subst. auto.
  - inversion E; subst. destruct (analysisResult s); auto.
  - destruct (_ && _); [|discriminate]. inversion E; subst. auto.
  - destruct (0 <=? dt)%Z; [|discriminate]. inversion E; subst. auto.
  - eapply fireTimer_preserves; eauto.
  - destruct (findOp op s) as [p|] eqn:Hf; [|discriminate].
    apply findOp_find in Hf. destruct Hf as (e & Hf & <-).
    destruct (snd e) as [[]| |] eqn:Hs; try discriminate; inversion E; subst;
      eauto.
  - destruct (findOp op s) as [p|] eqn:Hf; [|discriminate].
    apply findOp_find in Hf. destruct Hf as (e & Hf & <-).
    destruct (snd e) as [[]| |] eqn:Hs; try discriminate; inversion E; subst;
      eauto.
  - destruct (findOp op s) as [p|] eqn:Hf; [|discriminate].
    apply findOp_find in Hf. destruct Hf as (e & Hf & <-).
    destruct (snd e) as [[]| |] eqn:Hs; try discriminate; inversion E; subst;
      eauto.
Qed.

End Preservation.

(** Handlers proved by unfolding them and following their tests. *)
Ltac by_cases :=
  intros; repeat autounfold with app; split_goal; auto.

Lemma handle_hist ev (s s' : State) :
  handle ev s = Some s' -> histBounded s -> histBounded s'.
Proof.
  apply handle_preserves; unfold histBounded; try by_cases;
    cbn; auto using pushHistory_length.
Qed.

Lemma handle_timers ev (s s' : State) :
  handle ev s = Some s' -> timersInv s -> timersInv s'.
Proof.
  apply handle_preserves; unfold timersInv; try by_cases;
    cbn; auto using timersOk_filter, timersOk_rearm, timersOk_add_interval.
Qed.

Lemma handleAnalyze_pending s : pendingInv s -> pendingInv (handleAnalyze s).
Proof.
  unfold pendingInv, handleAnalyze. intros H.
  destruct (_ || isLoading s) eqn:E; auto.
  apply orb_false_elim in E. destruct E as [_ E]. rewrite E in H.
  cbn. apply pendingOk_await_manual, H.
Qed.

Lemma analyzeFrame_pending cap s :
  pendingInv s -> pendingInv (analyzeFrame cap s).
Proof.
  unfold pendingInv, analyzeFrame.
  destruct (isAnalyzingFrameRef s) eqn:E; intros H; [rewrite E; exact H|].
  destruct (videoRef s); [|rewrite E; exact H].
  destruct (negb (hasContext cap)); cbn; auto.
  apply pendingOk_await_frame, H.
Qed.

Lemma stopScreenSharing_pending s :
  pendingInv s -> pendingInv (stopScreenSharing s).
Proof.
  unfold pendingInv. repeat autounfold with app. intros H. split_goal; auto.
Qed.

Lemma handleAnalyze_settle_pending r op e (s : State) :
  pendingInv s ->
  find (fun e => Nat.eqb (fst e) op) (pending s) = Some e ->
  snd e = AwaitGenerateContent Manual ->
  pendingInv (handleAnalyze_settle r (settle op s)).
Proof.
  unfold pendingInv. intros H Hf E.
  unfold handleAnalyze_settle, settle. destruct r; cbn;
    eapply pendingOk_settle_manual; eauto.
Qed.

Lemma analyzeFrame_settle_pending r op e (s : State) :
  pendingInv s ->
  find (fun e => Nat.eqb (fst e) op) (pending s) = Some e ->
  snd e = AwaitGenerateContent Frame ->
  pendingInv (analyzeFrame_settle r (settle op s)).
Proof.
  unfold pendingInv. intros H Hf E.
  repeat autounfold with app. split_goal;
    eapply pendingOk_settle_frame; eauto.
Qed.

Lemma settle_other_pending op e (s : State) :
  pendingInv s ->
  find (fun e => Nat.eqb (fst e) op) (pending s) = Some e ->
  (forall flow, snd e <> AwaitGenerateContent flow) ->
  pendingInv (settle op s).
Proof.
  unfold pendingInv. intros H Hf E. cbn.
  eapply pendingOk_settle_other; eauto.
Qed.

Lemma handleImageChange_settle_pending t l r s :
  pendingInv s -> pendingInv (handleImageChange_settle t l r s).
Proof. unfold pendingInv, handleImageChange_settle. destruct r; auto. Qed.

Lemma startScreenSharing_settle_pending r s :
  pendingInv s -> pendingInv (startScreenSharing_settle r s).
Proof.
  unfold pendingInv. repeat autounfold with app. intros H. split_goal; auto.
Qed.

Lemma handleImageChange_pending f s :
  pendingInv s -> pendingInv (handleImageChange f s).
Proof.
  unfold handleImageChange. intros H. destruct f as [file|]; auto.
  destruct (_ <? _)%N; auto.
  apply stopScreenSharing_pending in H. revert H.
  generalize (stopScreenSharing s). intros s0 H. unfold pendingInv in *. cbn.
  apply pendingOk_await_other; [discriminate|exact H].
Qed.

Lemma startScreenSharing_pending s :
  pendingInv s -> pendingInv (startScreenSharing s).
Proof.
  unfold pendingInv, startScreenSharing. intros H. cbn.
  apply pendingOk_await_other; [discriminate|exact H].
Qed.

Lemma handleRemoveImage_pending s :
  pendingInv s -> pendingInv (handleRemoveImage s).
Proof. auto. Qed.

Lemma handle_pending ev (s s' : State) :
  handle ev s = Some s' -> pendingInv s -> pendingInv s'.
Proof.
  apply handle_preserves;
    eauto using handleAnalyze_pending, analyzeFrame_pending,
      stopScreenSharing_pending, startScreenSharing_pending,
      handleImageChange_pending, handleAnalyze_settle_pending,
      analyzeFrame_settle_pending.
  - intros. apply handleImageChange_settle_pending.
    eapply settle_other_pending; eauto. intros flow. rewrite H1. discriminate.
  - intros. apply startScreenSharing_settle_pending.
    eapply settle_other_pending; eauto. intros flow. rewrite H1. discriminate.
Qed.

(** ** Intervals *)

Lemma intervalsOk_filter p ts : intervalsOk ts -> intervalsOk (filter p ts).
Proof. intros H t Ht. apply filter_In in Ht. apply H, Ht. Qed.

Lemma intervalsOk_rearm h d ts :
  intervalsOk ts -> intervalsOk (map (rearm h d) ts).
Proof.
  intros H t Ht E. apply in_map_iff in Ht. destruct Ht as (t0 & <- & Ht0).
  destruct (rearm_same h d t0) as (_ & E2 & E3).
  unfold isDebounce in E. rewrite E3 in E. rewrite E2. apply H; auto.
Qed.

Lemma intervalsOk_add ts t :
  intervalsOk ts -> (isDebounce t = false -> every t = Some 5000%Z) ->
  intervalsOk (ts ++ [t]).
Proof.
  intros H Ht t' Hin. apply in_app_iff in Hin.
  destruct Hin as [Hin|[<-|[]]]; auto.
Qed.

Lemma commit_intervals (prev s : State) :
  intervalsOk (timers s) -> intervalsOk (timers (commit prev s)).
Proof.
  intros H. repeat autounfold with app.
  split_goal; cbn; auto using intervalsOk_filter;
    apply intervalsOk_add; auto using intervalsOk_filter; discriminate.
Qed.

Lemma handle_intervals ev (s s' : State) :
  handle ev s = Some s' -> intervalsOk (timers s) -> intervalsOk (timers s').
Proof.
  apply handle_preserves with (P := fun s => intervalsOk (timers s));
    try by_cases;
    cbn; auto using intervalsOk_filter, intervalsOk_rearm;
    apply intervalsOk_add; auto.
Qed.

Lemma handedOut_succ r n : handedOut r n -> handedOut r (Pos.succ n).
Proof. destruct r; cbn; auto. lia. Qed.

Lemma handedOut_new n : handedOut (Some n) (Pos.succ n).
Proof. cbn. lia. Qed.

Lemma commit_interval_ref (prev s : State) :
  intervalRefOk s -> intervalRefOk (commit prev s).
Proof.
  unfold intervalRefOk. by_cases; cbn; auto using handedOut_succ;
    repeat match goal with
           | E : analysisIntervalRef _ = _ |- _ => rewrite ?E in *; revert E
           end; intros; cbn; auto using handedOut_succ.
Qed.

Lemma handle_interval_ref ev (s s' : State) :
  handle ev s = Some s' -> intervalRefOk s -> intervalRefOk s'.
Proof.
  apply handle_preserves; unfold intervalRefOk; try by_cases; cbn;
    auto using handedOut_succ, handedOut_new;
    repeat match goal with
           | E : analysisIntervalRef _ = _ |- _ => rewrite ?E in *; revert E
           end; intros; cbn; auto using handedOut_succ, handedOut_new;
    lia.
Qed.

(** ** Every reachable state satisfies the invariants *)

Lemma init_inv : Inv init.
Proof.
  split.
  - reflexivity.
  - unfold histBounded. cbn. lia.
  - cbn. split4; cbn; try tauto; try constructor. discriminate.
  - intros t [].
  - exact I.
  - cbn. split4; cbn; try tauto; try constructor.
Qed.

Lemma step_inv ev (s s' : State) : step ev s = Some s' -> Inv s -> Inv s'.
Proof.
  unfold step. destruct (handle ev s) as [s1|] eqn:E; [|discriminate].
  intros E1 [Hv Hh Ht Hi Hr Hp]. inversion E1; subst. clear E1. split.
  - apply commit_video.
  - apply commit_hist. eapply handle_hist; eauto.
  - apply commit_timers. eapply handle_timers; eauto.
  - apply commit_intervals. eapply handle_intervals; eauto.
  - apply commit_interval_ref. eapply handle_interval_ref; eauto.
  - pose proof (@handle_pending _ _ _ E Hp) as H. unfold pendingInv in H.
    destruct (commit_pending s s1) as (-> & -> & -> & -> & _). exact H.
Qed.

Lemma run_inv evs : forall s s', run evs s = Some s' -> Inv s -> Inv s'.
Proof.
  induction evs as [|ev evs IH]; cbn; intros s s' E H.
  - inversion E; subst; exact H.
  - destruct (step ev s) as [s1|] eqn:E1; [|discriminate].
    eapply IH; eauto using step_inv.
Qed.

Lemma reachable_inv s : reachable s -> Inv s.
Proof. intros [evs E]. eapply run_inv; eauto using init_inv. Qed.

Lemma reachable_init : reachable init.
Proof. exists []. reflexivity. Qed.

Lemma run_app evs1 evs2 s :
  run (evs1 ++ evs2) s =
  match run evs1 s with Some s1 => run evs2 s1 | None => None end.
Proof.
  revert s. induction evs1 as [|ev evs1 IH]; cbn; intros s; auto.
  destruct (step ev s); auto.
Qed.

Lemma reachable_run evs s s' :
  reachable s -> run evs s = Some s' -> reachable s'.
Proof.
  intros [evs0 E0] E. exists (evs0 ++ evs). rewrite run_app, E0. exact E.
Qed.

Lemma reachable_step ev s s' :
  reachable s -> step ev s = Some s' -> reachable s'.
Proof.
  intros H E. apply reachable_run with (evs := [ev]) (s := s); auto.
  cbn. rewrite E. reflexivity.
Qed.

(** ** Rendering without a changed dependency *)

Lemma opt_string_eqb_refl o : opt_string_eqb o o = true.
Proof. destruct o; cbn; auto using String.eqb_refl. Qed.

Lemma sameDeps_eq (a b : State) :
  inputText a = inputText b -> imageBase64 a = imageBase64 b ->
  isScreenSharing a = isScreenSharing b -> sameDeps a b = true.
Proof.
  unfold sameDeps. intros -> -> ->.
  rewrite String.eqb_refl, opt_string_eqb_refl, Bool.eqb_reflx. reflexivity.
Qed.

Lemma attachVideo_synced s : videoSynced s -> attachVideo s = s.
Proof.
  unfold videoSynced, attachVideo. intros H.
  destruct (isScreenSharing s), (videoRef s) eqn:E; try discriminate; auto.
  destruct s as [u r b]. destruct r. cbn in *. subst. reflexivity.
Qed.

Lemma attachVideo_ui s : ui (attachVideo s) = ui s.
Proof.
  unfold attachVideo.
  destruct (isScreenSharing s); [destruct (videoRef s)|]; reflexivity.
Qed.

(** A render after which no dependency differs only mounts or unmounts
    the <video> element. *)
Lemma commit_same (prev s : State) :
  inputText prev = inputText s -> imageBase64 prev = imageBase64 s ->
  isScreenSharing prev = isScreenSharing s ->
  commit prev s = attachVideo s.
Proof.
  intros H1 H2 H3. unfold commit. cbv zeta.
  rewrite sameDeps_eq; auto; rewrite attachVideo_ui; assumption.
Qed.

Lemma commit_same_synced (prev s : State) :
  inputText prev = inputText s -> imageBase64 prev = imageBase64 s ->
  isScreenSharing prev = isScreenSharing s ->
  videoRef prev = videoRef s -> videoSynced prev ->
  commit prev s = s.
Proof.
  intros H1 H2 H3 H4 H5. rewrite commit_same; auto.
  apply attachVideo_synced. unfold videoSynced in *.
  rewrite <- H3, <- H4. exact H5.
Qed.

(** ** [JSON.parse]: the fuel is enough

    The parser recurses on a fuel counter. Whatever a run with some fuel
    accepts, the fuel that [Json.parse] provides accepts as well, so
    [Json.parse] rejects a text only for its syntax. *)

Module JsonFuel.

Import Json.

Lemma skip_ws_length l : (List.length (skip_ws l) <= List.length l)%nat.
Proof.
  induction l as [|c l IH]; cbn; auto.
  destruct (is_ws c); cbn; lia.
Qed.

Lemma strip_length p : forall l r,
  strip p l = Some r -> (List.length r <= List.length l)%nat.
Proof.
  induction p as [|a p IH]; cbn; intros l r E.
  - inversion E; subst; lia.
  - destruct l as [|b l]; [discriminate|].
    destruct (a =? b)%N; [|discriminate]. apply IH in E. cbn. lia.
Qed.

Lemma digits_length l : forall acc count,
  (List.length (snd (digits l acc count)) <= List.length l)%nat.
Proof.
  induction l as [|c l IH]; cbn; intros acc count; auto.
  destruct (is_digit c); cbn; [|lia].
  eapply Nat.le_trans; [apply IH|lia].
Qed.

Lemma string_body_length_aux n : forall l s r,
  (List.length l <= n)%nat -> string_body l = Some (s, r) ->
  (List.length r <= List.length l)%nat.
Proof.
  induction n as [|n IH]; intros l s r Hn E.
  - destruct l; [discriminate|cbn in Hn; lia].
  - destruct l as [|c l]; [discriminate|]. cbn in E, Hn.
    assert (IH' : forall l' s r, (List.length l' <= List.length l)%nat ->
              string_body l' = Some (s, r) ->
              (List.length r <= List.length l')%nat).
    { intros l' s' r' Hl. apply IH. lia. }
    repeat match type of E with
           | context [if ?b then _ else _] => destruct b
           | context [match string_body ?x with _ => _ end] =>
               let H := fresh "Hb" in
               destruct (string_body x) as [[? ?]|] eqn:H;
               [apply IH' in H; [|cbn; lia]|]
           | context [match ?x with _ => _ end] => destruct x
           end; try discriminate; inversion E; subst; cbn in *; lia.
Qed.

Lemma string_body_length l s r :
  string_body l = Some (s, r) -> (List.length r <= List.length l)%nat.
Proof. apply string_body_length_aux with (n := List.length l). lia. Qed.

Ltac invert_pairs :=
  repeat match goal with
         | H : (_, _) = (_, _) |- _ => inversion H; clear H; subst
         | H : Some _ = Some _ |- _ => inversion H; clear H; subst
         | H : _ :: _ = _ :: _ |- _ => inversion H; clear H; subst
         end.

(** Case analysis on the innermost tests of a hypothesis. *)
Ltac inner_cases E :=
  repeat match type of E with
         | context [digits ?x ?a ?c] =>
             let H := fresh "Hd" in
             pose proof (digits_length x a c) as H;
             destruct (digits x a c) as [[? ?] ?]; cbn [snd] in H
         | context [match ?x with _ => _ end] =>
             lazymatch x with
             | context [match _ with _ => _ end] => fail
             | _ => destruct x eqn:?
             end
         end.

Lemma number_length l m e r :
  number l = Some (m, e, r) -> (List.length r <= List.length l)%nat.
Proof.
  unfold number. intros E.
  inner_cases E; try discriminate; invert_pairs; cbn in *; lia.
Qed.

(** What the equations left by the case analysis say about lengths. *)
Ltac length_facts :=
  repeat match goal with
         | H : skip_ws ?l = _ |- _ =>
             lazymatch goal with
             | _ : shorter (skip_ws l) l |- _ => fail
             | _ => assert (shorter (skip_ws l) l) by apply skip_ws_length
             end
         | H : string_body ?l = Some (_, ?r) |- _ =>
             lazymatch goal with
             | _ : shorter r l |- _ => fail
             | _ => assert (shorter r l) by (eapply string_body_length; eauto)
             end
         | H : strip ?p ?l = Some ?r |- _ =>
             lazymatch goal with
             | _ : shorter r l |- _ => fail
             | _ => assert (shorter r l) by (eapply strip_length; eauto)
             end
         | H : number ?l = Some (_, _, ?r) |- _ =>
             lazymatch goal with
             | _ : shorter r l |- _ => fail
             | _ => assert (shorter r l) by (eapply number_length; eauto)
             end
         end.

Ltac use_lengths :=
  unfold shorter, enough in *;
  repeat match goal with
         | H : skip_ws ?l = _,
           H' : (List.length (skip_ws ?l) <= _)%nat |- _ => rewrite H in H'
         end;
  cbn [List.length] in *; lia.

Ltac rewrite_tests :=
  repeat match goal with
         | H : ?x = _ |- context [?x] => rewrite H
         end.

Lemma fuel_enough m :
  (forall l v rest, parse_value m l = Some (v, rest) ->
     shorter rest l
     /\ forall k, enough l rest k -> parse_value k l = Some (v, rest))
  /\ (forall l acc v rest, parse_elements m l acc = Some (v, rest) ->
        shorter rest l
        /\ forall k, enough l rest k ->
             parse_elements k l acc = Some (v, rest))
  /\ (forall l acc v rest, parse_members m l acc = Some (v, rest) ->
        shorter rest l
        /\ forall k, enough l rest k ->
             parse_members k l acc = Some (v, rest)).
Proof.
  induction m as [|m (IHv & IHe & IHm)].
  - repeat split; intros; discriminate.
  -     split; [|split];
    intros; match goal with E : _ = Some _ |- _ =>
           cbn [parse_value parse_elements parse_members] in E;
           repeat match type of E with
             | context [parse_value m ?a] =>
                 let H := fresh "Hv" in
                 destruct (parse_value m a) as [[? ?]|] eqn:H;
                 [apply IHv in H; destruct H as [? ?]|]
             | context [parse_members m ?a ?b] =>
                 let H := fresh "Hm" in
                 destruct (parse_members m a b) as [[? ?]|] eqn:H;
                 [apply IHm in H; destruct H as [? ?]|]
             | context [parse_elements m ?a ?b] =>
                 let H := fresh "He" in
                 destruct (parse_elements m a b) as [[? ?]|] eqn:H;
                 [apply IHe in H; destruct H as [? ?]|]
             | context [match ?x with _ => _ end] =>
                 lazymatch x with
                 | context [match _ with _ => _ end] => fail
                 | _ => destruct x eqn:?
                 end
             end; try discriminate E
         end.
    all: invert_pairs; length_facts.
    all: split; [use_lengths|].
    all: intros k Hk; destruct k as [|k]; [unfold enough in Hk; lia|].
    all: cbn [parse_value parse_elements parse_members]; rewrite_tests.
    all: repeat match goal with
           | H : forall k, enough ?u ?r k -> ?f k ?u = _
             |- context [?f ?k' ?u] => rewrite (H k') by use_lengths
           | H : forall k, enough ?u ?r k -> ?f k ?u ?a = _
             |- context [?f ?k' ?u ?a] => rewrite (H k') by use_lengths
           end.
    all: rewrite_tests.
    all: try reflexivity.
    all: match goal with
         | H : forall k, enough _ _ k -> _ |- _ => apply H; use_lengths
         end.
Qed.

(** [Json.parse] accepts whatever the grammar accepts with any fuel. *)
Theorem parse_fuel_adequate (text : string) m v rest :
  parse_value m (JS.units_of_string text) = Some (v, rest) ->
  skip_ws rest = [] ->
  Json.parse text = Some v.
Proof.
  intros E Hr. unfold Json.parse.
  destruct (fuel_enough m) as (Hv & _).
  destruct (Hv _ _ _ E) as [Hs Hk].
  rewrite Hk, Hr; [reflexivity|].
  unfold enough, shorter in *. lia.
Qed.

End JsonFuel.

(** ** [JSON.parse] accepts every JSON text

    [Json.print] writes a value as a JSON text; [JSON.parse] reads that
    text back as the same value, whatever the value is. *)

Module JsonText.

Import JS Json.

(** What may follow a number: nothing, or a unit that does not continue
    it. *)
Definition ends_number (rest : units) : bool :=
  match rest with
  | [] => true
  | c :: _ => negb (is_digit c || (c =? 46) || (c =? 101) || (c =? 69))%N
  end.

(** What may follow a run of digits. *)
Definition ends_digits (rest : units) : bool :=
  match rest with
  | [] => true
  | c :: _ => negb (is_digit c)
  end.

Lemma ends_number_digits rest :
  ends_number rest = true -> ends_digits rest = true.
Proof.
  destruct rest as [|c rest]; cbn; [reflexivity|].
  destruct (is_digit c); cbn; [discriminate|reflexivity].
Qed.

Lemma digits_stop rest a c :
  ends_digits rest = true -> digits rest a c = (a, c, rest).
Proof.
  destruct rest as [|d rest]; cbn; [reflexivity|].
  destruct (is_digit d); cbn; [discriminate|reflexivity].
Qed.

Lemma is_digit_decimal d : (d < 10)%N -> is_digit (48 + d) = true.
Proof.
  intros H. unfold is_digit. apply andb_true_iff. split; apply N.leb_le; lia.
Qed.

Lemma decimal_from_S fuel n acc :
  decimal_from (S fuel) n acc
  = if (n <? 10)%N then (48 + n mod 10)%N :: acc
    else decimal_from fuel (n / 10)%N ((48 + n mod 10)%N :: acc).
Proof. reflexivity. Qed.

Lemma digits_cons c r acc count :
  digits (c :: r) acc count
  = if is_digit c then digits r (10 * acc + Z.of_N (c - 48))%Z (S count)
    else (acc, count, c :: r).
Proof. reflexivity. Qed.

Lemma digits_one d l a c :
  (d < 10)%N ->
  digits ((48 + d)%N :: l) a c = digits l (a * 10 + Z.of_N d)%Z (S c).
Proof.
  intros H. rewrite digits_cons, is_digit_decimal by exact H.
  f_equal. replace (48 + d - 48)%N with d by lia. lia.
Qed.

Lemma tenth_bound n fuel :
  (n < 2 ^ N.of_nat (S (S fuel)))%N -> (n / 10 < 2 ^ N.of_nat (S fuel))%N.
Proof.
  intros Hn. apply N.Div0.div_lt_upper_bound.
  rewrite (Nat2N.inj_succ (S fuel)), N.pow_succ_r' in Hn.
  eapply N.lt_le_trans; [exact Hn|].
  apply N.mul_le_mono_r. lia.
Qed.

(** Reading the digits that [decimal_from] wrote adds the number to the
    accumulator. *)
Lemma digits_decimal_from fuel : forall n acc,
  (n < 2 ^ N.of_nat (S fuel))%N ->
  exists k, forall rest a c,
    digits (decimal_from (S fuel) n acc ++ rest) a c
    = digits (acc ++ rest) (a * 10 ^ Z.of_nat (S k) + Z.of_N n)%Z
        (c + S k)%nat.
Proof.
  assert (Hsmall : forall n acc, (n < 10)%N ->
            forall rest a c,
              digits (((48 + n mod 10)%N :: acc) ++ rest) a c
              = digits (acc ++ rest) (a * 10 ^ Z.of_nat 1 + Z.of_N n)%Z
                  (c + 1)%nat).
  { intros n acc H10 rest a c. rewrite N.mod_small by exact H10.
    rewrite <- app_comm_cons, digits_one by exact H10.
    change (Z.of_nat 1) with 1%Z. rewrite Z.pow_1_r.
    replace (c + 1)%nat with (S c) by lia. reflexivity. }
  induction fuel as [|fuel IH]; intros n acc Hn.
  - exists 0%nat. intros rest a c.
    assert (H10 : (n < 10)%N) by (cbn in Hn; lia).
    rewrite decimal_from_S. apply N.ltb_lt in H10. rewrite H10.
    apply N.ltb_lt in H10. apply Hsmall. exact H10.
  - rewrite decimal_from_S. destruct (n <? 10)%N eqn:E.
    + exists 0%nat. intros rest a c. apply N.ltb_lt in E. apply Hsmall. exact E.
    + apply N.ltb_ge in E.
      destruct (IH (n / 10)%N ((48 + n mod 10)%N :: acc)) as [k Hk];
        [apply tenth_bound; exact Hn|].
      exists (S k). intros rest a c.
      rewrite Hk, <- app_comm_cons, digits_one by (apply N.mod_lt; lia).
      replace (S (c + S k)) with (c + S (S k))%nat by lia.
      replace ((a * 10 ^ Z.of_nat (S k) + Z.of_N (n / 10)) * 10
               + Z.of_N (n mod 10))%Z
        with (a * 10 ^ Z.of_nat (S (S k)) + Z.of_N n)%Z; [reflexivity|].
      rewrite (N.div_mod n 10) at 1 by lia.
      rewrite N2Z.inj_add, N2Z.inj_mul.
      replace (Z.of_nat (S (S k))) with (Z.succ (Z.of_nat (S k))) by lia.
      rewrite Z.pow_succ_r by lia. change (Z.of_N 10) with 10%Z. ring.
Qed.

Lemma log2_bound n : (n < 2 ^ N.of_nat (S (N.to_nat (N.log2 n))))%N.
Proof.
  rewrite Nat2N.inj_succ, N2Nat.id.
  destruct n as [|p]; [cbn; lia|].
  apply N.log2_spec. lia.
Qed.

Lemma digits_decimal n rest a c :
  ends_digits rest = true ->
  exists k,
    digits (decimal n ++ rest) a c
    = ((a * 10 ^ Z.of_nat (S k) + Z.of_N n)%Z, (c + S k)%nat, rest).
Proof.
  intros Hr. unfold decimal.
  destruct (@digits_decimal_from (N.to_nat (N.log2 n)) n [] (log2_bound n))
    as [k Hk].
  exists k. rewrite Hk. cbn [app]. apply digits_stop. exact Hr.
Qed.

(** The first digit: 0 only for the number 0. *)
Lemma decimal_from_head fuel : forall n acc,
  (0 < n)%N -> (n < 2 ^ N.of_nat (S fuel))%N ->
  exists d ds, decimal_from (S fuel) n acc = d :: ds
               /\ is_digit d = true /\ (d =? 48)%N = false.
Proof.
  assert (Hsmall : forall n acc, (0 < n)%N -> (n < 10)%N ->
            exists d ds, (48 + n mod 10)%N :: acc = d :: ds
                         /\ is_digit d = true /\ (d =? 48)%N = false).
  { intros n acc H0 H10. exists (48 + n mod 10)%N, acc.
    rewrite N.mod_small by exact H10.
    split; [reflexivity|]. split; [apply is_digit_decimal; exact H10|].
    apply N.eqb_neq. lia. }
  induction fuel as [|fuel IH]; intros n acc H0 Hn; rewrite decimal_from_S.
  - assert (H10 : (n < 10)%N) by (cbn in Hn; lia).
    apply N.ltb_lt in H10. rewrite H10. apply N.ltb_lt in H10. auto.
  - destruct (n <? 10)%N eqn:E.
    + apply N.ltb_lt in E. auto.
    + apply N.ltb_ge in E. apply IH.
      * apply N.div_str_pos. lia.
      * apply tenth_bound. exact Hn.
Qed.

Lemma decimal_zero : decimal 0 = [48%N].
Proof. reflexivity. Qed.

Lemma decimal_head n :
  (0 < n)%N ->
  exists d ds, decimal n = d :: ds /\ is_digit d = true /\ (d =? 48)%N = false.
Proof. intros H. apply decimal_from_head; [exact H|apply log2_bound]. Qed.

Lemma digit_not c x :
  is_digit c = true -> (x < 48 \/ 57 < x)%N -> (c =? x)%N = false.
Proof.
  unfold is_digit. intros H Hx. apply andb_true_iff in H. destruct H as [H1 H2].
  apply N.leb_le in H1. apply N.leb_le in H2. apply N.eqb_neq. lia.
Qed.

(** The digits of a number and what follows them. *)
Lemma integer_part n t :
  ends_digits t = true ->
  exists c r, decimal n ++ t = c :: r /\ is_digit c = true
    /\ (if (c =? 48)%N then Some (0%Z, r)
        else if is_digit c
             then let '(m, _, rest) := digits (decimal n ++ t) 0%Z 0 in
                  Some (m, rest)
             else None) = Some (Z.of_N n, t).
Proof.
  intros Ht. destruct n as [|p].
  - exists 48%N, t. rewrite decimal_zero. auto.
  - destruct (@decimal_head (N.pos p)) as (d & ds & E & Hd & H48); [lia|].
    destruct (@digits_decimal (N.pos p) t 0%Z 0%nat Ht) as [k Hk].
    exists d, (ds ++ t). rewrite E in *. split; [reflexivity|].
    split; [exact Hd|]. rewrite H48, Hd, Hk. f_equal.
Qed.

Lemma ends_number_head c t :
  ends_number (c :: t) = true ->
  is_digit c = false /\ (c =? 46)%N = false /\ (c =? 101)%N = false
  /\ (c =? 69)%N = false.
Proof.
  cbn. intros H. apply negb_true_iff in H.
  repeat (apply orb_false_iff in H; destruct H as [H ?]). auto.
Qed.

(** The exponent, after the [e]. *)
Lemma exponent_part e rest :
  ends_number rest = true -> e <> 0%Z ->
  (let '(eneg, r1) :=
     match print_integer e ++ rest with
     | s :: r' =>
         if (s =? 45)%N then (true, r')
         else if (s =? 43)%N then (false, r')
         else (false, print_integer e ++ rest)
     | [] => (false, print_integer e ++ rest)
     end in
   let '(x, n, rest') := digits r1 0%Z 0 in
   match n with
   | O => None
   | S _ => Some ((if eneg then - x else x)%Z, rest')
   end) = Some (e, rest).
Proof.
  intros Hr He. apply ends_number_digits in Hr. unfold print_integer.
  destruct (e <? 0)%Z eqn:E.
  - apply Z.ltb_lt in E. cbn [app N.eqb Pos.eqb].
    destruct (@digits_decimal (Z.abs_N e) rest 0%Z 0%nat Hr) as [k Hk].
    rewrite Hk. cbn [Nat.add]. f_equal. f_equal. rewrite N2Z.inj_abs_N. lia.
  - apply Z.ltb_ge in E.
    destruct (@decimal_head (Z.abs_N e)) as (d & ds & Ed & Hd & _); [lia|].
    destruct (@digits_decimal (Z.abs_N e) rest 0%Z 0%nat Hr) as [k Hk].
    rewrite Ed in *. cbn [app].
    rewrite (@digit_not d 45), (@digit_not d 43) by (auto; lia).
    cbn [app] in Hk. rewrite Hk. cbn [Nat.add]. f_equal. f_equal.
    rewrite N2Z.inj_abs_N. lia.
Qed.

Lemma number_print m e rest :
  ends_number rest = true ->
  number (print_number m e ++ rest) = Some (m, e, rest).
Proof.
  intros Hr. unfold print_number. rewrite <- app_assoc.
  set (t := (if (e =? 0)%Z then [] else 101%N :: print_integer e) ++ rest).
  assert (Ht : ends_digits t = true).
  { unfold t. destruct (e =? 0)%Z;
      [apply ends_number_digits; exact Hr|reflexivity]. }
  destruct (@integer_part (Z.abs_N m) t Ht) as (c & r & Ec & Hc & Hint).
  assert (Hexp :
            match t with
            | c :: r =>
                if ((c =? 101) || (c =? 69))%N then
                  let '(eneg, r1) :=
                    match r with
                    | s :: r' =>
                        if (s =? 45)%N then (true, r')
                        else if (s =? 43)%N then (false, r')
                        else (false, r)
                    | [] => (false, r)
                    end in
                  let '(x, n, rest') := digits r1 0%Z 0 in
                  match n with
                  | O => None
                  | S _ => Some (m, ((if eneg then - x else x) - 0)%Z, rest')
                  end
                else Some (m, (- 0)%Z, t)
            | [] => Some (m, (- 0)%Z, t)
            end = Some (m, e, rest)).
  { unfold t. destruct (e =? 0)%Z eqn:E0.
    - apply Z.eqb_eq in E0. subst e. cbn [app].
      destruct rest as [|c0 rest0]; [reflexivity|].
      destruct (ends_number_head _ _ Hr) as (_ & _ & -> & ->). reflexivity.
    - apply Z.eqb_neq in E0. cbn [app N.eqb Pos.eqb orb].
      pose proof (@exponent_part e rest Hr E0) as Hx.
      destruct (match print_integer e ++ rest with
                | s :: r' =>
                    if (s =? 45)%N then (true, r')
                    else if (s =? 43)%N then (false, r')
                    else (false, print_integer e ++ rest)
                | [] => (false, print_integer e ++ rest)
                end) as [eneg r1].
      destruct (digits r1 0%Z 0) as [[x n] rest'].
      destruct n; [discriminate|]. inversion Hx; subst.
      f_equal. f_equal. f_equal. lia. }
  assert (Hfrac :
            match t with
            | c :: r =>
                if (c =? 46)%N then
                  let '(m', k, rest) := digits r (Z.of_N (Z.abs_N m)) 0 in
                  match k with
                  | O => None
                  | S _ => Some (m', Z.of_nat k, rest)
                  end
                else Some (Z.of_N (Z.abs_N m), 0%Z, t)
            | [] => Some (Z.of_N (Z.abs_N m), 0%Z, t)
            end = Some (Z.of_N (Z.abs_N m), 0%Z, t)).
  { unfold t. destruct (e =? 0)%Z; [|reflexivity]. cbn [app].
    destruct rest as [|c0 rest0]; [reflexivity|].
    destruct (ends_number_head _ _ Hr) as (_ & -> & _). reflexivity. }
  unfold number, print_integer.
  destruct (m <? 0)%Z eqn:Em.
  - apply Z.ltb_lt in Em. cbn [app N.eqb Pos.eqb].
    rewrite Ec in *. rewrite Hint, Hfrac.
    replace (- Z.of_N (Z.abs_N m))%Z with m by (rewrite N2Z.inj_abs_N; lia).
    exact Hexp.
  - apply Z.ltb_ge in Em. rewrite Ec in *.
    rewrite (@digit_not c 45) by (auto; lia).
    rewrite Hint, Hfrac.
    replace (Z.of_N (Z.abs_N m)) with m by (rewrite N2Z.inj_abs_N; lia).
    exact Hexp.
Qed.

(** *** Strings *)

Lemma hex_digit_char d : (d < 16)%N -> hex_digit (hex_char d) = Some d.
Proof.
  intros H. unfold hex_char, hex_digit.
  destruct (d <? 10)%N eqn:E.
  - apply N.ltb_lt in E.
    replace ((48 <=? 48 + d) && (48 + d <=? 57))%N with true.
    + f_equal. lia.
    + symmetry. apply andb_true_iff. split; apply N.leb_le; lia.
  - apply N.ltb_ge in E.
    replace ((48 <=? 87 + d) && (87 + d <=? 57))%N with false.
    + replace ((65 <=? 87 + d) && (87 + d <=? 70))%N with false.
      * replace ((97 <=? 87 + d) && (87 + d <=? 102))%N with true.
        -- f_equal. lia.
        -- symmetry. apply andb_true_iff. split; apply N.leb_le; lia.
      * symmetry. apply andb_false_iff. right. apply N.leb_gt. lia.
    + symmetry. apply andb_false_iff. right. apply N.leb_gt. lia.
Qed.

Lemma hex_split c :
  (c < 65536)%N ->
  (c / 4096 < 16)%N
  /\ (4096 * (c / 4096) + 256 * ((c / 256) mod 16) + 16 * ((c / 16) mod 16)
      + c mod 16)%N = c.
Proof.
  intros H. split.
  - apply N.Div0.div_lt_upper_bound. exact H.
  - pose proof (N.div_mod c 16) as E0.
    pose proof (N.div_mod (c / 16) 16) as E1.
    pose proof (N.div_mod (c / 256) 16) as E2.
    replace (c / 16 / 16)%N with (c / 256)%N in E1
      by (rewrite N.Div0.div_div; reflexivity).
    replace (c / 256 / 16)%N with (c / 4096)%N in E2
      by (rewrite N.Div0.div_div; reflexivity).
    lia.
Qed.

Lemma string_body_plain c r :
  (c =? QUOTE)%N = false -> (c =? BACKSLASH)%N = false ->
  (c <? 32)%N = false ->
  string_body (c :: r)
  = match string_body r with
    | Some (s, rest) => Some (c :: s, rest)
    | None => None
    end.
Proof. intros H1 H2 H3. cbn [string_body]. rewrite H1, H2, H3. reflexivity. Qed.

Lemma string_body_escape e r :
  (e =? QUOTE)%N || (e =? BACKSLASH)%N = true ->
  string_body (BACKSLASH :: e :: r)
  = match string_body r with
    | Some (s, rest) => Some (e :: s, rest)
    | None => None
    end.
Proof.
  intros H. apply orb_true_iff in H.
  destruct H as [H|H]; apply N.eqb_eq in H; subst e; reflexivity.
Qed.

Lemma string_body_hex a b c d r :
  string_body (BACKSLASH :: 117%N :: a :: b :: c :: d :: r)
  = match hex_digit a, hex_digit b, hex_digit c, hex_digit d with
    | Some x3, Some x2, Some x1, Some x0 =>
        match string_body r with
        | Some (s, rest) =>
            Some ((4096 * x3 + 256 * x2 + 16 * x1 + x0)%N :: s, rest)
        | None => None
        end
    | _, _, _, _ => None
    end.
Proof. reflexivity. Qed.

Lemma string_body_unit c r :
  is_unit c = true ->
  string_body (print_unit c ++ r)
  = match string_body r with
    | Some (s, rest) => Some (c :: s, rest)
    | None => None
    end.
Proof.
  intros Hc. unfold is_unit in Hc. apply N.ltb_lt in Hc. unfold print_unit.
  destruct (c =? QUOTE)%N eqn:E1.
  { apply N.eqb_eq in E1. subst c. reflexivity. }
  destruct (c =? BACKSLASH)%N eqn:E2.
  { apply N.eqb_eq in E2. subst c. reflexivity. }
  destruct ((c <? 32) || (255 <? c))%N eqn:E3.
  - cbn [app]. rewrite string_body_hex.
    destruct (hex_split Hc) as [H3 Hsum].
    rewrite !hex_digit_char by (try exact H3; apply N.mod_lt; lia).
    rewrite Hsum. reflexivity.
  - apply orb_false_iff in E3. destruct E3 as [E3 _].
    cbn [app]. apply string_body_plain; assumption.
Qed.

Lemma string_body_print s : forall rest,
  forallb is_unit s = true ->
  string_body (print_string s ++ rest) = Some (s, rest).
Proof.
  induction s as [|c s IH]; intros rest H.
  - reflexivity.
  - cbn [forallb] in H. apply andb_true_iff in H. destruct H as [Hc Hs].
    cbn [print_string]. rewrite <- app_assoc, string_body_unit by exact Hc.
    rewrite IH by exact Hs. reflexivity.
Qed.

(** *** Values *)

Section ValueInduction.

Variable P : value -> Prop.
Hypothesis Pnull : P JNull.
Hypothesis Pbool : forall b, P (JBool b).
Hypothesis Pnumber : forall m e, P (JNumber m e).
Hypothesis Pstring : forall s, P (JString s).
Hypothesis Parray : forall items, Forall P items -> P (JArray items).
Hypothesis Pobject :
  forall members, Forall (fun m => P (snd m)) members -> P (JObject members).

Fixpoint value_nested_ind (v : value) : P v :=
  match v with
  | JNull => Pnull
  | JBool b => Pbool b
  | JNumber m e => Pnumber m e
  | JString s => Pstring s
  | JArray items =>
      Parray
        ((fix all (l : list value) : Forall P l :=
            match l with
            | [] => Forall_nil P
            | x :: r => Forall_cons x (value_nested_ind x) (all r)
            end) items)
  | JObject members =>
      Pobject
        ((fix all (l : list (units * value))
            : Forall (fun m => P (snd m)) l :=
            match l with
            | [] => Forall_nil _
            | m :: r =>
                Forall_cons (P := fun m => P (snd m)) m
                  (value_nested_ind (snd m)) (all r)
            end) members)
  end.

End ValueInduction.

Lemma print_array x r :
  print (JArray (x :: r)) = 91%N :: print x ++ print_elements r.
Proof. reflexivity. Qed.

Lemma print_object k x r :
  print (JObject ((k, x) :: r))
  = 123%N :: QUOTE :: print_string k ++ 58%N :: print x ++ print_members r.
Proof. reflexivity. Qed.

Lemma units_ok_object k x r :
  units_ok (JObject ((k, x) :: r))
  = forallb is_unit k && units_ok x && units_ok (JObject r).
Proof. reflexivity. Qed.

(** The first unit of a printed value. *)
Definition opens (c : N) : bool :=
  negb (is_ws c) && negb (c =? 93)%N.

Lemma print_integer_head z :
  exists c l, print_integer z = c :: l /\ (c = 45%N \/ is_digit c = true).
Proof.
  unfold print_integer. destruct (z <? 0)%Z.
  - eexists _, _. split; [reflexivity|]. left. reflexivity.
  - destruct (Z.abs_N z) as [|p] eqn:E.
    + exists 48%N, []. split; [reflexivity|]. right. reflexivity.
    + destruct (@decimal_head (N.pos p)) as (d & ds & Ed & Hd & _); [lia|].
      exists d, ds. auto.
Qed.

Lemma sign_or_digit c :
  c = 45%N \/ is_digit c = true ->
  is_ws c = false /\ (c =? 123)%N = false /\ (c =? 91)%N = false
  /\ (c =? QUOTE)%N = false /\ (110 =? c)%N = false /\ (116 =? c)%N = false
  /\ (102 =? c)%N = false /\ (c =? 93)%N = false.
Proof.
  intros [->|H]; [repeat split; reflexivity|].
  unfold is_ws, QUOTE. rewrite !(N.eqb_sym _ c).
  rewrite !(@digit_not c _ H) by lia. repeat split; reflexivity.
Qed.

Lemma print_head v rest :
  exists c l, print v ++ rest = c :: l /\ opens c = true.
Proof.
  destruct v as [|[|]|m e|s|[|x r]|[|[k x] r]];
    try (eexists _, _; split; reflexivity).
  unfold print, print_number.
  destruct (print_integer_head m) as (c & l & E & Hc).
  rewrite E. eexists c, _. split; [reflexivity|].
  destruct (sign_or_digit Hc) as (H1 & _ & _ & _ & _ & _ & _ & H2).
  unfold opens. rewrite H1, H2. reflexivity.
Qed.

Lemma skip_ws_opens c l : opens c = true -> skip_ws (c :: l) = c :: l.
Proof.
  unfold opens. intros H. apply andb_true_iff in H. destruct H as [H _].
  apply negb_true_iff in H. cbn [skip_ws]. rewrite H. reflexivity.
Qed.

Lemma parse_value_number k l m e rest :
  number l = Some (m, e, rest) ->
  (exists c l', l = c :: l' /\ (c = 45%N \/ is_digit c = true)) ->
  parse_value (S k) l = Some (JNumber m e, rest).
Proof.
  intros Hn (c & l' & -> & Hc).
  destruct (sign_or_digit Hc) as (H1 & H2 & H3 & H4 & H5 & H6 & H7 & _).
  cbn [parse_value skip_ws]. rewrite H1, H2, H3, H4.
  cbn [strip lit_null lit_true lit_false]. rewrite H5, H6, H7, Hn. reflexivity.
Qed.

Lemma parse_elements_S k l acc :
  parse_elements (S k) l acc
  = match parse_value k l with
    | Some (v, r) =>
        match skip_ws r with
        | c :: r' =>
            if (c =? 44)%N then parse_elements k r' (v :: acc)
            else if (c =? 93)%N then Some (JArray (rev (v :: acc)), r')
            else None
        | [] => None
        end
    | None => None
    end.
Proof. reflexivity. Qed.

Lemma parse_value_array k l :
  (exists c l', l = c :: l' /\ opens c = true) ->
  parse_value (S k) (91%N :: l) = parse_elements k l [].
Proof.
  intros (c & l' & -> & Hc).
  change (parse_value (S k) (91%N :: c :: l'))
    with (match skip_ws (c :: l') with
          | c' :: r' =>
              if (c' =? 93)%N then Some (JArray [], r')
              else parse_elements k (c :: l') []
          | [] => None
          end).
  rewrite skip_ws_opens by exact Hc.
  unfold opens in Hc. apply andb_true_iff in Hc. destruct Hc as [_ Hc].
  apply negb_true_iff in Hc. rewrite Hc. reflexivity.
Qed.

Lemma parse_members_S k l acc :
  parse_members (S k) (QUOTE :: l) acc
  = match string_body l with
    | Some (key, r1) =>
        match skip_ws r1 with
        | colon :: r2 =>
            if (colon =? 58)%N then
              match parse_value k r2 with
              | Some (v, r3) =>
                  match skip_ws r3 with
                  | c :: r4 =>
                      if (c =? 44)%N
                      then parse_members k r4 ((key, v) :: acc)
                      else if (c =? 125)%N
                      then Some (JObject (rev ((key, v) :: acc)), r4)
                      else None
                  | [] => None
                  end
              | None => None
              end
            else None
        | [] => None
        end
    | None => None
    end.
Proof. reflexivity. Qed.

Lemma parse_value_object k l :
  parse_value (S k) (123%N :: QUOTE :: l) = parse_members k (QUOTE :: l) [].
Proof. reflexivity. Qed.

(** The fuel that reading a text of this length takes. *)
Definition fuel_for (l : units) (k : nat) : Prop :=
  (2 * List.length l + 1 <= k)%nat.

Definition reads_back (v : value) : Prop :=
  units_ok v = true ->
  forall rest k, ends_number rest = true -> fuel_for (print v) k ->
    parse_value k (print v ++ rest) = Some (v, rest).

Ltac fuel :=
  unfold fuel_for in *; cbn [print_elements print_members] in *;
  repeat rewrite ?length_app, ?length_cons in *; cbn [List.length] in *; lia.

Lemma parse_elements_print r :
  Forall reads_back r -> forallb units_ok r = true ->
  forall x acc rest k,
    reads_back x -> units_ok x = true -> ends_number rest = true ->
    fuel_for (print x ++ print_elements r) k ->
    parse_elements k (print x ++ print_elements r ++ rest) acc
    = Some (JArray (rev acc ++ x :: r), rest).
Proof.
  induction r as [|y r IH]; intros Hall Hok x acc rest k Hx Hxo Hr Hk.
  - destruct k as [|k]; [fuel|]. rewrite parse_elements_S.
    cbn [print_elements app].
    rewrite Hx; [|exact Hxo|reflexivity|fuel].
    reflexivity.
  - destruct k as [|k]; [cbn [print_elements] in Hk; fuel|].
    rewrite parse_elements_S. cbn [print_elements] in *.
    rewrite <- app_comm_cons.
    rewrite Hx; [|exact Hxo|reflexivity|fuel].
    cbn [skip_ws is_ws N.eqb Pos.eqb orb].
    cbn [forallb] in Hok. apply andb_true_iff in Hok. destruct Hok as [Hyo Hok].
    inversion Hall as [|? ? Hy Hall']; subst.
    rewrite <- app_assoc, IH; auto; [|fuel].
    cbn [rev]. rewrite <- app_assoc. reflexivity.
Qed.

Lemma parse_members_print r :
  Forall (fun m => reads_back (snd m)) r -> units_ok (JObject r) = true ->
  forall key x acc rest k,
    reads_back x -> forallb is_unit key = true -> units_ok x = true ->
    ends_number rest = true ->
    fuel_for (QUOTE :: print_string key ++ 58%N :: print x ++ print_members r) k ->
    parse_members k
      (QUOTE :: print_string key ++ 58%N :: print x ++ print_members r ++ rest)
      acc
    = Some (JObject (rev acc ++ (key, x) :: r), rest).
Proof.
  induction r as [|[key' y] r IH];
    intros Hall Hok key x acc rest k Hx Hkey Hxo Hr Hk.
  - destruct k as [|k]; [fuel|]. rewrite parse_members_S.
    cbn [print_members app].
    rewrite string_body_print by exact Hkey.
    cbn [skip_ws is_ws N.eqb Pos.eqb orb].
    rewrite Hx; [|exact Hxo|reflexivity|fuel].
    reflexivity.
  - destruct k as [|k]; [cbn [print_members] in Hk; fuel|].
    rewrite parse_members_S. cbn [print_members] in *.
    rewrite string_body_print by exact Hkey.
    cbn [skip_ws is_ws N.eqb Pos.eqb orb].
    rewrite <- !app_comm_cons.
    rewrite Hx; [|exact Hxo|reflexivity|fuel].
    cbn [skip_ws is_ws N.eqb Pos.eqb orb].
    rewrite units_ok_object in Hok.
    apply andb_true_iff in Hok. destruct Hok as [Hok Hro].
    apply andb_true_iff in Hok. destruct Hok as [Hk' Hyo].
    inversion Hall as [|? ? Hy Hall']; subst. cbn [snd] in Hy.
    rewrite <- !app_assoc. cbn [app]. rewrite <- app_assoc.
    rewrite IH; auto; [|fuel].
    cbn [rev]. rewrite <- app_assoc. reflexivity.
Qed.

(** Reading back what [print] wrote gives the value. *)
Lemma print_reads_back v : reads_back v.
Proof.
  induction v as [| b | m e | s | items IH | members IH]
    using value_nested_ind; intros Hok rest k Hr Hk.
  - destruct k as [|k]; [fuel|]. reflexivity.
  - destruct k as [|k]; [fuel|]. destruct b; reflexivity.
  - destruct k as [|k]; [fuel|]. apply parse_value_number.
    + apply number_print. exact Hr.
    + cbn [print]. unfold print_number.
      destruct (print_integer_head m) as (c & l & E & Hc). rewrite E.
      eexists _, _. split; [reflexivity|exact Hc].
  - destruct k as [|k]; [fuel|]. cbn [print app parse_value skip_ws].
    cbn [is_ws QUOTE N.eqb Pos.eqb orb].
    change 34%N with QUOTE.
    rewrite string_body_print by exact Hok. reflexivity.
  - destruct items as [|x r].
    + destruct k as [|k]; [fuel|]. reflexivity.
    + rewrite print_array in *. destruct k as [|k]; [fuel|].
      rewrite <- app_comm_cons, <- app_assoc.
      rewrite parse_value_array by apply print_head.
      cbn [units_ok forallb] in Hok.
      apply andb_true_iff in Hok. destruct Hok as [Hxo Hro].
      inversion IH as [|? ? Hx Hall]; subst.
      apply (@parse_elements_print r Hall Hro x [] rest k Hx Hxo Hr). fuel.
  - destruct members as [|[key x] r].
    + destruct k as [|k]; [fuel|]. reflexivity.
    + rewrite print_object in *. destruct k as [|k]; [fuel|].
      rewrite units_ok_object in Hok.
      apply andb_true_iff in Hok. destruct Hok as [Hok Hro].
      apply andb_true_iff in Hok. destruct Hok as [Hkey Hxo].
      inversion IH as [|? ? Hx Hall]; subst. cbn [snd] in Hx.
      rewrite <- !app_comm_cons, parse_value_object.
      rewrite <- app_assoc. rewrite <- app_comm_cons, <- app_assoc.
      apply (@parse_members_print r Hall Hro key x [] rest k Hx Hkey Hxo Hr).
      fuel.
Qed.

(** [JSON.parse] returns every value from its text, with white space
    around it or without. *)
Theorem parse_print (text : string) (v : value) (before after : units) :
  units_ok v = true ->
  skip_ws before = [] -> skip_ws after = [] ->
  units_of_string text = before ++ print v ++ after ->
  Json.parse text = Some v.
Proof.
  intros Hok Hb Ha Et.
  assert (Hskip : forall a b, skip_ws a = [] -> skip_ws (a ++ b) = skip_ws b).
  { induction a as [|c a IHa]; intros b Hs; [reflexivity|].
    cbn [skip_ws app] in *. destruct (is_ws c); [auto|discriminate]. }
  assert (Hends : ends_number after = true).
  { destruct after as [|c after']; [reflexivity|]. cbn [skip_ws] in Ha.
    destruct (is_ws c) eqn:E; [|discriminate]. cbn.
    unfold is_ws in E. unfold is_digit.
    repeat (apply orb_true_iff in E; destruct E as [E|E]);
      apply N.eqb_eq in E; subst c; reflexivity. }
  apply JsonFuel.parse_fuel_adequate
    with (m := S (2 * List.length (print v) + 1)) (rest := after);
    [|exact Ha].
  rewrite Et.
  destruct (print_head v after) as (c & l & E & Hc).
  cbn [parse_value]. rewrite Hskip by exact Hb. rewrite E.
  rewrite skip_ws_opens by exact Hc. rewrite <- E.
  pose proof (@print_reads_back v Hok after
                (S (2 * List.length (print v) + 1)) Hends) as H.
  cbn [parse_value] in H. rewrite E in H.
  rewrite skip_ws_opens in H by exact Hc. rewrite <- E in H.
  apply H. unfold fuel_for. lia.
Qed.

End JsonText.

(** ** What a render keeps *)

Lemma attachVideo_browser s : browser (attachVideo s) = browser s.
Proof.
  unfold attachVideo.
  destruct (isScreenSharing s); [destruct (videoRef s)|]; reflexivity.
Qed.

Lemma commit_kept (prev s : State) :
  inputText (commit prev s) = inputText s
  /\ imageBase64 (commit prev s) = imageBase64 s
  /\ imageMimeType (commit prev s) = imageMimeType s
  /\ isScreenSharing (commit prev s) = isScreenSharing s
  /\ isLoading (commit prev s) = isLoading s
  /\ isAnalyzingFrame (commit prev s) = isAnalyzingFrame s
  /\ language (commit prev s) = language s
  /\ socialTopic (commit prev s) = socialTopic s.
Proof. by_cases; repeat split; congruence. Qed.

Lemma commit_refs_kept (prev s : State) :
  mediaStreamRef (commit prev s) = mediaStreamRef s
  /\ analysisIntervalRef (commit prev s) = analysisIntervalRef s
  /\ isAnalyzingFrameRef (commit prev s) = isAnalyzingFrameRef s
  /\ fileInputValue (commit prev s) = fileInputValue s.
Proof. by_cases; repeat split; congruence. Qed.

Lemma commit_browser_kept (prev s : State) :
  now (commit prev s) = now s
  /\ pending (commit prev s) = pending s
  /\ nextOp (commit prev s) = nextOp s
  /\ requests (commit prev s) = requests s
  /\ stoppedTracks (commit prev s) = stoppedTracks s
  /\ onended (commit prev s) = onended s.
Proof. by_cases; repeat split; congruence. Qed.

Lemma debounceEffect_ui s : ui (debounceEffect s) = ui s.
Proof. unfold debounceEffect. destruct (_ || _); reflexivity. Qed.

Lemma debounceEffect_cleanup_ui s : ui (debounceEffect_cleanup s) = ui s.
Proof.
  unfold debounceEffect_cleanup. destruct (debounceCleanup s); reflexivity.
Qed.

(** The three slots that [clearEffect] resets. *)
Lemma commit_reset (prev s : State) :
  error (commit prev s) = (if resets prev s then None else error s)
  /\ analysisHistory (commit prev s)
     = (if resets prev s then [] else analysisHistory s)
  /\ analysisResult (commit prev s)
     = (if resets prev s then None else analysisResult s).
Proof.
  unfold resets, commit. cbv zeta.
  destruct (sameDeps prev (attachVideo s)); cbn [negb andb].
  - rewrite attachVideo_ui. auto.
  - pose proof (attachVideo_ui s) as E.
    rewrite <- (debounceEffect_cleanup_ui (attachVideo s)) in E.
    rewrite <- (debounceEffect_ui (debounceEffect_cleanup (attachVideo s))) in E.
    revert E.
    generalize (debounceEffect (debounceEffect_cleanup (attachVideo s))).
    intros s2 E. unfold clearEffect. rewrite E.
    destruct (blank (inputText s) && negb (JS.opt_truthy (imageBase64 s))
              && negb (isScreenSharing s)); cbn; rewrite ?E; auto.
Qed.

(** ** The manual trigger (C9) *)

Lemma canAnalyze_disabled s : canAnalyze s = negb (analyzeDisabled s).
Proof.
  unfold canAnalyze, analyzeDisabled.
  destruct (isLoading s), (blank (inputText s)),
    (JS.opt_truthy (imageBase64 s)), (isScreenSharing s); reflexivity.
Qed.

Lemma step_same (ev : Event) (s : State) :
  videoSynced s -> handle ev s = Some s -> step ev s = Some s.
Proof.
  intros Hv E. unfold step. rewrite E.
  rewrite commit_same_synced; auto.
Qed.

(** C9. The manual trigger (a click on the analyze button, l.500) performs
    an analysis exactly when no manual/auto analysis is loading, text or
    image is non-empty and screen share is not active: it then sends one
    request built from the current input and sets the loading flag. In
    every other state, and in particular while the loading flag is set,
    the click sends nothing and leaves the state as it is. *)
Theorem C9_manual_trigger_guard (s : State) :
  reachable s ->
  (canAnalyze s = true ->
     exists s', step ClickAnalyze s = Some s'
       /\ requests s' =
          requests s ++ [buildRequest (inputText s) (language s)
                           (socialTopic s) (imageBase64 s) (imageMimeType s)]
       /\ pending s' = pending s ++ [(nextOp s, AwaitGenerateContent Manual)]
       /\ isLoading s' = true)
  /\ (canAnalyze s = false -> step ClickAnalyze s = Some s)
  /\ (isLoading s = true -> step ClickAnalyze s = Some s).
Proof.
  intros Hr. apply reachable_inv in Hr. destruct Hr as [Hv _ _ _ _ _].
  rewrite canAnalyze_disabled. split; [|split].
  - intros Hc. apply negb_true_iff in Hc.
    unfold step. cbn [handle]. rewrite Hc.
    unfold analyzeDisabled in Hc.
    apply orb_false_elim in Hc. destruct Hc as [Hc _].
    apply orb_false_elim in Hc. destruct Hc as [Hl Hc].
    unfold handleAnalyze. rewrite Hc, Hl. cbn [orb].
    eexists. split; [reflexivity|].
    destruct (commit_browser_kept s
      (s |> setIsLoading true |> setError None |> setAnalysisResult None
         |> setFeedbackState FeedbackNone
         |> analyzeContent Manual (inputText s) (language s) (socialTopic s)
              (imageBase64 s) (imageMimeType s)))
      as (_ & -> & _ & -> & _).
    destruct (commit_kept s
      (s |> setIsLoading true |> setError None |> setAnalysisResult None
         |> setFeedbackState FeedbackNone
         |> analyzeContent Manual (inputText s) (language s) (socialTopic s)
              (imageBase64 s) (imageMimeType s)))
      as (_ & _ & _ & _ & -> & _).
    repeat split.
  - intros Hc. apply negb_false_iff in Hc.
    apply step_same; auto. cbn. rewrite Hc. reflexivity.
  - intros Hl. apply step_same; auto. cbn.
    unfold analyzeDisabled. rewrite Hl. reflexivity.
Qed.

Lemma C9_manual_trigger_guard_witness :
  step ClickAnalyze init = Some init.
Proof.
  refine (proj1 (proj2 (@C9_manual_trigger_guard init _)) _).
  - exists []. reflexivity.
  - reflexivity.
Defined.

(** ** The upload limit (C8) *)

Lemma find_fresh (ps : list (nat * Pending)) n p :
  (forall e, In e ps -> (fst e < n)%nat) ->
  find (fun e => Nat.eqb (fst e) n) (ps ++ [(n, p)]) = Some (n, p).
Proof.
  induction ps as [|a ps IH]; cbn; intros H.
  - rewrite Nat.eqb_refl. reflexivity.
  - destruct (Nat.eqb_spec (fst a) n) as [E|E].
    + specialize (H a (or_introl eq_refl)). lia.
    + apply IH. intros e He. apply H. right. exact He.
Qed.

Lemma filter_fresh (ps : list (nat * Pending)) n p :
  (forall e, In e ps -> (fst e < n)%nat) ->
  filter (fun e => negb (Nat.eqb (fst e) n)) (ps ++ [(n, p)]) = ps.
Proof.
  intros H. rewrite filter_app. cbn. rewrite Nat.eqb_refl. cbn.
  rewrite app_nil_r. apply filter_absent. intros Hin.
  apply in_map_iff in Hin. destruct Hin as (e & E & He). apply H in He. lia.
Qed.

Lemma stopScreenSharing_kept s :
  inputText (stopScreenSharing s) = inputText s
  /\ imageBase64 (stopScreenSharing s) = imageBase64 s
  /\ imageMimeType (stopScreenSharing s) = imageMimeType s
  /\ analysisHistory (stopScreenSharing s) = analysisHistory s
  /\ error (stopScreenSharing s) = error s
  /\ isLoading (stopScreenSharing s) = isLoading s
  /\ language (stopScreenSharing s) = language s
  /\ pending (stopScreenSharing s) = pending s
  /\ nextOp (stopScreenSharing s) = nextOp s
  /\ requests (stopScreenSharing s) = requests s.
Proof. by_cases; repeat split; congruence. Qed.

Lemma stopScreenSharing_stops s :
  isScreenSharing (stopScreenSharing s) = false
  /\ analysisResult (stopScreenSharing s) = None
  /\ mediaStreamRef (stopScreenSharing s) = None
  /\ analysisIntervalRef (stopScreenSharing s) = None.
Proof. by_cases; repeat split; congruence. Qed.

(** C8. An uploaded file larger than 4*1024*1024 bytes is rejected: the
    only change is the size-error message, so no request is sent, no
    promise is left pending, and image, capture mode and stream are as
    before. A file of exactly 4*1024*1024 bytes is accepted: the reader is
    started without any request to the model, and once it has loaded, the
    image and its type are stored and the error is empty. *)
Theorem C8_upload_size_limit (s : State) (file : File) :
  reachable s ->
  ((4 * 1024 * 1024 < size file)%N ->
     step (FileChosen (Some file)) s
     = Some (setError (Some (Translated (language s) imageSizeError)) s))
  /\ (size file = (4 * 1024 * 1024)%N ->
      forall dataUrl, exists s1 s2,
        step (FileChosen (Some file)) s = Some s1
        /\ requests s1 = requests s
        /\ findOp (nextOp s) s1
           = Some (AwaitFileReader (type file) (language s))
        /\ step (FileReaderSettled (nextOp s) (Some dataUrl)) s1 = Some s2
        /\ imageBase64 s2 = JS.split_comma_1 dataUrl
        /\ imageMimeType s2 = Some (type file)
        /\ error s2 = None
        /\ isScreenSharing s2 = false
        /\ requests s2 = requests s).
Proof.
  intros Hr. apply reachable_inv in Hr.
  destruct Hr as [Hv _ _ _ _ (Hlt & _)]. split.
  - intros Hbig. unfold step. cbn [handle]. unfold handleImageChange.
    apply N.ltb_lt in Hbig. unfold maxImageSize. rewrite Hbig.
    rewrite commit_same_synced; auto.
  - intros Hsize dataUrl. unfold step at 1. cbn [handle].
    unfold handleImageChange, maxImageSize. rewrite Hsize, N.ltb_irrefl.
    destruct (stopScreenSharing_kept s)
      as (_ & _ & _ & _ & _ & _ & Elang & Epend & Enext & Ereq).
    destruct (stopScreenSharing_stops s) as (Eshare & _).
    revert Elang Epend Enext Ereq Eshare.
    generalize (stopScreenSharing s). intros s0 Elang Epend Enext Ereq Eshare.
    destruct (commit_browser_kept s
                (await (AwaitFileReader (type file) (language s)) s0))
      as (_ & Ep1 & En1 & Er1 & _).
    destruct (commit_kept s
                (await (AwaitFileReader (type file) (language s)) s0))
      as (_ & _ & _ & Es1 & _).
    revert Ep1 En1 Er1 Es1.
    generalize (commit s (await (AwaitFileReader (type file) (language s)) s0)).
    intros s1 Ep1 En1 Er1 Es1. cbn in Ep1, En1, Er1, Es1.
    rewrite Epend, Enext in Ep1.
    assert (Ef : findOp (nextOp s) s1
                 = Some (AwaitFileReader (type file) (language s))).
    { unfold findOp. rewrite Ep1, find_fresh; auto. }
    exists s1. eexists. split; [reflexivity|].
    split; [congruence|]. split; [exact Ef|].
    unfold step. cbn [handle]. rewrite Ef.
    split; [reflexivity|].
    match goal with
    | |- context [commit s1 ?x] =>
        destruct (commit_kept s1 x) as (_ & -> & -> & -> & _);
        destruct (commit_reset s1 x) as (-> & _);
        destruct (commit_browser_kept s1 x) as (_ & _ & _ & -> & _)
    end.
    cbn. rewrite Es1, Er1, Ereq.
    repeat split; auto. destruct (resets _ _); reflexivity.
Qed.

Lemma C8_upload_size_limit_witness :
  step (FileChosen (Some {| size := 4 * 1024 * 1024 + 1; type := "image/png" |}))
    init
  = Some (setError (Some (Translated (language init) imageSizeError)) init).
Proof.
  refine (proj1 (@C8_upload_size_limit init _ _) _).
  - exists []. reflexivity.
  - reflexivity.
Defined.

(** ** Renders that return *)

(** A run on which every render finds typed results is a run. *)
Lemma runTyped_run evs : forall s s' : State,
  runTyped evs s = Some s' -> run evs s = Some s'.
Proof.
  induction evs as [|ev evs IH]; cbn [runTyped run]; intros s s' E; auto.
  unfold step. destruct (handle ev s) as [s1|]; [|discriminate].
  destruct (typed s1); [|discriminate]. auto.
Qed.

(** On a result of the declared type the render function of [App] does
    not throw. *)
Lemma typed_renders (s : State) : typed s = true -> renderThrows s = false.
Proof.
  unfold typed, renderThrows. intros H.
  apply andb_true_iff in H. destruct H as [H _].
  destruct (analysisResult s) as [v|]; [|reflexivity].
  unfold isAnalysisResult in H.
  repeat (apply andb_true_iff in H; destruct H as [H ?]).
  match goal with E : is_string (Json.get "emotion" v) = true |- _ =>
    rewrite E
  end.
  destruct (Json.get "recipientImpact" v) as [[]|]; try discriminate;
    cbn; apply andb_false_r.
Qed.

(** What [clearEffect] resets is all that a render changes of the
    results, so the render after the effects finds typed results too. *)
Lemma commit_typed (prev s : State) :
  typed s = true -> typed (commit prev s) = true.
Proof.
  unfold typed. destruct (commit_reset prev s) as (_ & -> & ->).
  destruct (resets prev s); auto.
Qed.

(** A run on which every render finds typed results ends in a state with
    typed results, whose render returns. *)
Lemma runTyped_typed evs : forall s s' : State,
  runTyped evs s = Some s' -> typed s = true -> typed s' = true.
Proof.
  induction evs as [|ev evs IH]; cbn [runTyped]; intros s s' E Ht.
  - inversion E; subst. exact Ht.
  - destruct (handle ev s) as [s1|]; [|discriminate].
    destruct (typed s1) eqn:E1; [|discriminate].
    apply (IH _ _ E). apply commit_typed. exact E1.
Qed.

(** ** The history cap (C2) *)

Lemma skipn_app_ge {A} n (a b : list A) :
  (List.length a <= n)%nat -> skipn n (a ++ b) = skipn (n - List.length a) b.
Proof.
  intros H. rewrite skipn_app, skipn_all2 by exact H. reflexivity.
Qed.

Lemma slice_last_app {A} k (l m : list A) :
  JS.slice_last k (JS.slice_last k l ++ m) = JS.slice_last k (l ++ m).
Proof.
  unfold JS.slice_last.
  assert (H : exists a b, l = a ++ b
                /\ List.length a = (List.length l - k)%nat
                /\ skipn (List.length l - k) l = b).
  { exists (firstn (List.length l - k) l), (skipn (List.length l - k) l).
    rewrite firstn_skipn, length_firstn. repeat split. lia. }
  destruct H as (a & b & El & Ea & Eb). rewrite Eb. clear Eb. subst l.
  rewrite length_app in Ea.
  rewrite <- app_assoc, !length_app.
  rewrite (@skipn_app_ge _ (List.length a + (List.length b + List.length m) - k))
    by lia.
  f_equal. lia.
Qed.

Lemma pushHistory_fold rs h :
  fold_left (fun h r => pushHistory r h) rs (JS.slice_last 15 h)
  = JS.slice_last 15 (h ++ rs).
Proof.
  revert h. induction rs as [|r rs IH]; cbn; intros h.
  - rewrite app_nil_r. reflexivity.
  - unfold pushHistory at 2. rewrite slice_last_app, IH, <- app_assoc.
    reflexivity.
Qed.

Lemma slice_last_short {A} k (l : list A) :
  (List.length l <= k)%nat -> JS.slice_last k l = l.
Proof.
  intros H. unfold JS.slice_last.
  replace (List.length l - k)%nat with 0%nat by lia. reflexivity.
Qed.

Lemma resets_same (prev s : State) :
  inputText prev = inputText s -> imageBase64 prev = imageBase64 s ->
  isScreenSharing prev = isScreenSharing s -> resets prev s = false.
Proof.
  intros H1 H2 H3. unfold resets.
  rewrite sameDeps_eq; auto; rewrite attachVideo_ui; assumption.
Qed.

(** The handler of an event appends what [appended] tells and nothing
    else. *)
Lemma handle_appended ev (s s1 : State) :
  handle ev s = Some s1 ->
  analysisHistory s1
  = fold_left (fun h r => pushHistory r h) (appended ev s) (analysisHistory s).
Proof.
  intros E. destruct ev; cbn [handle appended fold_left] in *.
  - inversion E; subst. reflexivity.
  - inversion E; subst. reflexivity.
  - inversion E; subst. destruct (isLoading s); reflexivity.
  - inversion E; subst. by_cases.
  - inversion E; subst. by_cases.
  - inversion E; subst. by_cases.
  - inversion E; subst. by_cases.
  - inversion E; subst. destruct (analysisResult s); reflexivity.
  - destruct (_ && _); [|discriminate]. inversion E; subst. by_cases.
  - destruct (0 <=? dt)%Z; [|discriminate]. inversion E; subst. reflexivity.
  - revert E. unfold fireTimer.
    destruct (findTimer h s) as [t|]; [|discriminate].
    destruct (due t <=? now s)%Z; [|discriminate].
    intros E. inversion E; subst. by_cases.
  - destruct (findOp op s) as [[[]| |]|]; try discriminate;
      inversion E; subst; clear E;
      destruct (analyzeContent_settle o) as [msg|result].
    + by_cases.
    + reflexivity.
    + by_cases.
    + unfold analyzeFrame_settle.
      change (mediaStreamRef (settle op s)) with (mediaStreamRef s).
      destruct (mediaStreamRef s); reflexivity.
  - destruct (findOp op s) as [[[]| |]|]; try discriminate.
    inversion E; subst. by_cases.
  - destruct (findOp op s) as [[[]| |]|]; try discriminate.
    inversion E; subst. by_cases.
Qed.

Lemma step_appended ev (s s0 : State) :
  handle ev s = Some s0 -> resets s s0 = false -> histBounded s ->
  analysisHistory (commit s s0)
  = JS.slice_last 15 (analysisHistory s ++ appended ev s).
Proof.
  intros E Hk Hb.
  destruct (commit_reset s s0) as (_ & -> & _). rewrite Hk.
  rewrite (handle_appended _ _ E).
  rewrite <- (@slice_last_short _ 15 _ Hb) at 1. apply pushHistory_fold.
Qed.

Lemma run_appended evs : forall s s' : State,
  run evs s = Some s' -> sessionKept evs s = true -> histBounded s ->
  analysisHistory s' = JS.slice_last 15 (analysisHistory s ++ successes evs s).
Proof.
  induction evs as [|ev evs IH]; cbn [run sessionKept successes];
    intros s s' E Hin Hb.
  - inversion E; subst. rewrite app_nil_r. symmetry.
    apply slice_last_short. exact Hb.
  - unfold step in *. destruct (handle ev s) as [s0|] eqn:E0; [|discriminate].
    apply andb_true_iff in Hin. destruct Hin as [H1 Hin].
    apply negb_true_iff in H1.
    pose proof (@step_appended _ _ _ E0 H1 Hb) as Eh.
    rewrite (IH _ _ E Hin).
    + rewrite Eh, slice_last_app, app_assoc. reflexivity.
    + unfold histBounded. rewrite Eh. apply slice_last_length.
Qed.



Example twentyAnalyses_history :
  option_map (fun s : State => analysisHistory s) (run twentyAnalyses init)
  = Some (map (fun i => resultWith (Z.of_nat i)) (seq 6 15)).
Proof. vm_compute. reflexivity. Qed.

(** ** Late frame results (C3) *)

Lemma settled_frame_success (s : State) op result :
  let s1 := s |> settle op |> analyzeFrame_settle (inr result) in
  inputText s1 = inputText s /\ imageBase64 s1 = imageBase64 s
  /\ isScreenSharing s1 = isScreenSharing s
  /\ analysisResult s1
     = match mediaStreamRef s with
       | Some _ => nullable result
       | None => analysisResult s
       end
  /\ analysisHistory s1
     = match mediaStreamRef s with
       | Some _ => pushHistory result (analysisHistory s)
       | None => analysisHistory s
       end.
Proof.
  unfold analyzeFrame_settle. cbn.
  destruct (mediaStreamRef s); cbn; repeat split; reflexivity.
Qed.

(** X25. When a frame analysis completes successfully, its result is
    applied exactly when some capture stream is held at that moment
    (l.195). Without one, as after [stopScreenSharing], the result is
    discarded: displayed result and history stay as they were, and right
    after the render that follows [stopScreenSharing] the displayed
    result is empty and stays empty. With one, whichever session it
    belongs to, the result is stored and appended to the history. *)
Theorem late_frame_result (s s' : State) (op : nat)
  (o : Outcome) (result : Json.value) :
  findOp op s = Some (AwaitGenerateContent Frame) ->
  analyzeContent_settle o = inr result ->
  step (GenerateContentSettled op o) s = Some s' ->
  (mediaStreamRef s = None ->
     analysisResult s' = analysisResult s
     /\ analysisHistory s' = analysisHistory s)
  /\ (forall s0, s = commit s0 (stopScreenSharing s0) ->
        mediaStreamRef s = None /\ analysisResult s' = None
        /\ analysisHistory s' = analysisHistory s)
  /\ (mediaStreamRef s <> None ->
        analysisResult s' = nullable result
        /\ analysisHistory s' = pushHistory result (analysisHistory s)).
Proof.
  intros Hf Ho Hs. unfold step in Hs. cbn [handle] in Hs.
  rewrite Hf, Ho in Hs. inversion Hs; subst s'. clear Hs.
  destruct (settled_frame_success s op result) as (E1 & E2 & E3 & Er & Eh).
  match goal with
  | |- context [commit s ?x] =>
      destruct (commit_reset s x) as (_ & -> & ->);
      rewrite (@resets_same s x) by (symmetry; assumption)
  end.
  rewrite Er, Eh.
  assert (Hnone : mediaStreamRef s = None ->
            match mediaStreamRef s with
            | Some _ => nullable result
            | None => analysisResult s
            end = analysisResult s
            /\ match mediaStreamRef s with
               | Some _ => pushHistory result (analysisHistory s)
               | None => analysisHistory s
               end = analysisHistory s).
  { intros ->. auto. }
  split; [exact Hnone|split].
  - intros s0 E0.
    assert (Em : mediaStreamRef s = None).
    { rewrite E0.
      destruct (commit_refs_kept s0 (stopScreenSharing s0)) as (-> & _).
      apply stopScreenSharing_stops. }
    assert (Ea : analysisResult s = None).
    { rewrite E0.
      destruct (commit_reset s0 (stopScreenSharing s0)) as (_ & _ & ->).
      destruct (resets _ _); reflexivity. }
    destruct (Hnone Em) as [-> ->]. auto.
  - intros Hm. destruct (mediaStreamRef s); [auto|congruence].
Qed.

Lemma late_frame_result_witness :
  analysisResult (after (stoppedWhilePending ++ [lateAnswer]))
  = analysisResult (after stoppedWhilePending)
  /\ analysisHistory (after (stoppedWhilePending ++ [lateAnswer]))
     = analysisHistory (after stoppedWhilePending).
Proof.
  refine (proj1 (@late_frame_result
                   (after stoppedWhilePending) _ 1%nat
                   (Responded (responseWith 50)) (resultWith 50) _ _ _) _).
  - vm_compute. reflexivity.
  - vm_compute. reflexivity.
  - vm_compute. reflexivity.
  - vm_compute. reflexivity.
Defined.

(** C3 (the code at the failing input). The screen is shared and the
    first tick sends a frame; while that call is pending the user stops
    sharing (the track of the stream is stopped, no stream is held, the
    display is empty) and then shares again, another screen. Now the call
    of the stopped session is answered: l.195 only asks whether some
    stream is held, finds the stream of the new session, and the late
    result is displayed and appended to the history. Every render of the
    run finds typed results. *)
Theorem C3_late_result_applied_after_restart :
  runTyped (restartedWhilePending ++ [lateAnswer]) init
  = Some (after (restartedWhilePending ++ [lateAnswer]))
  /\ pending (after stoppedWhilePending)
     = [(1%nat, AwaitGenerateContent Frame)]
  /\ mediaStreamRef (after stoppedWhilePending) = None
  /\ stoppedTracks (after stoppedWhilePending) = getTracks screen
  /\ pending (after restartedWhilePending)
     = [(1%nat, AwaitGenerateContent Frame)]
  /\ requests (after restartedWhilePending)
     = requests (after stoppedWhilePending)
  /\ mediaStreamRef (after restartedWhilePending) = Some secondScreen
  /\ analysisResult (after restartedWhilePending) = None
  /\ analysisHistory (after restartedWhilePending) = []
  /\ analysisResult (after (restartedWhilePending ++ [lateAnswer]))
     = Some (resultWith 50)
  /\ analysisHistory (after (restartedWhilePending ++ [lateAnswer]))
     = [resultWith 50].
Proof.
  split; [vm_compute; reflexivity|].
  split; [vm_compute; reflexivity|].
  split; [vm_compute; reflexivity|].
  split; [vm_compute; reflexivity|].
  split; [vm_compute; reflexivity|].
  split; [vm_compute; reflexivity|].
  split; [vm_compute; reflexivity|].
  split; [vm_compute; reflexivity|].
  split; [vm_compute; reflexivity|].
  split; vm_compute; reflexivity.
Qed.

(** ** One frame analysis at a time (C5) *)

Lemma analyzeFrame_busy cap (s : State) :
  isAnalyzingFrameRef s = true -> analyzeFrame cap s = s.
Proof. unfold analyzeFrame. intros ->. reflexivity. Qed.

Lemma analyzeFrame_no_context cap (s : State) :
  hasContext cap = false ->
  isAnalyzingFrameRef s = false ->
  isAnalyzingFrameRef (analyzeFrame cap s) = false
  /\ ui (analyzeFrame cap s) = ui s
  /\ browser (analyzeFrame cap s) = browser s.
Proof.
  unfold analyzeFrame. intros Hc Hf. rewrite Hc, Hf.
  destruct (videoRef s); cbn; auto.
Qed.

Lemma fireTimer_interval h cap (s s' : State) t :
  findTimer h s = Some t -> callback t = CallAnalysisFrameFn ->
  intervalsOk (timers s) ->
  fireTimer h cap s = Some s' ->
  (due t <= now s)%Z
  /\ s' = analyzeFrame cap
            (setTimers (map (rearm h (now s + 5000)%Z) (timers s)) s).
Proof.
  intros Hf Hc Hi. unfold fireTimer. rewrite Hf.
  destruct (due t <=? now s)%Z eqn:Hd; [|discriminate].
  assert (Hin : In t (timers s)).
  { unfold findTimer in Hf. apply find_some in Hf. apply Hf. }
  rewrite (Hi t Hin) by (unfold isDebounce; rewrite Hc; reflexivity).
  rewrite Hc. cbn. intros E. inversion E. split; auto.
  apply Z.leb_le, Hd.
Qed.

(** C5. At most one frame analysis is in flight in any reachable state. A
    tick of the 5000 ms interval that fires while the in-flight flag is
    set is skipped: it only arms the interval again, captures nothing,
    sends no request and leaves no promise pending. The flag is cleared on
    every way a frame analysis ends: when the call settles (with a result
    or with an error) and when no drawing context was available. *)
Theorem C5_single_frame_in_flight (s : State) :
  reachable s ->
  (inFlight Frame (pending s) <= 1)%nat
  /\ (forall h cap t s',
        isAnalyzingFrameRef s = true ->
        findTimer h s = Some t -> callback t = CallAnalysisFrameFn ->
        step (TimerFired h cap) s = Some s' ->
        every t = Some 5000%Z
        /\ ui s' = ui s /\ requests s' = requests s
        /\ pending s' = pending s
        /\ isAnalyzingFrameRef s' = true)
  /\ (forall op o s',
        findOp op s = Some (AwaitGenerateContent Frame) ->
        step (GenerateContentSettled op o) s = Some s' ->
        isAnalyzingFrameRef s' = false /\ isAnalyzingFrame s' = false
        /\ inFlight Frame (pending s') = 0%nat)
  /\ (forall h cap t s',
        isAnalyzingFrameRef s = false -> hasContext cap = false ->
        findTimer h s = Some t -> callback t = CallAnalysisFrameFn ->
        step (TimerFired h cap) s = Some s' ->
        isAnalyzingFrameRef s' = false /\ requests s' = requests s
        /\ pending s' = pending s).
Proof.
  intros Hr. pose proof (reachable_inv Hr) as [Hv _ _ Hi _ (_ & _ & _ & Hfr)].
  split; [|split; [|split]].
  - rewrite Hfr. destruct (isAnalyzingFrameRef s); cbn; lia.
  - intros h cap t s' Hflag Hf Hc Hs.
    assert (Hin : In t (timers s)).
    { unfold findTimer in Hf. apply find_some in Hf. apply Hf. }
    split; [apply Hi; auto; unfold isDebounce; rewrite Hc; reflexivity|].
    unfold step in Hs. cbn [handle] in Hs.
    destruct (fireTimer h cap s) as [s1|] eqn:E; [|discriminate].
    inversion Hs; subst s'. clear Hs.
    apply fireTimer_interval with (t := t) in E; auto.
    destruct E as [_ ->]. rewrite analyzeFrame_busy by exact Hflag.
    match goal with
    | |- context [commit s ?x] =>
        destruct (commit_refs_kept s x) as (_ & _ & -> & _);
        destruct (commit_browser_kept s x) as (_ & -> & _ & -> & _);
        rewrite (@commit_same s x) by reflexivity
    end.
    rewrite attachVideo_ui. cbn. auto.
  - intros op o s' Hf Hs.
    assert (Hr' : reachable s') by (eapply reachable_step; eauto).
    pose proof (reachable_inv Hr') as [_ _ _ _ _ (_ & _ & _ & Hfr')].
    assert (E : isAnalyzingFrameRef s' = false /\ isAnalyzingFrame s' = false).
    { unfold step in Hs. cbn [handle] in Hs. rewrite Hf in Hs.
      inversion Hs. clear Hs.
      match goal with
      | |- context [commit s ?x] =>
          destruct (commit_refs_kept s x) as (_ & _ & -> & _);
          destruct (commit_kept s x) as (_ & _ & _ & _ & _ & -> & _)
      end. split; reflexivity. }
    destruct E as [E1 E2]. split; [exact E1|split; [exact E2|]].
    rewrite Hfr', E1. reflexivity.
  - intros h cap t s' Hflag Hctx Hf Hc Hs.
    unfold step in Hs. cbn [handle] in Hs.
    destruct (fireTimer h cap s) as [s1|] eqn:E; [|discriminate].
    inversion Hs; subst s'. clear Hs.
    apply fireTimer_interval with (t := t) in E; auto.
    destruct E as [_ ->].
    match goal with
    | |- context [commit s (analyzeFrame cap ?x)] =>
        destruct (@analyzeFrame_no_context cap x Hctx Hflag) as (F1 & F2 & F3);
        destruct (commit_refs_kept s (analyzeFrame cap x)) as (_ & _ & -> & _);
        destruct (commit_browser_kept s (analyzeFrame cap x))
          as (_ & -> & _ & -> & _)
    end.
    unfold requests, pending. rewrite F3. cbn. auto.
Qed.

Lemma C5_single_frame_in_flight_witness :
  (inFlight Frame (pending (after stoppedWhilePending)) <= 1)%nat.
Proof.
  refine (proj1 (@C5_single_frame_in_flight (after stoppedWhilePending) _)).
  exists stoppedWhilePending. vm_compute. reflexivity.
Defined.

(** The scenario of the spec run event by event: with a slow first call,
    the tick at 10 seconds is skipped, so one request has been sent after
    12 seconds. *)
Example slowFrameCall_one_request :
  List.length (requests (after slowFrameCall)) = 1%nat
  /\ pending (after slowFrameCall) = [(1%nat, AwaitGenerateContent Frame)]
  /\ now (after slowFrameCall) = 12000%Z.
Proof.
  split; [vm_compute; reflexivity|].
  split; vm_compute; reflexivity.
Qed.

(** ** The debounce (C1) *)

(** A handle that has left the table never comes back. *)
Lemma absentIn_filter h p ts n :
  absentIn h ts n -> absentIn h (filter p ts) n.
Proof.
  intros [Hn Hlt]. split; auto. intros Hin. apply Hn.
  apply in_map_iff in Hin. destruct Hin as (t & E & Ht).
  apply filter_In in Ht. apply in_map_iff. exists t. tauto.
Qed.

Lemma absentIn_rearm h h' d ts n :
  absentIn h ts n -> absentIn h (map (rearm h' d) ts) n.
Proof.
  intros [Hn Hlt]. split; auto. intros Hin. apply Hn.
  rewrite map_map in Hin. erewrite map_ext in Hin; [exact Hin|].
  intros t. apply rearm_same.
Qed.

Lemma absentIn_add h t ts n :
  tid t = n -> absentIn h ts n -> absentIn h (ts ++ [t]) (Pos.succ n).
Proof.
  intros E [Hn Hlt]. split.
  - rewrite map_app. cbn. intros Hin. apply in_app_iff in Hin.
    destruct Hin as [Hin|[E1|[]]]; [auto|lia].
  - lia.
Qed.

Lemma handle_absent h ev (s s' : State) :
  handle ev s = Some s' -> absent h s -> absent h s'.
Proof.
  apply handle_preserves with (P := absent h); unfold absent; try by_cases;
    cbn; auto using absentIn_filter, absentIn_rearm;
    apply absentIn_add; auto.
Qed.

Lemma commit_absent h (prev s : State) : absent h s -> absent h (commit prev s).
Proof.
  unfold absent. by_cases; cbn; auto using absentIn_filter;
    apply absentIn_add; auto using absentIn_filter.
Qed.

Lemma run_absent h evs : forall s s' : State,
  run evs s = Some s' -> absent h s -> absent h s'.
Proof.
  induction evs as [|ev evs IH]; cbn; intros s s' E H.
  - inversion E; subst; exact H.
  - unfold step in E. destruct (handle ev s) as [s1|] eqn:E1; [|discriminate].
    eapply IH; eauto. apply commit_absent. eapply handle_absent; eauto.
Qed.

Lemma absent_cannot_fire h cap (s : State) :
  absent h s -> step (TimerFired h cap) s = None.
Proof.
  intros [Hn _]. unfold step. cbn [handle]. unfold fireTimer.
  destruct (findTimer h s) as [t|] eqn:E; auto.
  exfalso. apply Hn. unfold findTimer in E. apply find_some in E.
  destruct E as [Hin E]. unfold TimerId_eqb in E. apply Pos.eqb_eq in E.
  subst h. apply in_map, Hin.
Qed.

Lemma filter_none {A} (p : A -> bool) (l : list A) :
  (forall x, In x l -> p x = false) -> filter p l = [].
Proof.
  induction l as [|a l IH]; cbn; intros H; auto.
  rewrite (H a) by auto. apply IH. intros x Hx. apply H. auto.
Qed.

(** What the two timer effects leave in the table when they run. *)
Lemma effects_timers (s1 : State) :
  timersOk (timers s1) (nextTimer s1) (debounceCleanup s1) ->
  let s2 := clearEffect (debounceEffect (debounceEffect_cleanup s1)) in
  debounceTimers s2
  = (if isScreenSharing s1 || JS.opt_truthy (imageBase64 s1)
        || blank (inputText s1)
     then []
     else [debounceTimer (nextTimer s1) (now s1 + 1000)%Z])
  /\ (forall t, In t (timers s1) -> isDebounce t = true ->
        absent (tid t) s2).
Proof.
  intros Hok. cbv zeta.
  assert (Hc : exists cleaned,
             timers (debounceEffect_cleanup s1) = cleaned
             /\ (forall t, In t cleaned -> isDebounce t = false)
             /\ (forall t, In t (timers s1) -> isDebounce t = true ->
                   absentIn (tid t) cleaned (nextTimer s1))
             /\ nextTimer (debounceEffect_cleanup s1) = nextTimer s1
             /\ now (debounceEffect_cleanup s1) = now s1).
  { unfold debounceEffect_cleanup.
    destruct (debounceCleanup s1) as [h|] eqn:E; cbn.
    - eexists. split; [reflexivity|]. split; [|split; [|split]]; auto.
      + eapply cleanup_no_debounce; eauto.
      + intros t Ht Hd. destruct Hok as (Hlt & _ & Hdeb & _).
        destruct (Hdeb t Ht Hd) as [E1 _]. inversion E1; subst h.
        split; [|auto]. intros Hin. apply in_map_iff in Hin.
        destruct Hin as (t' & E' & Ht'). apply filter_In in Ht'.
        destruct Ht' as [_ Ht']. rewrite E' in Ht'. unfold TimerId_eqb in Ht'.
        rewrite Pos.eqb_refl in Ht'. discriminate.
    - eexists. split; [reflexivity|]. split; [|split; [|split]]; auto.
      + eapply timersOk_no_cleanup; eauto.
      + intros t Ht Hd.
        rewrite (@timersOk_no_cleanup _ _ Hok t Ht) in Hd. discriminate. }
  destruct Hc as (cleaned & Et & Hno & Habs & En & Enow).
  pose proof (debounceEffect_cleanup_ui s1) as Eui.
  revert Et En Enow Eui. generalize (debounceEffect_cleanup s1).
  intros c Et En Enow Eui.
  assert (Hclear : forall x : State,
             timers (clearEffect x) = timers x
             /\ nextTimer (clearEffect x) = nextTimer x).
  { intros x. unfold clearEffect. destruct (_ && _); auto. }
  unfold debounceTimers, absent.
  destruct (Hclear (debounceEffect c)) as [-> ->].
  unfold debounceEffect. rewrite Eui.
  destruct (isScreenSharing s1 || JS.opt_truthy (imageBase64 s1)
            || blank (inputText s1)); cbn.
  - rewrite Et, En. split; [apply filter_none; auto|auto].
  - rewrite Et, En, Enow, filter_app, filter_none by auto. cbn.
    split; [reflexivity|]. intros t Ht Hd. apply absentIn_add; auto.
Qed.

Lemma commit_changed_timers (prev s : State) :
  sameDeps prev (attachVideo s) = false ->
  timersOk (timers s) (nextTimer s) (debounceCleanup s) ->
  debounceTimers (commit prev s)
  = (if isScreenSharing s || JS.opt_truthy (imageBase64 s)
        || blank (inputText s)
     then []
     else [debounceTimer (nextTimer s) (now s + 1000)%Z])
  /\ (forall t, In t (timers s) -> isDebounce t = true ->
        absent (tid t) (commit prev s)).
Proof.
  intros Hd Hok. unfold commit. cbv zeta. rewrite Hd.
  assert (E : ui (attachVideo s) = ui s /\ browser (attachVideo s) = browser s
              /\ debounceCleanup (attachVideo s) = debounceCleanup s).
  { unfold attachVideo.
    destruct (isScreenSharing s); [destruct (videoRef s)|]; auto. }
  destruct E as (Eu & Eb & Ec).
  pose proof (effects_timers (attachVideo s)) as H.
  rewrite Eu, Eb, Ec in H. apply H. exact Hok.
Qed.

Lemma elapse_step (s : State) dt :
  videoSynced s -> (0 <= dt)%Z ->
  step (Elapse dt) s = Some (setNow (now s + dt)%Z s).
Proof.
  intros Hv Hdt. unfold step. cbn [handle].
  apply Z.leb_le in Hdt. rewrite Hdt.
  rewrite commit_same_synced; auto.
Qed.

Lemma changed_deps (s : State) v :
  v <> inputText s -> sameDeps s (attachVideo (setInputText v s)) = false.
Proof.
  intros H. unfold sameDeps. rewrite attachVideo_ui. cbn.
  destruct (String.eqb_spec (inputText s) v) as [E|E]; [congruence|reflexivity].
Qed.

Lemma keeps_trans (a b c : State) : keeps a b -> keeps b c -> keeps a c.
Proof.
  unfold keeps. intros (A1 & A2 & A3 & A4 & A5 & A6 & A7)
    (B1 & B2 & B3 & B4 & B5 & B6 & B7).
  repeat split; congruence.
Qed.

(** One change of the text: the pending timeout is cancelled, a new one is
    started for 1000 ms later if the new text is not blank, and nothing is
    sent. *)
Lemma change_once (s : State) dt v :
  Inv s -> JS.opt_truthy (imageBase64 s) = false ->
  isScreenSharing s = false -> (0 <= dt)%Z -> v <> inputText s ->
  exists s1, run [Elapse dt; ChangeText v] s = Some s1
    /\ keeps s s1 /\ inputText s1 = v
    /\ debounceTimers s1
       = (if blank v then []
          else [debounceTimer (nextTimer s) (now s1 + 1000)%Z])
    /\ (forall t, In t (timers s) -> isDebounce t = true ->
          absent (tid t) s1).
Proof.
  intros [Hv _ Hok _ _ _] Himg Hsh Hdt Hne.
  cbn [run]. rewrite elapse_step by assumption.
  unfold step. cbn [handle].
  set (s0 := setNow (now s + dt)%Z s).
  assert (Hd : sameDeps s0 (attachVideo (setInputText v s0)) = false).
  { apply changed_deps. exact Hne. }
  destruct (@commit_changed_timers s0 (setInputText v s0) Hd Hok)
    as [Et Habs].
  destruct (commit_kept s0 (setInputText v s0))
    as (K1 & K2 & K3 & K4 & K5 & _ & K7 & K8).
  destruct (commit_browser_kept s0 (setInputText v s0))
    as (B1 & _ & _ & B4 & _).
  eexists. split; [reflexivity|]. split; [|split; [exact K1|split]].
  - unfold keeps. rewrite K2, K3, K4, K5, K7, K8, B4. repeat split.
  - rewrite Et, B1. cbn. rewrite Hsh, Himg. reflexivity.
  - exact Habs.
Qed.

Lemma burst_run (b : Burst) : forall s : State,
  Inv s -> JS.opt_truthy (imageBase64 s) = false ->
  isScreenSharing s = false ->
  Forall (fun p => 0 <= fst p)%Z b -> changes (inputText s) (map snd b) ->
  b <> [] ->
  exists s1, run (burstEvents b) s = Some s1
    /\ keeps s s1 /\ inputText s1 = finalText (inputText s) b
    /\ (exists h, debounceTimers s1
                  = if blank (inputText s1) then []
                    else [debounceTimer h (now s1 + 1000)%Z])
    /\ (forall t, In t (timers s) -> isDebounce t = true ->
          absent (tid t) s1).
Proof.
  induction b as [|[dt v] rest IH]; intros s Hinv Himg Hsh Hdt Hch Hne.
  - congruence.
  - inversion Hdt as [|? ? Hdt1 Hdt2]; subst. destruct Hch as [Hv Hch].
    cbn [fst snd] in *.
    destruct (@change_once s dt v Hinv Himg Hsh Hdt1 Hv)
      as (s1 & Er & Hk & Et & Ed & Ha).
    change (burstEvents ((dt, v) :: rest))
      with ([Elapse dt; ChangeText v] ++ burstEvents rest).
    rewrite run_app, Er. unfold finalText. cbn [fold_left snd].
    destruct rest as [|p rest'].
    + exists s1. cbn [burstEvents flat_map run fold_left].
      split; [reflexivity|]. split; [exact Hk|]. split; [exact Et|].
      split; [|exact Ha].
      exists (nextTimer s). rewrite Et. exact Ed.
    + assert (Hinv1 : Inv s1) by (eapply run_inv; eauto).
      destruct Hk as (K1 & K2 & K3 & K4 & K5 & K6 & K7).
      destruct (IH s1) as (s2 & Er2 & Hk2 & Et2 & Ed2 & Ha2); auto.
      * rewrite K1. exact Himg.
      * rewrite K3. exact Hsh.
      * rewrite Et. exact Hch.
      * discriminate.
      * exists s2. split; [exact Er2|]. split; [|split; [|split]].
        -- eapply keeps_trans; [|exact Hk2]. unfold keeps. auto 10.
        -- rewrite Et2, Et. reflexivity.
        -- exact Ed2.
        -- intros t Ht Hd. eapply run_absent; eauto.
Qed.

Lemma find_by_tid (ts : list Timer) t :
  NoDup (map tid ts) -> In t ts ->
  find (fun t' => TimerId_eqb (tid t') (tid t)) ts = Some t.
Proof.
  induction ts as [|a ts IH]; cbn; intros Hnd Hin; [tauto|].
  inversion Hnd; subst. destruct Hin as [->|Hin].
  - unfold TimerId_eqb. rewrite Pos.eqb_refl. reflexivity.
  - unfold TimerId_eqb. destruct (Pos.eqb_spec (tid a) (tid t)) as [E|E].
    + exfalso. apply H1. rewrite E. apply in_map, Hin.
    + apply IH; auto.
Qed.

Lemma blank_not_empty v : blank v = false -> JS.str_truthy v = true.
Proof.
  unfold blank, JS.str_truthy.
  destruct (String.eqb_spec v "") as [->|E]; [|reflexivity].
  vm_compute. intros H. discriminate H.
Qed.

(** The request of a text-only analysis carries the text and nothing
    else. *)
Lemma buildRequest_text v lang topic image mime :
  blank v = false -> JS.opt_truthy image = false ->
  parts (buildRequest v lang topic image mime) = [TextPart v].
Proof.
  intros Hb Hi. unfold buildRequest. cbn [parts].
  rewrite (blank_not_empty _ Hb).
  destruct image as [data|]; auto. destruct mime as [m|]; auto.
  unfold JS.opt_truthy in Hi. rewrite Hi. reflexivity.
Qed.

(** The pending timeout cannot run before 1000 ms have passed; when it
    runs, it sends one request and leaves no timeout behind. *)
Lemma debounce_fires (s1 : State) h dt cap :
  Inv s1 -> debounceTimers s1 = [debounceTimer h (now s1 + 1000)%Z] ->
  isLoading s1 = false -> blank (inputText s1) = false ->
  ((0 <= dt < 1000)%Z -> run [Elapse dt; TimerFired h cap] s1 = None)
  /\ ((1000 <= dt)%Z ->
      exists s2, run [Elapse dt; TimerFired h cap] s1 = Some s2
        /\ requests s2
           = requests s1 ++ [buildRequest (inputText s1) (language s1)
                               (socialTopic s1) (imageBase64 s1)
                               (imageMimeType s1)]
        /\ debounceTimers s2 = []
        /\ isLoading s2 = true).
Proof.
  intros [Hv _ (_ & Hnd & _) _ _ _] Ht Hl Hb.
  assert (Hin : In (debounceTimer h (now s1 + 1000)%Z) (timers s1)).
  { unfold debounceTimers in Ht.
    assert (H : In (debounceTimer h (now s1 + 1000)%Z)
                  (filter isDebounce (timers s1))) by (rewrite Ht; cbn; auto).
    apply filter_In in H. apply H. }
  pose proof (find_by_tid _ _ Hnd Hin) as Hf. cbn [tid debounceTimer] in Hf.
  assert (Hfire : forall d, (0 <= d)%Z ->
            run [Elapse d; TimerFired h cap] s1
            = step (TimerFired h cap) (setNow (now s1 + d)%Z s1)).
  { intros d Hd. cbn [run]. rewrite elapse_step by assumption.
    destruct (step _ _); reflexivity. }
  split.
  - intros Hdt. rewrite Hfire by lia. unfold step. cbn [handle].
    unfold fireTimer, findTimer. cbn [timers browser setNow]. rewrite Hf.
    cbn [due debounceTimer now browser setNow].
    replace (now s1 + 1000 <=? now s1 + dt)%Z with false; [reflexivity|].
    symmetry. apply Z.leb_gt. lia.
  - intros Hdt. rewrite Hfire by lia. unfold step. cbn [handle].
    unfold fireTimer, findTimer. cbn [timers browser setNow]. rewrite Hf.
    cbn [due debounceTimer now browser setNow every callback runCallback].
    replace (now s1 + 1000 <=? now s1 + dt)%Z with true
      by (symmetry; apply Z.leb_le; lia).
    unfold handleAnalyze. cbn. rewrite Hb, Hl. cbn [andb orb].
    eexists. split; [reflexivity|].
    match goal with
    | |- context [commit ?p ?x] =>
        destruct (commit_browser_kept p x) as (_ & _ & _ & -> & _);
        destruct (commit_kept p x) as (_ & _ & _ & _ & -> & _);
        rewrite (@commit_same p x) by reflexivity
    end.
    split; [reflexivity|]. split; [|reflexivity].
    unfold debounceTimers. rewrite attachVideo_browser. cbn.
    apply filter_none. intros t Hin'. apply filter_In in Hin'.
    destruct Hin' as [Hin' Hneq]. destruct (isDebounce t) eqn:Hd; auto.
    exfalso.
    assert (H : In t (filter isDebounce (timers s1)))
      by (apply filter_In; auto).
    fold (debounceTimers s1) in H. rewrite Ht in H. destruct H as [<-|[]].
    cbn in Hneq. unfold TimerId_eqb in Hneq. rewrite Pos.eqb_refl in Hneq.
    discriminate.
Qed.

(** C1 (as amended). For every burst of text changes that occurs while no
    image is attached, screen share is not active and no analysis is
    loading, no request is sent during the burst. If the final text is not
    blank, exactly one timeout is pending after the burst, due 1000 ms
    after the last change; it cannot run earlier, and when it runs it
    sends exactly one request, which carries the final text, and leaves no
    timeout behind. If the final text is blank, no timeout is pending.
    Every timeout that was pending before a change of the burst has left
    the timer table and can never run again. *)
Theorem C1_debounce (s : State) (b : Burst) :
  reachable s ->
  JS.opt_truthy (imageBase64 s) = false ->
  isScreenSharing s = false ->
  isLoading s = false ->
  b <> [] ->
  Forall (fun p => 0 <= fst p)%Z b ->
  changes (inputText s) (map snd b) ->
  exists s1,
    run (burstEvents b) s = Some s1
    /\ requests s1 = requests s
    /\ inputText s1 = finalText (inputText s) b
    /\ (blank (finalText (inputText s) b) = true -> debounceTimers s1 = [])
    /\ (blank (finalText (inputText s) b) = false ->
        exists h,
          debounceTimers s1 = [debounceTimer h (now s1 + 1000)%Z]
          /\ (forall dt cap, (0 <= dt < 1000)%Z ->
                run [Elapse dt; TimerFired h cap] s1 = None)
          /\ (forall dt cap, (1000 <= dt)%Z ->
                exists s2 req,
                  run [Elapse dt; TimerFired h cap] s1 = Some s2
                  /\ requests s2 = requests s ++ [req]
                  /\ parts req = [TextPart (finalText (inputText s) b)]
                  /\ debounceTimers s2 = []))
    /\ (forall t, In t (timers s) -> isDebounce t = true ->
          forall evs s3 cap, run evs s1 = Some s3 ->
            step (TimerFired (tid t) cap) s3 = None).
Proof.
  intros Hr Himg Hsh Hl Hne Hdt Hch.
  pose proof (reachable_inv Hr) as Hinv.
  destruct (@burst_run b s Hinv Himg Hsh Hdt Hch Hne)
    as (s1 & Er & Hk & Et & (h & Ed) & Ha).
  assert (Hinv1 : Inv s1) by (eapply run_inv; eauto).
  destruct Hk as (K1 & K2 & K3 & K4 & K5 & K6 & K7).
  exists s1. split; [exact Er|]. split; [exact K7|]. split; [exact Et|].
  rewrite <- Et. split; [|split].
  - intros Hb. rewrite Hb in Ed. exact Ed.
  - intros Hb. rewrite Hb in Ed. exists h. split; [exact Ed|].
    assert (Hl1 : isLoading s1 = false) by congruence.
    split.
    + intros dt cap Hd.
      destruct (@debounce_fires s1 h dt cap Hinv1 Ed Hl1 Hb) as [H _]. auto.
    + intros dt cap Hd.
      destruct (@debounce_fires s1 h dt cap Hinv1 Ed Hl1 Hb) as [_ H].
      destruct (H Hd) as (s2 & E2 & Ereq & E0 & _).
      exists s2. eexists. split; [exact E2|]. split; [|split; [|exact E0]].
      * rewrite Ereq, K7. reflexivity.
      * apply buildRequest_text; auto. rewrite K1. exact Himg.
  - intros t Ht Hd evs s3 cap E3. apply absent_cannot_fire.
    eapply run_absent; eauto.
Qed.

Lemma C1_debounce_witness :
  exists s1,
    run (burstEvents typing) init = Some s1
    /\ requests s1 = requests init
    /\ inputText s1 = "abc".
Proof.
  destruct (@C1_debounce init typing) as (s1 & H1 & H2 & H3 & _).
  - exists []. reflexivity.
  - reflexivity.
  - reflexivity.
  - reflexivity.
  - discriminate.
  - repeat constructor; cbn; lia.
  - cbn. repeat split; discriminate.
  - exists s1. auto.
Defined.

(** The scenario of the spec run event by event: one request, with the
    text [abc], once 1000 ms have passed since the last change. *)
Example typing_one_request :
  map parts
    (requests (after (burstEvents typing ++ [Elapse 1000; TimerFired 3 frame])))
  = [[TextPart "abc"]]
  /\ run (burstEvents typing ++ [Elapse 999; TimerFired 3 frame]) init = None.
Proof. split; vm_compute; reflexivity. Qed.

Lemma attachVideo_timers (s : State) : timers (attachVideo s) = timers s.
Proof.
  unfold attachVideo.
  destruct (isScreenSharing s); [destruct (videoRef s)|]; reflexivity.
Qed.

Lemma no_timer_no_fire (s : State) :
  timers s = [] ->
  forall dt h cap, run [Elapse dt; TimerFired h cap] s = None.
Proof.
  intros Ht dt h cap. cbn [run]. unfold step at 1. cbn [handle].
  destruct (0 <=? dt)%Z; [|reflexivity].
  rewrite commit_same by reflexivity.
  unfold step. cbn [handle]. unfold fireTimer, findTimer.
  rewrite attachVideo_timers. cbn [timers browser setNow]. rewrite Ht.
  reflexivity.
Qed.

(** C1 as it is stated fails: a burst that ends with a blank text (typed,
    then deleted) is followed by no analysis call at all. After it no
    timer is pending and no request has been sent, so whatever time
    passes, nothing fires. *)
Lemma C1_blank_burst_counterexample :
  exists s1,
    run (burstEvents typedAndDeleted) init = Some s1
    /\ imageBase64 s1 = None /\ isScreenSharing s1 = false
    /\ requests s1 = []
    /\ timers s1 = []
    /\ forall dt h cap, run [Elapse dt; TimerFired h cap] s1 = None.
Proof.
  exists (after (burstEvents typedAndDeleted)).
  split; [vm_compute; reflexivity|].
  split; [vm_compute; reflexivity|].
  split; [vm_compute; reflexivity|].
  split; [vm_compute; reflexivity|].
  split; [vm_compute; reflexivity|].
  apply no_timer_no_fire. vm_compute. reflexivity.
Qed.

(** ** Parsing the response (C7) *)

Example parse_rejects_text : Json.parse "not json" = None.
Proof. vm_compute. reflexivity. Qed.

Example parse_rejects_open_object : Json.parse "{" = None.
Proof. vm_compute. reflexivity. Qed.

Example parse_partial :
  Json.parse partialResponse
  = Some (Json.JObject [(JS.units_of_string "temperature", Json.JNumber 50 0)]).
Proof. vm_compute. reflexivity. Qed.

Lemma parse_trimmed (text : string) (v : Json.value) :
  Json.units_ok v = true ->
  JS.units_of_string (JS.trim text) = Json.print v ->
  Json.parse (JS.trim text) = Some v.
Proof.
  intros Hok E.
  apply JsonText.parse_print with (before := []) (after := []); auto.
  rewrite app_nil_r. exact E.
Qed.

(** C7 (as amended). The client checks the syntax of the response and
    nothing else. A response whose trimmed text is the JSON text of a
    value is accepted, whatever the value is and whatever fields it has:
    [analyzeContent] returns the value as the analysis result as it is,
    and the handler of the manual flow stores it, appends it to the
    history and sets no error. An error, [Failed to get analysis from AI:
    ...], comes with exactly the responses that [JSON.parse] rejects; of
    every other response the parsed value is returned. *)
Theorem C7_parse_checks_syntax_only (text : string) (v : Json.value)
  (s : State) (op : nat) :
  Json.units_ok v = true ->
  JS.units_of_string (JS.trim text) = Json.print v ->
  findOp op s = Some (AwaitGenerateContent Manual) ->
  analyzeContent_settle (Responded text) = inr v
  /\ (exists s1,
        handle (GenerateContentSettled op (Responded text)) s = Some s1
        /\ analysisResult s1 = nullable v
        /\ analysisHistory s1 = pushHistory v (analysisHistory s)
        /\ error s1 = error s /\ isLoading s1 = false)
  /\ (forall other,
        Json.parse (JS.trim other) = None <->
        analyzeContent_settle (Responded other)
        = inl (String.append "Failed to get analysis from AI: "
                 syntaxErrorMessage))
  /\ (forall other result,
        Json.parse (JS.trim other) = Some result <->
        analyzeContent_settle (Responded other) = inr result).
Proof.
  intros Hok E Hop.
  assert (Ev : analyzeContent_settle (Responded text) = inr v).
  { unfold analyzeContent_settle.
    rewrite (@parse_trimmed text v Hok E). reflexivity. }
  split; [exact Ev|]. split.
  - eexists. cbn [handle]. rewrite Hop, Ev. split; [reflexivity|].
    cbn. auto.
  - split; intros other; [|intros result]; unfold analyzeContent_settle;
      destruct (Json.parse (JS.trim other)); split; intros H;
      try discriminate; try reflexivity; inversion H; reflexivity.
Qed.

Lemma C7_parse_checks_syntax_only_witness :
  analyzeContent_settle
    (Responded
       (String.append " "
          (Json.text
             (Json.JObject
                [(JS.units_of_string "temperature", Json.JNumber 50 0)]))))
  = inr (Json.JObject [(JS.units_of_string "temperature", Json.JNumber 50 0)]).
Proof.
  refine (proj1 (@C7_parse_checks_syntax_only _
                   (Json.JObject
                      [(JS.units_of_string "temperature", Json.JNumber 50 0)])
                   (after [ChangeText "hi"; ClickAnalyze]) 0%nat _ _ _)).
  - reflexivity.
  - vm_compute. reflexivity.
  - vm_compute. reflexivity.
Defined.

(** C7 as it is stated fails: the well-formed texts [{}] and
    [{"temperature": 50}] lack required fields, yet the client returns
    them as results without any error. The handler of the manual flow
    stores the value [{}] and sets no error; the render of that state
    throws at [emotion.toLowerCase()], which is no parse error. *)
Lemma C7_partial_result_counterexample :
  analyzeContent_settle (Responded "{}") = inr (Json.JObject [])
  /\ isAnalysisResult (Json.JObject []) = false
  /\ (exists v, analyzeContent_settle (Responded partialResponse) = inr v
                /\ isAnalysisResult v = false)
  /\ exists s1,
       handle (GenerateContentSettled 0 (Responded "{}"))
         (after [ChangeText "hi"; ClickAnalyze]) = Some s1
       /\ analysisResult s1 = Some (Json.JObject [])
       /\ error s1 = None
       /\ renderThrows s1 = true.
Proof.
  split; [vm_compute; reflexivity|].
  split; [vm_compute; reflexivity|].
  split; [eexists; split; vm_compute; reflexivity|].
  eexists. split; [vm_compute; reflexivity|].
  split; [vm_compute; reflexivity|].
  split; vm_compute; reflexivity.
Qed.

(** ** Failures (C4, C10) *)

Lemma sameDeps_sharing (a b : State) :
  inputText a = inputText b -> imageBase64 a = imageBase64 b ->
  sameDeps a b = Bool.eqb (isScreenSharing a) (isScreenSharing b).
Proof.
  unfold sameDeps. intros -> ->.
  rewrite String.eqb_refl, opt_string_eqb_refl. reflexivity.
Qed.

(** The state in which the handler of a failed frame call leaves the
    component, before the render. *)
Lemma frame_failure_handler (s : State) op msg :
  let s1 := s |> settle op |> analyzeFrame_settle (inl msg) in
  inputText s1 = inputText s /\ imageBase64 s1 = imageBase64 s
  /\ imageMimeType s1 = imageMimeType s
  /\ analysisHistory s1 = analysisHistory s
  /\ error s1 = Some (Literal msg)
  /\ isScreenSharing s1 = false /\ analysisResult s1 = None
  /\ mediaStreamRef s1 = None /\ analysisIntervalRef s1 = None
  /\ isAnalyzingFrame s1 = false /\ isAnalyzingFrameRef s1 = false.
Proof.
  cbv zeta. unfold analyzeFrame_settle.
  destruct (stopScreenSharing_kept
              (setError (Some (Literal msg)) (settle op s)))
    as (K1 & K2 & K3 & K4 & K5 & _).
  destruct (stopScreenSharing_stops
              (setError (Some (Literal msg)) (settle op s)))
    as (S1 & S2 & S3 & S4).
  cbn in *. auto 12.
Qed.

(** A failed frame call tears the session down: the interval of the
    session has left the timer table for good, every track of its stream
    is stopped, the stream and the <video> element are detached and the
    result in progress is cleared. *)
Lemma frame_failure_teardown (s s' : State) op o msg :
  Inv s ->
  findOp op s = Some (AwaitGenerateContent Frame) ->
  analyzeContent_settle o = inl msg ->
  step (GenerateContentSettled op o) s = Some s' ->
  isScreenSharing s' = false /\ videoRef s' = None
  /\ mediaStreamRef s' = None /\ analysisIntervalRef s' = None
  /\ analysisResult s' = None
  /\ (forall m, mediaStreamRef s = Some m ->
        incl (getTracks m) (stoppedTracks s'))
  /\ (forall h, analysisIntervalRef s = Some h ->
        forall evs s3 cap, run evs s' = Some s3 ->
          step (TimerFired h cap) s3 = None).
Proof.
  intros Hinv Hf Ho Hs.
  assert (Hinv' : Inv s') by (eapply step_inv; eauto).
  unfold step in Hs. cbn [handle] in Hs. rewrite Hf, Ho in Hs.
  inversion Hs as [E]. clear Hs.
  destruct (frame_failure_handler s op msg)
    as (_ & _ & _ & _ & _ & Hsh & Hres & Hm & Hi & _).
  match type of E with
  | commit s ?x = s' =>
      destruct (commit_kept s x) as (_ & _ & _ & Ksh & _);
      destruct (commit_refs_kept s x) as (Km & Ki & _);
      destruct (commit_reset s x) as (_ & _ & Kres);
      destruct (commit_browser_kept s x) as (_ & _ & _ & _ & Kst & _);
      pose proof (@commit_absent) as Hca;
      rewrite E in *
  end.
  assert (Esh : isScreenSharing s' = false) by congruence.
  split; [exact Esh|]. split.
  { destruct Hinv' as [Hv _ _ _ _ _]. unfold videoSynced in Hv.
    rewrite Esh in Hv. destruct (videoRef s'); [discriminate|reflexivity]. }
  split; [congruence|]. split; [congruence|]. split.
  { rewrite Kres. destruct (resets _ _); auto. }
  split.
  - intros m Em. rewrite Kst. unfold analyzeFrame_settle, stopScreenSharing.
    cbn. destruct (analysisIntervalRef s); cbn; rewrite Em; cbn;
      destruct (videoRef s); cbn; apply incl_appr, incl_refl.
  - intros h Eh evs s3 cap E3. apply absent_cannot_fire.
    eapply run_absent; eauto. rewrite <- E. apply commit_absent.
    destruct Hinv as [_ _ _ _ Href _].
    unfold analyzeFrame_settle, stopScreenSharing, absent. cbn.
    rewrite Eh. cbn.
    assert (Hab : absentIn h
              (filter (fun t => negb (TimerId_eqb (tid t) h)) (timers s))
              (nextTimer s)).
    { split.
      - intros Hin. apply in_map_iff in Hin. destruct Hin as (t & Et & Ht).
        apply filter_In in Ht. destruct Ht as [_ Ht]. rewrite Et in Ht.
        unfold TimerId_eqb in Ht. rewrite Pos.eqb_refl in Ht. discriminate.
      - unfold intervalRefOk in Href. rewrite Eh in Href. exact Href. }
    destruct (mediaStreamRef s); cbn; destruct (videoRef s); cbn; exact Hab.
Qed.

(** Whether the render after a failed frame call resets the session: it
    does when sharing was on (a dependency changes) and no input is left. *)
Lemma frame_failure_resets (s : State) op msg :
  resets s (s |> settle op |> analyzeFrame_settle (inl msg))
  = isScreenSharing s && noInput s.
Proof.
  destruct (frame_failure_handler s op msg)
    as (E1 & E2 & _ & _ & _ & E3 & _).
  cbv zeta in *. unfold resets, noInput.
  rewrite sameDeps_sharing by (rewrite attachVideo_ui; congruence).
  rewrite attachVideo_ui, E1, E2, E3.
  destruct (isScreenSharing s), (blank (inputText s)),
    (JS.opt_truthy (imageBase64 s)); reflexivity.
Qed.

(** C4 (the code at the failing input). Screen sharing with an empty
    text field: the call of the first tick fails. The session is torn down
    (sharing off, interval gone from the timer table, track 7 stopped,
    stream and <video> detached, result cleared), and the handler has set
    the error message; but the render that follows the teardown finds no
    input left and resets the error, so no error is surfaced. With a text
    in the field the same failure leaves the message in place. *)
Theorem C4_frame_failure_error_lost :
  run frameFailure init = Some (after frameFailure)
  /\ isScreenSharing (after frameFailure) = false
  /\ timers (after frameFailure) = []
  /\ analysisIntervalRef (after frameFailure) = None
  /\ mediaStreamRef (after frameFailure) = None
  /\ stoppedTracks (after frameFailure) = getTracks screen
  /\ videoRef (after frameFailure) = None
  /\ analysisResult (after frameFailure) = None
  /\ error (after frameFailure) = None
  /\ error (after frameFailureWithText)
     = Some (Literal "Failed to get analysis from AI: 503").
Proof.
  split; [vm_compute; reflexivity|].
  split; [vm_compute; reflexivity|].
  split; [vm_compute; reflexivity|].
  split; [vm_compute; reflexivity|].
  split; [vm_compute; reflexivity|].
  split; [vm_compute; reflexivity|].
  split; [vm_compute; reflexivity|].
  split; [vm_compute; reflexivity|].
  split; vm_compute; reflexivity.
Qed.

(** In general: a failed frame call surfaces its message unless sharing
    was on and no input is left. *)
Lemma frame_failure_error (s s' : State) op o msg :
  findOp op s = Some (AwaitGenerateContent Frame) ->
  analyzeContent_settle o = inl msg ->
  step (GenerateContentSettled op o) s = Some s' ->
  error s' = if isScreenSharing s && noInput s then None
             else Some (Literal msg).
Proof.
  intros Hf Ho Hs. unfold step in Hs. cbn [handle] in Hs.
  rewrite Hf, Ho in Hs. inversion Hs as [E]. clear Hs.
  match goal with
  | |- context [commit s ?x] => destruct (commit_reset s x) as (-> & _)
  end.
  rewrite frame_failure_resets.
  destruct (frame_failure_handler s op msg) as (_ & _ & _ & _ & -> & _).
  reflexivity.
Qed.

(** A failed manual/auto call only surfaces its message and ends the
    loading state. *)
Lemma manual_failure (s s' : State) op o msg :
  findOp op s = Some (AwaitGenerateContent Manual) ->
  analyzeContent_settle o = inl msg ->
  step (GenerateContentSettled op o) s = Some s' ->
  ui s' = {| inputText := inputText s; imageBase64 := imageBase64 s;
             imageMimeType := imageMimeType s;
             analysisResult := analysisResult s;
             analysisHistory := analysisHistory s; isLoading := false;
             isAnalyzingFrame := isAnalyzingFrame s;
             error := Some (Literal msg); language := language s;
             socialTopic := socialTopic s;
             isScreenSharing := isScreenSharing s;
             feedbackState := feedbackState s |}
  /\ mediaStreamRef s' = mediaStreamRef s
  /\ analysisIntervalRef s' = analysisIntervalRef s
  /\ timers s' = timers s /\ requests s' = requests s
  /\ stoppedTracks s' = stoppedTracks s.
Proof.
  intros Hf Ho Hs. unfold step in Hs. cbn [handle] in Hs.
  rewrite Hf, Ho in Hs. inversion Hs as [E]. clear Hs.
  match goal with
  | |- context [commit s ?x] =>
      destruct (commit_refs_kept s x) as (-> & -> & _);
      destruct (commit_browser_kept s x) as (_ & _ & _ & -> & -> & _);
      rewrite (@commit_same s x) by reflexivity
  end.
  rewrite attachVideo_ui, attachVideo_timers. cbn.
  split; [reflexivity|]. split; [reflexivity|]. split; [reflexivity|].
  split; [reflexivity|]. split; reflexivity.
Qed.

(** C10 (as amended). When the remote call of an analysis throws, no entry
    is appended to the history and text and image are retained. In the
    manual/auto flow the history is unchanged, the error message is set
    and the loading flag is cleared. In the frame flow both in-flight
    flags are cleared and the share session is torn down; the history is
    unchanged and the error message is set when some input is left or
    sharing was already off, and the history is emptied by the reset when
    sharing was on and no input is left. *)
Theorem C10_failure_effects (s s' : State) (op : nat) (o : Outcome)
  (msg : string) (flow : Flow) :
  findOp op s = Some (AwaitGenerateContent flow) ->
  analyzeContent_settle o = inl msg ->
  step (GenerateContentSettled op o) s = Some s' ->
  inputText s' = inputText s /\ imageBase64 s' = imageBase64 s
  /\ imageMimeType s' = imageMimeType s
  /\ (analysisHistory s' = analysisHistory s \/ analysisHistory s' = [])
  /\ match flow with
     | Manual =>
         analysisHistory s' = analysisHistory s
         /\ error s' = Some (Literal msg)
         /\ isLoading s' = false
         /\ isScreenSharing s' = isScreenSharing s
     | Frame =>
         isAnalyzingFrame s' = false /\ isAnalyzingFrameRef s' = false
         /\ isScreenSharing s' = false /\ mediaStreamRef s' = None
         /\ analysisIntervalRef s' = None
         /\ (isScreenSharing s && noInput s = false ->
               analysisHistory s' = analysisHistory s
               /\ error s' = Some (Literal msg))
         /\ (isScreenSharing s && noInput s = true ->
               analysisHistory s' = [])
     end.
Proof.
  intros Hf Ho Hs. destruct flow.
  - destruct (@manual_failure _ _ _ _ _ Hf Ho Hs) as (Eu & _).
    unfold inputText, imageBase64, imageMimeType, analysisHistory, error,
      isLoading, isScreenSharing.
    rewrite Eu. cbn. auto 10.
  - pose proof (@frame_failure_error _ _ _ _ _ Hf Ho Hs) as Eerr.
    unfold step in Hs. cbn [handle] in Hs.
    rewrite Hf, Ho in Hs. inversion Hs as [E]. clear Hs.
    destruct (frame_failure_handler s op msg)
      as (E1 & E2 & E3 & E4 & _ & E6 & _ & E8 & E9 & E10 & E11).
    cbv zeta in *.
    match type of E with
    | commit s ?x = s' =>
        destruct (commit_kept s x) as (K1 & K2 & K3 & K4 & _ & K6 & _);
        destruct (commit_refs_kept s x) as (R1 & R2 & R3 & _);
        destruct (commit_reset s x) as (_ & Kh & _);
        rewrite frame_failure_resets in Kh;
        rewrite E in *
    end.
    rewrite K1, K2, K3, K4, K6, R1, R2, R3, Kh, E1, E2, E3, E4, E6, E8, E9,
      E10, E11.
    rewrite Eerr.
    destruct (isScreenSharing s && noInput s); repeat split; auto;
      discriminate.
Qed.

Lemma C10_failure_effects_witness :
  analysisHistory (after (analysedWith "{")) = analysisHistory
    (after [ChangeText "hi"; ClickAnalyze])
  /\ error (after (analysedWith "{"))
     = Some (Literal (String.append "Failed to get analysis from AI: "
                        syntaxErrorMessage)).
Proof.
  destruct (@C10_failure_effects (after [ChangeText "hi"; ClickAnalyze])
              (after (analysedWith "{")) 0%nat (Responded "{")
              (String.append "Failed to get analysis from AI: "
                 syntaxErrorMessage) Manual)
    as (_ & _ & _ & _ & H1 & H2 & _).
  - vm_compute. reflexivity.
  - vm_compute. reflexivity.
  - vm_compute. reflexivity.
  - split; assumption.
Defined.

(** C10 as it is stated fails: with an empty text field, one frame
    analysed successfully (its result has the declared type) and the call
    of the next frame failing, the history holds one entry before the
    failure and none after it. Every render of the run finds typed
    results. *)
Lemma C10_history_counterexample :
  exists s s',
    runTyped (removelast frameFailureAfterSuccess) init = Some s
    /\ runTyped frameFailureAfterSuccess init = Some s'
    /\ step (GenerateContentSettled 2 (Threw "503")) s = Some s'
    /\ findOp 2 s = Some (AwaitGenerateContent Frame)
    /\ analysisHistory s = [resultWith 50]
    /\ analysisHistory s' = []
    /\ analysisHistory s' <> analysisHistory s.
Proof.
  exists (after (removelast frameFailureAfterSuccess)),
         (after frameFailureAfterSuccess).
  split; [vm_compute; reflexivity|].
  split; [vm_compute; reflexivity|].
  split; [vm_compute; reflexivity|].
  split; [vm_compute; reflexivity|].
  split; [vm_compute; reflexivity|].
  split; [vm_compute; reflexivity|].
  vm_compute. discriminate.
Qed.

(** ** Upload against share (C6) *)

(** Both handlers clear the other mode before they suspend. *)
Lemma handleImageChange_stops_share (s : State) (file : File) :
  (size file <= maxImageSize)%N ->
  isScreenSharing (handleImageChange (Some file) s) = false
  /\ mediaStreamRef (handleImageChange (Some file) s) = None
  /\ pending (handleImageChange (Some file) s)
     = pending s ++ [(nextOp s, AwaitFileReader (type file) (language s))].
Proof.
  intros Hsz. unfold handleImageChange.
  apply N.ltb_ge in Hsz. rewrite Hsz.
  destruct (stopScreenSharing_stops s) as (S1 & _ & S3 & _).
  destruct (stopScreenSharing_kept s)
    as (_ & _ & _ & _ & _ & _ & K7 & K8 & K9 & _).
  revert S1 S3 K7 K8 K9. generalize (stopScreenSharing s).
  intros s0 S1 S3 K7 K8 K9.
  split; [exact S1|]. split; [exact S3|].
  cbn. rewrite K8, K9. reflexivity.
Qed.

Lemma startScreenSharing_clears_image (s : State) :
  imageBase64 (startScreenSharing s) = None
  /\ imageMimeType (startScreenSharing s) = None.
Proof. split; reflexivity. Qed.

(** C6 (the code at the failing input). The user asks to share the screen;
    while the browser's prompt is open a file is uploaded and read; then
    the prompt is answered. Each handler cleared the other mode before it
    suspended, but none looks again when it resumes: the state reached
    has both a stored uploaded image and an active screen share. *)
Theorem C6_upload_races_share_start :
  run uploadDuringSharePrompt init = Some (after uploadDuringSharePrompt)
  /\ imageBase64 (after uploadDuringSharePrompt) = Some "AAAA"
  /\ imageMimeType (after uploadDuringSharePrompt) = Some "image/png"
  /\ isScreenSharing (after uploadDuringSharePrompt) = true
  /\ mediaStreamRef (after uploadDuringSharePrompt) = Some screen
  /\ reachable (after uploadDuringSharePrompt).
Proof.
  split; [vm_compute; reflexivity|].
  split; [vm_compute; reflexivity|].
  split; [vm_compute; reflexivity|].
  split; [vm_compute; reflexivity|].
  split; [vm_compute; reflexivity|].
  exists uploadDuringSharePrompt. vm_compute. reflexivity.
Qed.

(** ** Where the exclusion of upload and share holds *)

Lemma existsb_filter {A} (p q : A -> bool) l :
  existsb p (filter q l) = true -> existsb p l = true.
Proof.
  intros H. apply existsb_exists in H. destruct H as (x & Hx & Hp).
  apply filter_In in Hx. apply existsb_exists. exists x. tauto.
Qed.

Lemma existsb_snoc {A} (p : A -> bool) l x :
  existsb p (l ++ [x]) = existsb p l || p x.
Proof. rewrite existsb_app. cbn. rewrite orb_false_r. reflexivity. Qed.

Lemma existsb_filter_false {A} (p q : A -> bool) l :
  existsb p l = false -> existsb p (filter q l) = false.
Proof.
  intros H. destruct (existsb p (filter q l)) eqn:E; auto.
  apply existsb_filter in E. congruence.
Qed.

Lemma exclusiveOn_settle img sh ps q :
  exclusiveOn img sh ps -> exclusiveOn img sh (filter q ps).
Proof.
  intros (H1 & H2 & H3). split; [exact H1|split].
  - intros E. apply existsb_filter in E. destruct (H2 E) as [E1 E2].
    split; auto using existsb_filter_false.
  - intros E. apply existsb_filter in E. auto.
Qed.

Lemma exclusiveOn_stop img ps :
  exclusiveOn img true ps \/ exclusiveOn img false ps ->
  exclusiveOn img false ps.
Proof.
  intros [(H1 & H2 & H3)|H]; [|exact H]. split; [discriminate|split]; auto.
  intros E. destruct (H2 E) as [E1 _]. discriminate.
Qed.

Lemma exclusiveOn_other img sh ps e :
  isFileRead e = false -> isDisplayRequest e = false ->
  exclusiveOn img sh ps -> exclusiveOn img sh (ps ++ [e]).
Proof.
  intros E1 E2 H. unfold exclusiveOn. rewrite !existsb_snoc, E1, E2.
  rewrite !orb_false_r. exact H.
Qed.

Lemma exclusiveOn_image_removed img sh ps :
  exclusiveOn img sh ps -> exclusiveOn None sh ps.
Proof. intros (H1 & H2 & H3). split; [|split]; auto. Qed.

Lemma exclusiveOn_any_stop img sh ps :
  exclusiveOn img sh ps -> exclusiveOn img false ps.
Proof.
  intros H. apply exclusiveOn_stop. destruct sh; auto.
Qed.

Lemma exclusiveOn_start ps e :
  existsb isFileRead ps = false -> isFileRead e = false ->
  exclusiveOn None false (ps ++ [e]).
Proof.
  intros E1 E2. split; [discriminate|split]; auto.
  rewrite existsb_snoc, E1, E2. discriminate.
Qed.

Lemma exclusiveOn_read (img : option string) ps e :
  existsb isDisplayRequest ps = false -> isDisplayRequest e = false ->
  exclusiveOn img false (ps ++ [e]).
Proof.
  intros E1 E2. split; [discriminate|split].
  - intros _. rewrite existsb_snoc, E1, E2. auto.
  - rewrite existsb_snoc, E1, E2. discriminate.
Qed.

Lemma found_pending (p : nat * Pending -> bool) op ps e :
  find (fun e => Nat.eqb (fst e) op) ps = Some e -> p e = true ->
  existsb p ps = true.
Proof.
  intros Hf Hp. apply find_some in Hf. apply existsb_exists.
  exists e. tauto.
Qed.

(** Settling a file read: sharing is off and no request for the screen is
    pending, so storing the image keeps the exclusion. *)
Lemma exclusiveOn_loaded img img' sh ps q :
  existsb isFileRead ps = true ->
  exclusiveOn img sh ps -> exclusiveOn img' sh (filter q ps).
Proof.
  intros E (H1 & H2 & H3). destruct (H2 E) as [-> Hd].
  split; [discriminate|split].
  - intros _. split; auto using existsb_filter_false.
  - rewrite existsb_filter_false by exact Hd. discriminate.
Qed.

(** Settling a request for the screen: no image is stored and no file is
    being read, so turning sharing on keeps the exclusion. *)
Lemma exclusiveOn_granted img sh sh' ps q :
  existsb isDisplayRequest ps = true ->
  exclusiveOn img sh ps -> exclusiveOn img sh' (filter q ps).
Proof.
  intros E (H1 & H2 & H3). rewrite (H3 E).
  split; [reflexivity|split; [|reflexivity]].
  intros Ef. apply existsb_filter in Ef. destruct (H2 Ef) as [_ Hd].
  congruence.
Qed.

Lemma commit_exclusive (prev s : State) :
  exclusive s -> exclusive (commit prev s).
Proof.
  unfold exclusive.
  destruct (commit_kept prev s) as (_ & -> & _ & -> & _).
  destruct (commit_browser_kept prev s) as (_ & -> & _). auto.
Qed.

Lemma handle_exclusive ev (s s' : State) :
  exclusive s -> apart ev s = true -> handle ev s = Some s' -> exclusive s'.
Proof.
  unfold exclusive. intros H Ha E. destruct ev; cbn [handle apart] in *.
  - inversion E; subst; exact H.
  - inversion E; subst; exact H.
  - inversion E; subst. destruct (isLoading s); exact H.
  - inversion E; subst. by_cases; cbn;
      apply exclusiveOn_other; auto.
  - inversion E; subst. by_cases; cbn; eauto using exclusiveOn_image_removed.
  - inversion E; subst. clear E.
    destruct (isLoading s); [exact H|].
    destruct (isScreenSharing s) eqn:Es.
    + by_cases; cbn; eauto using exclusiveOn_any_stop.
    + cbn in Ha. apply negb_true_iff in Ha.
      unfold startScreenSharing, handleRemoveImage, await. cbn. rewrite Es.
      apply exclusiveOn_start; auto.
  - inversion E; subst. clear E. destruct f as [file|]; [|exact H].
    apply negb_true_iff in Ha.
    by_cases; cbn; try exact H; apply exclusiveOn_read; auto.
  - inversion E; subst. destruct (analysisResult s); exact H.
  - destruct (_ && _); [|discriminate]. inversion E; subst.
    by_cases; cbn; eauto using exclusiveOn_any_stop.
  - destruct (0 <=? dt)%Z; [|discriminate]. inversion E; subst. exact H.
  - unfold fireTimer in E.
    destruct (findTimer h s) as [t|]; [|discriminate].
    destruct (due t <=? now s)%Z; [|discriminate]. inversion E; subst.
    by_cases; cbn; auto; apply exclusiveOn_other; auto.
  - destruct (findOp op s) as [p|] eqn:Hf; [|discriminate].
    destruct p as [[]| |]; try discriminate; inversion E; subst;
      by_cases; cbn;
      eauto using exclusiveOn_settle, exclusiveOn_any_stop.
  - destruct (findOp op s) as [p|] eqn:Hf; [|discriminate].
    apply findOp_find in Hf. destruct Hf as (e & Hf & <-).
    destruct (snd e) as [[]| |] eqn:Hs; try discriminate; inversion E; subst.
    assert (Hp : filePending s = true).
    { eapply found_pending; eauto. unfold isFileRead. rewrite Hs. auto. }
    by_cases; cbn; eapply exclusiveOn_loaded; eauto.
  - destruct (findOp op s) as [p|] eqn:Hf; [|discriminate].
    apply findOp_find in Hf. destruct Hf as (e & Hf & <-).
    destruct (snd e) as [[]| |] eqn:Hs; try discriminate; inversion E; subst.
    assert (Hp : displayPending s = true).
    { eapply found_pending; eauto. unfold isDisplayRequest. rewrite Hs. auto. }
    by_cases; cbn; eapply exclusiveOn_granted; eauto.
Qed.

(** As long as the upload of a file and the start of a share do not
    overlap, no state has both a stored image and an active share. *)
Lemma apart_exclusive evs : forall s s' : State,
  exclusive s -> runApart evs s = Some s' -> exclusive s'.
Proof.
  induction evs as [|ev evs IH]; cbn; intros s s' H E.
  - inversion E; subst; exact H.
  - destruct (apart ev s) eqn:Ha; [|discriminate].
    unfold step in E. destruct (handle ev s) as [s1|] eqn:E1; [|discriminate].
    apply (IH (commit s s1) s'); [|exact E].
    apply commit_exclusive. eapply handle_exclusive; eauto.
Qed.

(** X10. As long as the upload of a file and the start of a share do not
    overlap, no state that the component reaches has both a stored image
    and an active screen share. *)
Lemma apart_no_image_while_sharing evs (s : State) :
  runApart evs init = Some s ->
  isScreenSharing s = true -> imageBase64 s = None.
Proof.
  intros E. apply apart_exclusive in E.
  - destruct E as (H & _). exact H.
  - split; [|split]; cbn; try discriminate; auto.
Qed.

(** * Further properties of the component *)

(** ** The history *)

Lemma handler_history ev (s s1 : State) :
  handle ev s = Some s1 ->
  analysisHistory s1 = analysisHistory s
  \/ exists result, analysisHistory s1 = pushHistory result (analysisHistory s).
Proof.
  intros E. destruct ev; cbn [handle] in E.
  - inversion E; subst. left. reflexivity.
  - inversion E; subst. left. reflexivity.
  - inversion E; subst. left. destruct (isLoading s); reflexivity.
  - inversion E; subst. left. by_cases.
  - inversion E; subst. left. by_cases.
  - inversion E; subst. left. by_cases.
  - inversion E; subst. left. by_cases.
  - inversion E; subst. left. destruct (analysisResult s); reflexivity.
  - destruct (_ && _); [|discriminate]. inversion E; subst. left. by_cases.
  - destruct (0 <=? dt)%Z; [|discriminate]. inversion E; subst. left.
    reflexivity.
  - left. revert E. unfold fireTimer.
    destruct (findTimer h s) as [t|]; [|discriminate].
    destruct (due t <=? now s)%Z; [|discriminate].
    intros E. inversion E; subst. by_cases.
  - destruct (findOp op s) as [[[]| |]|]; try discriminate;
      inversion E; subst; clear E;
      destruct (analyzeContent_settle o) as [msg|result].
    + left. by_cases.
    + right. exists result. reflexivity.
    + left. by_cases.
    + unfold analyzeFrame_settle.
      destruct (mediaStreamRef (settle op s)).
      * right. exists result. reflexivity.
      * left. reflexivity.
  - destruct (findOp op s) as [[[]| |]|]; try discriminate.
    inversion E; subst. left. by_cases.
  - destruct (findOp op s) as [[[]| |]|]; try discriminate.
    inversion E; subst. left. by_cases.
Qed.

Lemma commit_history (prev s : State) :
  analysisHistory (commit prev s) = analysisHistory s
  \/ analysisHistory (commit prev s) = [].
Proof.
  destruct (commit_reset prev s) as (_ & H & _). rewrite H.
  destruct (resets prev s); auto.
Qed.

(** X1. The history changes in two ways only: every event leaves it as it
    is, appends one result and keeps the last 15, or empties it; so it
    never holds more than 15 results. *)
Theorem history_changes (s : State) :
  reachable s ->
  (List.length (analysisHistory s) <= 15)%nat
  /\ forall ev s', step ev s = Some s' ->
       analysisHistory s' = analysisHistory s
       \/ analysisHistory s' = []
       \/ exists result,
            analysisHistory s' = pushHistory result (analysisHistory s).
Proof.
  intros Hr. split.
  - apply reachable_inv in Hr. apply Hr.
  - intros ev s'. unfold step.
    destruct (handle ev s) as [s1|] eqn:E; [|discriminate].
    intros E1. inversion E1; subst. clear E1.
    destruct (commit_history s s1) as [-> | ->]; auto.
    destruct (handler_history _ _ E) as [-> | [r ->]]; eauto.
Qed.

Lemma history_changes_witness :
  (List.length (analysisHistory (after twentyAnalyses)) <= 15)%nat.
Proof.
  refine (proj1 (@history_changes (after twentyAnalyses) _)).
  exists twentyAnalyses. vm_compute. reflexivity.
Defined.

(** ** The in-flight flags *)

Lemma handle_spinner ev (s s' : State) :
  handle ev s = Some s' -> spinnerSynced s -> spinnerSynced s'.
Proof.
  apply handle_preserves; unfold spinnerSynced; try by_cases; cbn; auto;
    congruence.
Qed.

Lemma commit_spinner (prev s : State) :
  spinnerSynced s -> spinnerSynced (commit prev s).
Proof.
  unfold spinnerSynced.
  destruct (commit_kept prev s) as (_ & _ & _ & _ & _ & -> & _).
  destruct (commit_refs_kept prev s) as (_ & _ & -> & _). auto.
Qed.

Lemma run_spinner evs : forall s s' : State,
  run evs s = Some s' -> spinnerSynced s -> spinnerSynced s'.
Proof.
  induction evs as [|ev evs IH]; cbn; intros s s' E H.
  - inversion E; subst; exact H.
  - unfold step in E. destruct (handle ev s) as [s1|] eqn:E1; [|discriminate].
    eapply IH; [exact E|]. apply commit_spinner. eapply handle_spinner; eauto.
Qed.

Lemma reachable_spinner s : reachable s -> spinnerSynced s.
Proof.
  intros [evs E]. eapply run_spinner; [exact E|]. reflexivity.
Qed.

(** X2. Each flag counts the calls of its flow that have not settled: the
    loading flag is set exactly while one manual or debounced call is
    pending, the spinner over the video exactly while one frame call is
    pending, and no flow ever has two calls pending. *)
Theorem flags_count_pending_calls (s : State) :
  reachable s ->
  inFlight Manual (pending s) = Nat.b2n (isLoading s)
  /\ inFlight Frame (pending s) = Nat.b2n (isAnalyzingFrame s)
  /\ (inFlight Manual (pending s) <= 1)%nat.
Proof.
  intros Hr. pose proof (reachable_spinner Hr) as Hs.
  apply reachable_inv in Hr. destruct Hr as [_ _ _ _ _ (_ & _ & Hm & Hf)].
  unfold spinnerSynced in Hs. rewrite Hs. split; [|split]; auto.
  rewrite Hm. destruct (isLoading s); cbn; lia.
Qed.

Lemma flags_count_pending_calls_witness :
  inFlight Frame (pending (after stoppedWhilePending))
  = Nat.b2n (isAnalyzingFrame (after stoppedWhilePending)).
Proof.
  refine (proj1 (proj2 (@flags_count_pending_calls
                          (after stoppedWhilePending) _))).
  exists stoppedWhilePending. vm_compute. reflexivity.
Defined.

(** ** The debounce timeout *)

Lemma sameDeps_true (a b : State) :
  sameDeps a b = true ->
  inputText a = inputText b /\ imageBase64 a = imageBase64 b
  /\ isScreenSharing a = isScreenSharing b.
Proof.
  unfold sameDeps. intros H.
  apply andb_true_iff in H. destruct H as [H H3].
  apply andb_true_iff in H. destruct H as [H1 H2].
  apply String.eqb_eq in H1. apply eqb_prop in H3.
  split; [exact H1|]. split; [|exact H3].
  destruct (imageBase64 a) as [x|], (imageBase64 b) as [y|]; cbn in H2;
    try discriminate; auto.
  apply String.eqb_eq in H2. congruence.
Qed.

Lemma rearm_debounce h d t :
  isDebounce (rearm h d t) = isDebounce t /\ tid (rearm h d t) = tid t.
Proof. unfold rearm. destruct (TimerId_eqb (tid t) h); auto. Qed.

Lemma debounceAmong_filter ids p (s : State) :
  debounceAmong ids s -> debounceAmong ids (setTimers (filter p (timers s)) s).
Proof.
  unfold debounceAmong. cbn. intros H t Ht. apply filter_In in Ht.
  apply H, Ht.
Qed.

Lemma debounceAmong_rearm ids h d (s : State) :
  debounceAmong ids s ->
  debounceAmong ids (setTimers (map (rearm h d) (timers s)) s).
Proof.
  unfold debounceAmong. cbn. intros H t Ht Hd.
  apply in_map_iff in Ht. destruct Ht as (t0 & <- & Ht0).
  destruct (rearm_debounce h d t0) as [E1 E2]. rewrite E2. rewrite E1 in Hd.
  auto.
Qed.

Lemma debounceAmong_timers ids (s s1 : State) :
  timers s1 = timers s -> debounceAmong ids s -> debounceAmong ids s1.
Proof. unfold debounceAmong. intros ->. auto. Qed.

Lemma debounceAmong_interval ids (s s1 : State) t :
  timers s1 = timers s ++ [t] -> isDebounce t = false ->
  debounceAmong ids s -> debounceAmong ids s1.
Proof.
  unfold debounceAmong. intros -> Ht H t' Hin Hd.
  apply in_app_iff in Hin. destruct Hin as [Hin|[<-|[]]]; auto.
  congruence.
Qed.

Lemma handle_debounceAmong ids ev (s s' : State) :
  handle ev s = Some s' -> debounceAmong ids s -> debounceAmong ids s'.
Proof.
  apply handle_preserves; auto using debounceAmong_filter, debounceAmong_rearm.
  all: try solve [intros; eapply debounceAmong_timers; [|eassumption];
                  by_cases].
  - intros s0 H. unfold stopScreenSharing.
    destruct (analysisIntervalRef s0) as [h|].
    + apply (debounceAmong_filter (fun t => negb (TimerId_eqb (tid t) h))) in H.
      revert H. apply debounceAmong_timers. by_cases.
    + revert H. apply debounceAmong_timers. by_cases.
  - intros f s0 H. unfold handleImageChange.
    destruct f as [file|]; [|exact H].
    destruct (maxImageSize <? size file)%N; [exact H|].
    unfold stopScreenSharing.
    destruct (analysisIntervalRef s0) as [h|].
    + apply (debounceAmong_filter (fun t => negb (TimerId_eqb (tid t) h))) in H.
      revert H. apply debounceAmong_timers. by_cases.
    + revert H. apply debounceAmong_timers. by_cases.
  - intros r op e s0 H _ _. unfold analyzeFrame_settle.
    destruct r as [msg|result].
    + unfold stopScreenSharing. cbn.
      destruct (analysisIntervalRef s0) as [h|].
      * apply (debounceAmong_filter
                 (fun t => negb (TimerId_eqb (tid t) h))) in H.
        revert H. apply debounceAmong_timers. by_cases.
      * revert H. apply debounceAmong_timers. by_cases.
    + revert H. apply debounceAmong_timers. by_cases.
  - intros r op e s0 H _ _. destruct r as [stream|].
    + eapply debounceAmong_interval; [| |exact H].
      * unfold startScreenSharing_settle, addTimer. by_cases.
      * reflexivity.
    + revert H. apply debounceAmong_timers. reflexivity.
Qed.

Lemma debounceTimers_none (s : State) :
  debounceTimers s = [] <->
  (forall t, In t (timers s) -> isDebounce t = false).
Proof.
  unfold debounceTimers. split.
  - intros H t Hin. destruct (isDebounce t) eqn:E; auto.
    assert (Hf : In t (filter isDebounce (timers s)))
      by (apply filter_In; auto).
    rewrite H in Hf. destruct Hf.
  - intros H. induction (timers s) as [|t ts IH]; cbn; auto.
    rewrite (H t) by (left; reflexivity). apply IH.
    intros t' Ht'. apply H. right. exact Ht'.
Qed.

Lemma debounceAmong_self (s : State) :
  debounceAmong (map tid (debounceTimers s)) s.
Proof.
  intros t Hin Hd. apply in_map. apply filter_In. auto.
Qed.

Lemma step_debounceArmed ev (s s' : State) :
  step ev s = Some s' -> Inv s -> debounceArmed s -> debounceArmed s'.
Proof.
  unfold step. destruct (handle ev s) as [s1|] eqn:E; [|discriminate].
  intros E1 Hi Ha. inversion E1; subst. clear E1.
  assert (Ht : timersInv s1) by (eapply handle_timers; eauto; apply Hi).
  unfold debounceArmed, autoAnalysisInput.
  destruct (commit_kept s s1) as (-> & -> & _ & -> & _).
  destruct (sameDeps s (attachVideo s1)) eqn:Hd.
  - unfold commit. cbv zeta. rewrite Hd.
    unfold debounceTimers. rewrite attachVideo_timers. intros Hne.
    apply sameDeps_true in Hd. rewrite attachVideo_ui in Hd.
    destruct Hd as (<- & <- & <-). apply Ha.
    intros Hnone. apply Hne. apply debounceTimers_none.
    intros t Hin. destruct (isDebounce t) eqn:Et; auto.
    pose proof (@handle_debounceAmong _ _ _ _ E (debounceAmong_self s) t Hin Et)
      as Hx.
    rewrite Hnone in Hx. destruct Hx.
  - destruct (@commit_changed_timers _ _ Hd Ht) as [-> _].
    destruct (isScreenSharing s1); cbn; [congruence|].
    destruct (JS.opt_truthy (imageBase64 s1)); cbn; [congruence|].
    destruct (blank (inputText s1)); cbn; congruence.
Qed.

Lemma reachable_debounceArmed s : reachable s -> debounceArmed s.
Proof.
  intros [evs E].
  assert (H : Inv init /\ debounceArmed init).
  { split; [apply init_inv|]. intros H. exfalso. apply H. reflexivity. }
  revert H E. generalize init. induction evs as [|ev evs IH]; cbn.
  - intros s0 [_ H] E. inversion E; subst. exact H.
  - intros s0 [Hi Ha]. destruct (step ev s0) as [s1|] eqn:E1; [|discriminate].
    apply IH. split; [eapply step_inv; eauto|].
    eapply step_debounceArmed; eauto.
Qed.

Lemma one_of_a_kind {A B} (f : A -> B) (l : list A) c :
  NoDup (map f l) -> (forall x, In x l -> f x = c) ->
  (List.length l <= 1)%nat.
Proof.
  destruct l as [|a [|b l]]; cbn; intros Hn Hc; auto.
  exfalso. inversion Hn as [|? ? Hnot _]; subst. apply Hnot.
  left. rewrite (Hc a), (Hc b); auto.
Qed.

Lemma debounce_at_most_one (s : State) :
  timersInv s -> (List.length (debounceTimers s) <= 1)%nat.
Proof.
  intros (_ & Hn & Hd & _).
  destruct (debounceCleanup s) as [h|] eqn:Ec.
  - apply one_of_a_kind with (f := tid) (c := h).
    + apply NoDup_map_filter, Hn.
    + intros t Ht. apply filter_In in Ht. destruct Ht as [Hin Ht].
      destruct (Hd t Hin Ht) as [E _]. congruence.
  - replace (debounceTimers s) with (@nil Timer); auto.
    symmetry. apply debounceTimers_none.
    intros t Hin. destruct (isDebounce t) eqn:Et; auto.
    destruct (Hd t Hin Et) as [E _]. discriminate.
Qed.

(** X3. The automatic analysis is for typed text only. In every state the
    component can reach at most one debounce timeout is pending, and one
    is pending only while the screen is not shared, no image is stored
    and the text is not blank. When the timeout runs, it sends nothing if
    an analysis is loading, and otherwise exactly one request, whose only
    part is the text as typed and whose instruction is the one for text
    without an image. *)
Theorem auto_analysis_is_text_only (s : State) :
  reachable s ->
  (List.length (debounceTimers s) <= 1)%nat
  /\ (debounceTimers s <> [] ->
        isScreenSharing s = false
        /\ JS.opt_truthy (imageBase64 s) = false
        /\ blank (inputText s) = false)
  /\ forall h cap t s',
       findTimer h s = Some t -> callback t = CallAnalysisFn ->
       step (TimerFired h cap) s = Some s' ->
       if isLoading s
       then requests s' = requests s /\ pending s' = pending s
       else exists r,
              requests s' = requests s ++ [r]
              /\ parts r = [TextPart (inputText s)]
              /\ imageInstruction r = false
              /\ reqLanguage r = language s /\ reqTopic r = socialTopic s
              /\ isLoading s' = true.
Proof.
  intros Hr. pose proof (reachable_debounceArmed Hr) as Ha.
  apply reachable_inv in Hr. destruct Hr as [_ _ Ht _ _ _].
  assert (Hcond : debounceTimers s <> [] ->
                  isScreenSharing s = false
                  /\ JS.opt_truthy (imageBase64 s) = false
                  /\ blank (inputText s) = false).
  { intros Hne. specialize (Ha Hne). unfold autoAnalysisInput in Ha.
    apply andb_true_iff in Ha. destruct Ha as [Ha H3].
    apply andb_true_iff in Ha. destruct Ha as [H1 H2].
    apply negb_true_iff in H1, H2, H3. auto. }
  split; [apply debounce_at_most_one, Ht|]. split; [exact Hcond|].
  intros h cap t s' Hf Hc.
  assert (Hin : In t (timers s)).
  { unfold findTimer in Hf. apply find_some in Hf. apply Hf. }
  assert (Hd : isDebounce t = true) by (unfold isDebounce; rewrite Hc; auto).
  destruct Hcond as (Hs & Himg & Hb).
  { intros Hnone. rewrite debounceTimers_none in Hnone.
    rewrite (Hnone t Hin) in Hd. discriminate. }
  destruct Ht as (_ & _ & Hdeb & _). destruct (Hdeb t Hin Hd) as [_ He].
  unfold step. cbn [handle]. unfold fireTimer. rewrite Hf.
  destruct (due t <=? now s)%Z; [|discriminate].
  rewrite He, Hc. cbn [runCallback].
  intros E. inversion E; subst. clear E.
  destruct (commit_browser_kept s (handleAnalyze (clearTimer h s)))
    as (_ & -> & _ & -> & _).
  destruct (commit_kept s (handleAnalyze (clearTimer h s)))
    as (_ & _ & _ & _ & -> & _).
  unfold handleAnalyze. cbn [clearTimer]. cbn.
  rewrite Hb, Himg. cbn.
  destruct (isLoading s) eqn:El; cbn; [auto|].
  eexists. split; [reflexivity|].
  split; [apply buildRequest_text; auto|].
  unfold buildRequest. cbn. auto.
Qed.

Lemma auto_analysis_is_text_only_witness :
  (List.length (debounceTimers (after (burstEvents typing))) <= 1)%nat.
Proof.
  refine (proj1 (@auto_analysis_is_text_only (after (burstEvents typing)) _)).
  exists (burstEvents typing). vm_compute. reflexivity.
Defined.

(** ** Frames *)

(** X4. A tick of the frame interval captures and sends a frame only while
    the screen is shared and no frame call is in flight. The request it
    then sends carries the text, language and topic of the moment, and
    the captured frame as its image of type image/jpeg; the spinner over
    the video is switched on and an earlier error message is cleared.
    Otherwise the tick sends nothing. *)
Theorem frame_tick (s s' : State) h cap t :
  reachable s ->
  findTimer h s = Some t -> callback t = CallAnalysisFrameFn ->
  step (TimerFired h cap) s = Some s' ->
  if isScreenSharing s && negb (isAnalyzingFrameRef s) && hasContext cap
  then requests s'
       = requests s ++ [buildRequest (inputText s) (language s)
                          (socialTopic s)
                          (JS.split_comma_1 (frameDataUrl cap))
                          (Some "image/jpeg")]
       /\ pending s' = pending s ++ [(nextOp s, AwaitGenerateContent Frame)]
       /\ isAnalyzingFrame s' = true /\ error s' = None
       /\ analysisResult s' = analysisResult s
  else requests s' = requests s /\ pending s' = pending s /\ ui s' = ui s.
Proof.
  intros Hr Hf Hc. apply reachable_inv in Hr.
  destruct Hr as [Hv _ _ Hi _ _].
  unfold step. cbn [handle].
  destruct (fireTimer h cap s) as [s1|] eqn:E; [|discriminate].
  destruct (@fireTimer_interval _ _ _ _ _ Hf Hc Hi E) as [_ ->].
  intros E1. inversion E1; subst. clear E1 E.
  unfold videoSynced in Hv. unfold analyzeFrame. cbn.
  destruct (isAnalyzingFrameRef s) eqn:Ef.
  - rewrite andb_false_r. cbn. rewrite commit_same by reflexivity.
    rewrite attachVideo_ui, attachVideo_browser. auto.
  - destruct (videoRef s) as [v|] eqn:Ev; rewrite Hv; cbn.
    + destruct (hasContext cap); cbn.
      * rewrite commit_same by reflexivity.
        rewrite attachVideo_ui, attachVideo_browser. cbn. auto.
      * rewrite commit_same by reflexivity.
        rewrite attachVideo_ui, attachVideo_browser. auto.
    + rewrite commit_same by reflexivity.
      rewrite attachVideo_ui, attachVideo_browser. auto.
Qed.

Lemma frame_tick_witness :
  requests (after [ClickShare; GetDisplayMediaSettled 0 (Some screen);
                   Elapse 5000; TimerFired 1 frame])
  = requests (after [ClickShare; GetDisplayMediaSettled 0 (Some screen);
                     Elapse 5000])
    ++ [buildRequest "" en general (Some "FRAME") (Some "image/jpeg")].
Proof.
  refine (proj1 (@frame_tick
                   (after [ClickShare; GetDisplayMediaSettled 0 (Some screen);
                           Elapse 5000])
                   (after [ClickShare; GetDisplayMediaSettled 0 (Some screen);
                           Elapse 5000; TimerFired 1 frame])
                   1%positive frame
                   {| tid := 1; due := 5000; every := Some 5000%Z;
                      callback := CallAnalysisFrameFn |} _ _ _ _)).
  - exists [ClickShare; GetDisplayMediaSettled 0 (Some screen); Elapse 5000].
    vm_compute. reflexivity.
  - vm_compute. reflexivity.
  - reflexivity.
  - vm_compute. reflexivity.
Defined.

(** ** Stopping the share *)

Lemma find_cleared h (ts : list Timer) :
  find (fun t => TimerId_eqb (tid t) h)
    (filter (fun t => negb (TimerId_eqb (tid t) h)) ts) = None.
Proof.
  induction ts as [|t ts IH]; cbn; auto.
  destruct (TimerId_eqb (tid t) h) eqn:Et; cbn; auto.
  rewrite Et. exact IH.
Qed.

Lemma stopScreenSharing_twice (s : State) :
  stopScreenSharing (stopScreenSharing s) = stopScreenSharing s.
Proof.
  destruct s as [u [fv vr ms ir fr dc] b]. unfold stopScreenSharing. cbn.
  destruct ir, ms, vr; reflexivity.
Qed.

Lemma stopScreenSharing_tracks (s : State) :
  stoppedTracks (stopScreenSharing s)
  = match mediaStreamRef s with
    | Some m => stoppedTracks s ++ getTracks m
    | None => stoppedTracks s
    end.
Proof.
  unfold stopScreenSharing.
  destruct (analysisIntervalRef s); cbn; destruct (mediaStreamRef s); cbn;
    destruct (videoRef s); reflexivity.
Qed.

Lemma stopScreenSharing_timers (s : State) :
  timers (stopScreenSharing s)
  = match analysisIntervalRef s with
    | Some h => filter (fun t => negb (TimerId_eqb (tid t) h)) (timers s)
    | None => timers s
    end.
Proof.
  unfold stopScreenSharing.
  destruct (analysisIntervalRef s); cbn; destruct (mediaStreamRef s); cbn;
    destruct (videoRef s); reflexivity.
Qed.

(** X5. [stopScreenSharing] stops every track of the stream it holds, clears
    the interval it holds and leaves the text, the image, the history and
    the error alone; a second call changes nothing more. *)
Theorem stopScreenSharing_idempotent (s : State) :
  stopScreenSharing (stopScreenSharing s) = stopScreenSharing s
  /\ (forall m, mediaStreamRef s = Some m ->
        stoppedTracks (stopScreenSharing s) = stoppedTracks s ++ getTracks m)
  /\ (mediaStreamRef s = None ->
        stoppedTracks (stopScreenSharing s) = stoppedTracks s)
  /\ (forall h, analysisIntervalRef s = Some h ->
        findTimer h (stopScreenSharing s) = None)
  /\ inputText (stopScreenSharing s) = inputText s
  /\ imageBase64 (stopScreenSharing s) = imageBase64 s
  /\ analysisHistory (stopScreenSharing s) = analysisHistory s
  /\ error (stopScreenSharing s) = error s.
Proof.
  split; [apply stopScreenSharing_twice|].
  split; [intros m Hm; rewrite stopScreenSharing_tracks, Hm; reflexivity|].
  split; [intros Hm; rewrite stopScreenSharing_tracks, Hm; reflexivity|].
  split.
  { intros h Hh. unfold findTimer. rewrite stopScreenSharing_timers, Hh.
    apply find_cleared. }
  destruct (stopScreenSharing_kept s) as (K1 & K2 & _ & K4 & K5 & _). auto.
Qed.

(** ** The handles of the timers *)

Lemma inv2_same (s s1 : State) :
  timers s1 = timers s -> nextTimer s1 = nextTimer s ->
  debounceCleanup s1 = debounceCleanup s ->
  timersInv2 s -> timersInv2 s1.
Proof.
  unfold timersInv2, timersInv, cleanupIsDebounce. intros -> -> ->. auto.
Qed.

Lemma inv2_filter p (s : State) :
  timersInv2 s -> timersInv2 (setTimers (filter p (timers s)) s).
Proof.
  unfold timersInv2, timersInv, cleanupIsDebounce. cbn. intros [H J]. split.
  - apply timersOk_filter, H.
  - intros t Ht. apply filter_In in Ht. apply J, Ht.
Qed.

Lemma inv2_rearm h d (s : State) :
  timersInv2 s -> timersInv2 (setTimers (map (rearm h d) (timers s)) s).
Proof.
  unfold timersInv2, timersInv, cleanupIsDebounce. cbn. intros [H J]. split.
  - apply timersOk_rearm, H.
  - intros t Ht Hd. apply in_map_iff in Ht. destruct Ht as (t0 & <- & Ht0).
    destruct (rearm_debounce h d t0) as [E1 E2]. rewrite E2.
    rewrite E1 in Hd. auto.
Qed.

Lemma inv2_interval (s s1 : State) d p :
  timers s1 = timers s ++ [{| tid := nextTimer s; due := d; every := p;
                              callback := CallAnalysisFrameFn |}] ->
  nextTimer s1 = Pos.succ (nextTimer s) ->
  debounceCleanup s1 = debounceCleanup s ->
  timersInv2 s -> timersInv2 s1.
Proof.
  unfold timersInv2, timersInv, cleanupIsDebounce. intros -> -> -> [H J].
  split.
  - apply timersOk_add_interval, H.
  - intros t Ht Hd. apply in_app_iff in Ht. destruct Ht as [Ht|[<-|[]]]; auto.
    cbn. destruct H as (_ & _ & _ & Hc). intros E. apply Hc in E. lia.
Qed.

Lemma stopScreenSharing_inv2 (s : State) :
  timersInv2 s -> timersInv2 (stopScreenSharing s).
Proof.
  intros H. unfold stopScreenSharing.
  destruct (analysisIntervalRef s) as [h|].
  - apply (inv2_filter (fun t => negb (TimerId_eqb (tid t) h))) in H.
    revert H. apply inv2_same; by_cases.
  - revert H. apply inv2_same; by_cases.
Qed.

Lemma handle_inv2 ev (s s' : State) :
  handle ev s = Some s' -> timersInv2 s -> timersInv2 s'.
Proof.
  apply handle_preserves;
    auto using inv2_filter, inv2_rearm, stopScreenSharing_inv2.
  all: try solve [intros; eapply inv2_same; [| | |eassumption]; by_cases].
  - intros f s0 H. unfold handleImageChange.
    destruct f as [file|]; [|exact H].
    destruct (maxImageSize <? size file)%N; [exact H|].
    apply stopScreenSharing_inv2 in H. revert H. apply inv2_same; reflexivity.
  - intros r op e s0 H _ _. unfold analyzeFrame_settle.
    destruct r as [msg|result].
    + assert (H1 : timersInv2 (setError (Some (Literal msg)) (settle op s0)))
        by (revert H; apply inv2_same; reflexivity).
      apply stopScreenSharing_inv2 in H1. revert H1.
      apply inv2_same; reflexivity.
    + revert H. apply inv2_same; by_cases.
  - intros r op e s0 H _ _. destruct r as [stream|].
    + eapply inv2_interval; [| | |exact H];
        unfold startScreenSharing_settle, addTimer; by_cases.
    + revert H. apply inv2_same; reflexivity.
Qed.

Lemma commit_inv2 (prev s : State) : timersInv2 s -> timersInv2 (commit prev s).
Proof.
  intros [H J]. split; [apply commit_timers, H|].
  unfold cleanupIsDebounce in *. unfold timersInv in H.
  revert H J. repeat autounfold with app. split_goal; cbn; intros H J; auto.
  all: try discriminate.
  all: intros t Ht Hd.
  all: repeat match goal with
       | Hx : In _ (_ ++ _) |- _ =>
           apply in_app_iff in Hx; destruct Hx as [Hx|[<-|[]]];
             [|discriminate Hd]
       | Hx : In _ (filter _ _) |- _ =>
           apply filter_In in Hx; destruct Hx as [Hx _]
       end.
  all: try solve [destruct H as (Hlt & _); apply Hlt in Ht;
                  intros E; inversion E; lia].
  all: try discriminate.
  all: try solve [match goal with
                  | E : debounceCleanup _ = None |- _ =>
                      rewrite E; discriminate
                  end].
  all: try solve [apply J; auto].
Qed.

Lemma reachable_inv2 s : reachable s -> timersInv2 s.
Proof.
  intros [evs E].
  assert (H : timersInv2 init).
  { split; [apply init_inv|]. intros t []. }
  revert H E. generalize init. induction evs as [|ev evs IH]; cbn.
  - intros s0 H E. inversion E; subst. exact H.
  - intros s0 H. unfold step.
    destruct (handle ev s0) as [s1|] eqn:E1; [|discriminate].
    apply IH. apply commit_inv2. eapply handle_inv2; eauto.
Qed.

Lemma find_app_some {A} (q : A -> bool) (l l' : list A) x :
  find q l = Some x -> find q (l ++ l') = Some x.
Proof.
  induction l as [|a l IH]; cbn; [discriminate|].
  destruct (q a); auto.
Qed.

Lemma find_app_none {A} (q : A -> bool) (l l' : list A) :
  find q l = None -> find q (l ++ l') = find q l'.
Proof.
  induction l as [|a l IH]; cbn; [reflexivity|].
  destruct (q a); [discriminate|auto].
Qed.

Lemma find_filter_keep {A} (q p : A -> bool) (l : list A) x :
  find q l = Some x -> p x = true -> find q (filter p l) = Some x.
Proof.
  induction l as [|a l IH]; cbn; [discriminate|].
  destruct (q a) eqn:Eq.
  - intros E Hp. inversion E; subst. rewrite Hp. cbn. rewrite Eq. reflexivity.
  - intros E Hp. destruct (p a); cbn; [rewrite Eq|]; auto.
Qed.

Lemma found_timer h (s : State) t :
  findTimer h s = Some t -> In t (timers s) /\ tid t = h.
Proof.
  unfold findTimer. intros H. apply find_some in H. destruct H as [Hin Ht].
  split; auto. unfold TimerId_eqb in Ht. apply Pos.eqb_eq, Ht.
Qed.

(** A render keeps a frame interval in the table. *)
Lemma commit_keeps_interval (prev s : State) h t :
  cleanupIsDebounce s -> findTimer h s = Some t -> isDebounce t = false ->
  findTimer h (commit prev s) = Some t.
Proof.
  intros J Hf Hd. destruct (found_timer _ _ Hf) as [Hin Ht].
  specialize (J t Hin Hd). revert J Hf. unfold findTimer.
  repeat autounfold with app. split_goal; cbn; intros J Hf; auto.
  all: try apply find_app_some.
  all: try (apply find_filter_keep; [assumption|]).
  all: try (apply negb_true_iff; unfold TimerId_eqb; apply Pos.eqb_neq;
            congruence).
  all: assumption.
Qed.

(** X6. A second request for the screen that is granted while a first capture
    runs replaces the stream and the interval that the component holds.
    When the user then stops sharing, only the second capture is torn
    down: no track of the first stream is stopped, and its interval
    stays in the timer table. *)
Theorem second_grant_leaks_first_capture (s : State) op first second h t :
  reachable s -> isLoading s = false ->
  mediaStreamRef s = Some first ->
  analysisIntervalRef s = Some h ->
  findTimer h s = Some t -> callback t = CallAnalysisFrameFn ->
  findOp op s = Some AwaitGetDisplayMedia ->
  (forall track, In track (getTracks first) ->
     ~ In track (stoppedTracks s) /\ ~ In track (getTracks second)) ->
  exists s1 s2,
    step (GetDisplayMediaSettled op (Some second)) s = Some s1
    /\ isScreenSharing s1 = true /\ mediaStreamRef s1 = Some second
    /\ step ClickShare s1 = Some s2
    /\ isScreenSharing s2 = false /\ mediaStreamRef s2 = None
    /\ analysisIntervalRef s2 = None
    /\ stoppedTracks s2 = stoppedTracks s ++ getTracks second
    /\ (forall track, In track (getTracks first) ->
          ~ In track (stoppedTracks s2))
    /\ findTimer h s2 = Some t.
Proof.
  intros Hr Hl Hm Hi Hf Hc Hop Hfresh.
  pose proof (reachable_inv2 Hr) as H2.
  assert (Hd : isDebounce t = false) by (unfold isDebounce; rewrite Hc; auto).
  destruct (found_timer _ _ Hf) as [Hin Ht].
  assert (Hlt : (h < nextTimer s)%positive).
  { destruct H2 as [(Hlt & _) _]. rewrite <- Ht. apply Hlt, Hin. }
  set (a := startScreenSharing_settle (Some second) (settle op s)).
  assert (Ea : handle (GetDisplayMediaSettled op (Some second)) s = Some a).
  { cbn [handle]. rewrite Hop. reflexivity. }
  assert (Ha2 : timersInv2 a) by (eapply handle_inv2; eauto).
  assert (Hfa : findTimer h a = Some t).
  { unfold a, findTimer, startScreenSharing_settle, addTimer. cbn.
    destruct (videoRef s); cbn; apply find_app_some; exact Hf. }
  set (s1 := commit s a).
  assert (E1 : step (GetDisplayMediaSettled op (Some second)) s = Some s1).
  { unfold step. rewrite Ea. reflexivity. }
  assert (Hr1 : reachable s1) by (eapply reachable_step; eauto).
  assert (Hf1 : findTimer h s1 = Some t).
  { apply commit_keeps_interval; auto. apply Ha2. }
  assert (F1 : isScreenSharing s1 = true /\ isLoading s1 = false
               /\ mediaStreamRef s1 = Some second
               /\ analysisIntervalRef s1 = Some (nextTimer s)
               /\ stoppedTracks s1 = stoppedTracks s).
  { unfold s1.
    destruct (commit_kept s a) as (_ & _ & _ & -> & -> & _).
    destruct (commit_refs_kept s a) as (-> & -> & _).
    destruct (commit_browser_kept s a) as (_ & _ & _ & _ & -> & _).
    unfold a, startScreenSharing_settle, addTimer. cbn.
    destruct (videoRef s); cbn; auto. }
  destruct F1 as (Fs & Fl & Fm & Fi & Ft).
  set (b := stopScreenSharing s1).
  assert (Eb : handle ClickShare s1 = Some b).
  { cbn [handle]. rewrite Fl, Fs. reflexivity. }
  assert (Hb2 : timersInv2 b).
  { eapply handle_inv2; eauto. apply reachable_inv2, Hr1. }
  assert (Hfb : findTimer h b = Some t).
  { unfold b, findTimer. rewrite stopScreenSharing_timers, Fi.
    apply find_filter_keep; [exact Hf1|].
    apply negb_true_iff. unfold TimerId_eqb. apply Pos.eqb_neq. lia. }
  assert (Etr : stoppedTracks b = stoppedTracks s ++ getTracks second).
  { unfold b. rewrite stopScreenSharing_tracks, Fm, Ft. reflexivity. }
  exists s1, (commit s1 b).
  split; [exact E1|]. split; [exact Fs|]. split; [exact Fm|].
  split; [unfold step; rewrite Eb; reflexivity|].
  destruct (commit_kept s1 b) as (_ & _ & _ & -> & _).
  destruct (commit_refs_kept s1 b) as (-> & -> & _).
  destruct (commit_browser_kept s1 b) as (_ & _ & _ & _ & -> & _).
  destruct (stopScreenSharing_stops s1) as (S1 & _ & S3 & S4).
  split; [exact S1|]. split; [exact S3|]. split; [exact S4|].
  split; [exact Etr|]. split.
  - intros track Hin' Hst. rewrite Etr in Hst.
    destruct (Hfresh track Hin') as [N1 N2].
    apply in_app_iff in Hst. tauto.
  - apply commit_keeps_interval; auto. apply Hb2.
Qed.

Lemma second_grant_leaks_first_capture_witness :
  exists s1 s2,
    step (GetDisplayMediaSettled 1 (Some secondScreen)) (after sharedTwice)
    = Some s1
    /\ isScreenSharing s1 = true /\ mediaStreamRef s1 = Some secondScreen
    /\ step ClickShare s1 = Some s2
    /\ isScreenSharing s2 = false /\ mediaStreamRef s2 = None
    /\ analysisIntervalRef s2 = None
    /\ stoppedTracks s2
       = stoppedTracks (after sharedTwice) ++ getTracks secondScreen
    /\ (forall track, In track (getTracks screen) ->
          ~ In track (stoppedTracks s2))
    /\ findTimer 1 s2 = Some (frameInterval 1 5000).
Proof.
  apply (@second_grant_leaks_first_capture (after sharedTwice) 1%nat screen
           secondScreen 1%positive (frameInterval 1 5000)).
  - exists sharedTwice. vm_compute. reflexivity.
  - reflexivity.
  - reflexivity.
  - reflexivity.
  - reflexivity.
  - reflexivity.
  - reflexivity.
  - intros track [<-|[]]. split.
    + intros [].
    + intros [E|[]]. discriminate E.
Defined.

(** X7. A second request for the screen that is denied while a first capture
    runs switches the component to not sharing, but tears nothing down:
    the stream is still held, none of its tracks is stopped and the
    interval stays armed. The message of the failure is shown only when
    a text or an image was entered; otherwise the reset that follows the
    change of the sharing flag clears it. *)
Theorem denied_request_hides_running_capture (s : State) op first h t :
  reachable s -> isScreenSharing s = true ->
  mediaStreamRef s = Some first ->
  analysisIntervalRef s = Some h ->
  findTimer h s = Some t -> callback t = CallAnalysisFrameFn ->
  findOp op s = Some AwaitGetDisplayMedia ->
  exists s1,
    step (GetDisplayMediaSettled op None) s = Some s1
    /\ isScreenSharing s1 = false
    /\ mediaStreamRef s1 = Some first
    /\ analysisIntervalRef s1 = Some h
    /\ stoppedTracks s1 = stoppedTracks s
    /\ findTimer h s1 = Some t
    /\ error s1 = (if noInput s then None else Some (Literal shareFailed)).
Proof.
  intros Hr Hs Hm Hi Hf Hc Hop.
  pose proof (reachable_inv2 Hr) as H2.
  assert (Hd : isDebounce t = false) by (unfold isDebounce; rewrite Hc; auto).
  set (a := startScreenSharing_settle None (settle op s)).
  assert (Ea : handle (GetDisplayMediaSettled op None) s = Some a).
  { cbn [handle]. rewrite Hop. reflexivity. }
  assert (Ha2 : timersInv2 a) by (eapply handle_inv2; eauto).
  exists (commit s a).
  split; [unfold step; rewrite Ea; reflexivity|].
  destruct (commit_kept s a) as (_ & _ & _ & -> & _).
  destruct (commit_refs_kept s a) as (-> & -> & _).
  destruct (commit_browser_kept s a) as (_ & _ & _ & _ & -> & _).
  split; [reflexivity|]. split; [exact Hm|]. split; [exact Hi|].
  split; [reflexivity|]. split.
  - apply commit_keeps_interval; auto. apply Ha2.
  - destruct (commit_reset s a) as (-> & _).
    unfold resets, noInput.
    assert (Ed : sameDeps s (attachVideo a) = false).
    { unfold sameDeps. rewrite attachVideo_ui. cbn. rewrite Hs.
      apply andb_false_r. }
    rewrite Ed. cbn.
    destruct (blank (inputText s)); cbn; auto.
    destruct (JS.opt_truthy (imageBase64 s)); cbn; auto.
Qed.

Lemma denied_request_hides_running_capture_witness :
  exists s1,
    step (GetDisplayMediaSettled 1 None) (after sharedTwice) = Some s1
    /\ isScreenSharing s1 = false
    /\ mediaStreamRef s1 = Some screen
    /\ analysisIntervalRef s1 = Some 1%positive
    /\ stoppedTracks s1 = stoppedTracks (after sharedTwice)
    /\ findTimer 1 s1 = Some (frameInterval 1 5000)
    /\ error s1
       = (if noInput (after sharedTwice) then None
          else Some (Literal shareFailed)).
Proof.
  apply (@denied_request_hides_running_capture (after sharedTwice) 1%nat
           screen 1%positive (frameInterval 1 5000)).
  - exists sharedTwice. vm_compute. reflexivity.
  - reflexivity.
  - reflexivity.
  - reflexivity.
  - reflexivity.
  - reflexivity.
  - reflexivity.
Defined.

(** ** The reset *)

(** X8. Whenever an event changes the text, the image or the sharing flag and
    leaves the text blank, no image stored and the screen not shared, the
    render that follows clears the result, the error, the feedback state
    and the whole history, and no debounce timeout is pending. An event
    that changes none of the three resets nothing: what its handler set
    is what is shown. *)
Theorem reset_when_input_is_cleared (ev : Event) (s s1 s' : State) :
  reachable s -> handle ev s = Some s1 -> step ev s = Some s' ->
  (sameDeps s s' = false -> noInput s' = true -> isScreenSharing s' = false ->
     analysisResult s' = None /\ error s' = None
     /\ feedbackState s' = FeedbackNone /\ analysisHistory s' = []
     /\ debounceTimers s' = [])
  /\ (sameDeps s s' = true ->
        analysisResult s' = analysisResult s1 /\ error s' = error s1
        /\ feedbackState s' = feedbackState s1
        /\ analysisHistory s' = analysisHistory s1).
Proof.
  intros Hr E. unfold step. rewrite E. intros E1. inversion E1; subst. clear E1.
  assert (Ht : timersInv s1).
  { eapply handle_timers; eauto. apply reachable_inv in Hr. apply Hr. }
  assert (Ed : sameDeps s (commit s s1) = sameDeps s (attachVideo s1)).
  { unfold sameDeps. destruct (commit_kept s s1) as (-> & -> & _ & -> & _).
    rewrite attachVideo_ui. reflexivity. }
  rewrite Ed. unfold noInput.
  destruct (commit_kept s s1) as (-> & -> & _ & -> & _).
  split.
  - intros Hd Hn Hs.
    destruct (@commit_changed_timers _ _ Hd Ht) as [-> _].
    apply andb_true_iff in Hn. destruct Hn as [Hb Hi].
    rewrite Hb, orb_true_r.
    unfold commit. cbv zeta. rewrite Hd.
    unfold clearEffect. cbn.
    assert (Eu : ui (debounceEffect (debounceEffect_cleanup (attachVideo s1)))
                 = ui s1).
    { rewrite debounceEffect_ui, debounceEffect_cleanup_ui.
      apply attachVideo_ui. }
    rewrite Eu, Hb, Hi, Hs. cbn. auto.
  - intros Hd. unfold commit. cbv zeta. rewrite Hd, attachVideo_ui. auto.
Qed.

Lemma reset_when_input_is_cleared_witness :
  analysisResult (after (analysedWith (responseWith 50) ++ [ChangeText " "]))
  = None
  /\ error (after (analysedWith (responseWith 50) ++ [ChangeText " "])) = None
  /\ feedbackState (after (analysedWith (responseWith 50) ++ [ChangeText " "]))
     = FeedbackNone
  /\ analysisHistory
       (after (analysedWith (responseWith 50) ++ [ChangeText " "])) = []
  /\ debounceTimers
       (after (analysedWith (responseWith 50) ++ [ChangeText " "])) = [].
Proof.
  refine (proj1 (@reset_when_input_is_cleared (ChangeText " ")
                   (after (analysedWith (responseWith 50)))
                   (setInputText " " (after (analysedWith (responseWith 50))))
                   (after (analysedWith (responseWith 50) ++ [ChangeText " "])) _ _ _)
            _ _ _).
  - exists (analysedWith (responseWith 50)). vm_compute. reflexivity.
  - reflexivity.
  - vm_compute. reflexivity.
  - vm_compute. reflexivity.
  - vm_compute. reflexivity.
  - vm_compute. reflexivity.
Defined.

(** ** Ending the capture from the browser *)

Lemma stopScreenSharing_setOnended l (s : State) :
  stopScreenSharing (setOnended l s) = setOnended l (stopScreenSharing s).
Proof.
  destruct s as [u [fv vr ms ir fr dc] b]. unfold stopScreenSharing. cbn.
  destruct ir, ms, vr; reflexivity.
Qed.

Lemma commit_setOnended l (prev s : State) :
  commit prev (setOnended l s) = setOnended l (commit prev s).
Proof.
  destruct s as [u [fv vr ms ir fr dc] b].
  unfold commit, attachVideo, sameDeps, debounceEffect_cleanup,
    debounceEffect, clearEffect. cbn.
  destruct (isScreenSharing u); cbn.
  - destruct vr; cbn;
      destruct (_ && _ && _); cbn; auto;
      destruct dc; cbn; destruct (_ || _ || _); cbn;
      destruct (_ && _); reflexivity.
  - destruct (_ && _ && _); cbn; auto;
      destruct dc; cbn; destruct (_ || _); cbn;
      destruct (_ && _); reflexivity.
Qed.

(** X9. When the capture is ended from the browser's own control, the
    handler that the component left on the video track tears the session
    down exactly as a click on the stop button does: the two states differ
    in nothing but the list of tracks that still carry the handler. *)
Theorem track_ended_stops_like_the_button (s s1 s2 : State) track :
  isLoading s = false -> isScreenSharing s = true ->
  step (TrackEnded track) s = Some s1 ->
  step ClickShare s = Some s2 ->
  s1 = setOnended (filter (fun x => negb (Nat.eqb x track)) (onended s)) s2
  /\ ui s1 = ui s2 /\ refs s1 = refs s2 /\ timers s1 = timers s2
  /\ stoppedTracks s1 = stoppedTracks s2 /\ isScreenSharing s1 = false.
Proof.
  intros Hl Hs. unfold step. cbn [handle]. rewrite Hl, Hs.
  destruct (_ && _); [|discriminate].
  intros E1 E2. inversion E1; subst. inversion E2; subst. clear E1 E2.
  rewrite stopScreenSharing_setOnended, commit_setOnended.
  split; [reflexivity|]. cbn.
  destruct (commit_kept s (stopScreenSharing s)) as (_ & _ & _ & -> & _).
  destruct (stopScreenSharing_stops s) as (-> & _). auto.
Qed.

Lemma track_ended_stops_like_the_button_witness :
  ui (after [ClickShare; GetDisplayMediaSettled 0 (Some screen); TrackEnded 7])
  = ui (after [ClickShare; GetDisplayMediaSettled 0 (Some screen); ClickShare]).
Proof.
  refine (proj1 (proj2 (@track_ended_stops_like_the_button
            (after [ClickShare; GetDisplayMediaSettled 0 (Some screen)])
            (after [ClickShare; GetDisplayMediaSettled 0 (Some screen);
                    TrackEnded 7])
            (after [ClickShare; GetDisplayMediaSettled 0 (Some screen);
                    ClickShare])
            7%nat _ _ _ _))).
  - reflexivity.
  - reflexivity.
  - vm_compute. reflexivity.
  - vm_compute. reflexivity.
Defined.

(** ** Upload and share that do not overlap *)

Lemma apart_no_image_while_sharing_witness :
  imageBase64
    (after [FileChosen (Some {| size := 10; type := "image/png" |});
            FileReaderSettled 0 (Some "data:image/png;base64,AAAA");
            ClickShare; GetDisplayMediaSettled 1 (Some screen)])
  = None.
Proof.
  apply (@apart_no_image_while_sharing
           [FileChosen (Some {| size := 10; type := "image/png" |});
            FileReaderSettled 0 (Some "data:image/png;base64,AAAA");
            ClickShare; GetDisplayMediaSettled 1 (Some screen)]).
  - vm_compute. reflexivity.
  - vm_compute. reflexivity.
Defined.

(** * The requests and the responses *)

(** ** The parts of a request *)

Lemma buildRequest_wellFormed text lang topic image mime :
  wellFormedRequest (buildRequest text lang topic image mime) = true.
Proof.
  unfold wellFormedRequest, buildRequest. cbn.
  assert (Ht : JS.str_truthy (if JS.str_truthy text then text else placeholder)
               = true).
  { destruct (JS.str_truthy text) eqn:E; auto. }
  destruct image as [data|]; [|exact Ht].
  destruct mime as [m|]; [|exact Ht].
  unfold JS.opt_truthy.
  destruct (JS.str_truthy data) eqn:Ed; cbn; [|exact Ht].
  destruct (JS.str_truthy m) eqn:Em; cbn; [|exact Ht].
  rewrite Ht, Em, Ed. reflexivity.
Qed.

Lemma forallb_snoc {A} (p : A -> bool) l x :
  forallb p (l ++ [x]) = forallb p l && p x.
Proof. rewrite forallb_app. cbn. rewrite andb_true_r. reflexivity. Qed.

Lemma handle_requests ev (s s' : State) :
  handle ev s = Some s' ->
  forallb wellFormedRequest (requests s) = true ->
  forallb wellFormedRequest (requests s') = true.
Proof.
  apply handle_preserves
    with (P := fun s => forallb wellFormedRequest (requests s) = true);
    try by_cases; cbn; auto;
    rewrite forallb_snoc, buildRequest_wellFormed, andb_true_r; assumption.
Qed.

(** X11. Every request that the component sends has a prompt text that is not
    empty (the text as entered, or the placeholder for an empty text) as
    its last part, preceded by at most one image part. An image part has
    a non-empty type and non-empty data, and goes with the instruction
    for images. *)
Theorem requests_are_well_formed (s : State) :
  reachable s -> forallb wellFormedRequest (requests s) = true.
Proof.
  intros [evs E]. revert E.
  assert (H : forallb wellFormedRequest (requests init) = true)
    by reflexivity.
  revert H. generalize init. induction evs as [|ev evs IH]; cbn.
  - intros s0 H E. inversion E; subst. exact H.
  - intros s0 H. unfold step.
    destruct (handle ev s0) as [s1|] eqn:E1; [|discriminate].
    apply IH.
    destruct (commit_browser_kept s0 s1) as (_ & _ & _ & -> & _).
    eapply handle_requests; eauto.
Qed.

Lemma requests_are_well_formed_witness :
  forallb wellFormedRequest
    (requests (after (analysedWith (responseWith 50)))) = true.
Proof.
  apply requests_are_well_formed.
  exists (analysedWith (responseWith 50)). vm_compute. reflexivity.
Defined.

(** ** The response text *)

Lemma list_of_append (a b : string) :
  list_ascii_of_string (String.append a b)
  = list_ascii_of_string a ++ list_ascii_of_string b.
Proof. induction a as [|c a IH]; cbn; [reflexivity|]. rewrite IH. reflexivity. Qed.

Lemma trim_start_spaces (p l : list ascii) :
  forallb JS.is_trim_space p = true ->
  JS.trim_start (p ++ l) = JS.trim_start l.
Proof.
  induction p as [|c p IH]; cbn; auto.
  intros H. apply andb_true_iff in H. destruct H as [Hc Hp].
  rewrite Hc. auto.
Qed.

Lemma trim_start_shape (l : list ascii) :
  JS.trim_start l = []
  \/ exists p c r,
       l = p ++ c :: r /\ forallb JS.is_trim_space p = true
       /\ JS.is_trim_space c = false /\ JS.trim_start l = c :: r.
Proof.
  induction l as [|c l IH]; cbn; auto.
  destruct (JS.is_trim_space c) eqn:Ec.
  - destruct IH as [E|(p & c' & r & -> & Hp & Hc & E)]; auto.
    right. exists (c :: p), c', r. cbn. rewrite Ec, Hp. auto.
  - right. exists [], c, l. auto.
Qed.

Lemma trim_start_all (l : list ascii) :
  JS.trim_start l = [] -> forallb JS.is_trim_space l = true.
Proof.
  induction l as [|c l IH]; cbn; auto.
  destruct (JS.is_trim_space c); [auto|discriminate].
Qed.

Lemma forallb_rev {A} (p : A -> bool) (l : list A) :
  forallb p (rev l) = forallb p l.
Proof.
  induction l as [|a l IH]; cbn; auto.
  rewrite forallb_app, IH. cbn. rewrite andb_true_r. apply andb_comm.
Qed.

Lemma trim_padded (before text after : string) :
  all_space before = true -> all_space after = true ->
  JS.trim (String.append before (String.append text after)) = JS.trim text.
Proof.
  unfold all_space, JS.trim. intros Hb Ha.
  rewrite !list_of_append. f_equal. f_equal.
  rewrite trim_start_spaces by exact Hb.
  set (t := list_ascii_of_string text). set (a := list_ascii_of_string after) in *.
  destruct (trim_start_shape t) as [E|(p & c & r & Et & Hp & Hc & E)].
  - rewrite E. rewrite trim_start_spaces by apply trim_start_all, E.
    assert (Ea : JS.trim_start a = []).
    { destruct (trim_start_shape a) as [E'|(p' & c' & r' & -> & _ & Hc' & _)];
        auto.
      rewrite forallb_app in Ha. cbn in Ha. rewrite Hc' in Ha.
      rewrite andb_false_r in Ha. discriminate. }
    rewrite Ea. reflexivity.
  - rewrite E, Et. rewrite <- app_assoc, trim_start_spaces by exact Hp.
    cbn. rewrite Hc. rewrite app_comm_cons, rev_app_distr.
    apply trim_start_spaces. rewrite forallb_rev. exact Ha.
Qed.

(** X12. The white space around the text of a response does not matter: with
    any text that [trim] removes put before and after it, the response
    gives the same result or the same error. This includes the no-break
    space, with which [JSON.parse] alone rejects the text. *)
Theorem response_is_trimmed (before text after : string) :
  all_space before = true -> all_space after = true ->
  analyzeContent_settle
    (Responded (String.append before (String.append text after)))
  = analyzeContent_settle (Responded text).
Proof.
  intros Hb Ha. unfold analyzeContent_settle.
  rewrite trim_padded by assumption. reflexivity.
Qed.

Lemma response_is_trimmed_witness :
  Json.parse (String.append NBSP "{}") = None
  /\ analyzeContent_settle
       (Responded (String.append NBSP (String.append "{}" NBSP)))
     = analyzeContent_settle (Responded "{}").
Proof.
  split; [vm_compute; reflexivity|].
  apply response_is_trimmed; reflexivity.
Defined.

(** ** The uploaded image and its preview *)

Lemma until_comma_none (l : list ascii) :
  forallb (fun c => negb (c =? ",")%char) l = true -> JS.until_comma l = l.
Proof.
  induction l as [|c l IH]; cbn; auto.
  intros H. apply andb_true_iff in H. destruct H as [Hc Hl].
  apply negb_true_iff in Hc. rewrite Hc, IH; auto.
Qed.

Lemma after_comma_skip (p l : list ascii) :
  forallb (fun c => negb (c =? ",")%char) p = true ->
  JS.after_comma (p ++ l) = JS.after_comma l.
Proof.
  induction p as [|c p IH]; cbn; auto.
  intros H. apply andb_true_iff in H. destruct H as [Hc Hl].
  apply negb_true_iff in Hc. rewrite Hc. auto.
Qed.

Lemma split_data_url (fileType payload : string) :
  no_comma fileType = true -> no_comma payload = true ->
  JS.split_comma_1 (readAsDataURL fileType payload) = Some payload.
Proof.
  unfold no_comma, JS.split_comma_1, readAsDataURL. intros Hm Hp.
  rewrite !list_of_append.
  rewrite (@after_comma_skip (list_ascii_of_string "data:")) by reflexivity.
  rewrite after_comma_skip by (destruct (JS.str_truthy fileType); auto).
  cbn. rewrite until_comma_none by exact Hp.
  rewrite string_of_list_ascii_of_string. reflexivity.
Qed.

Lemma preview_after_commit (s a : State) fileType payload :
  imageBase64 a = Some payload -> imageMimeType a = Some fileType ->
  error a = None -> isScreenSharing a = isScreenSharing s ->
  imageBase64 (commit s a) = Some payload
  /\ imageMimeType (commit s a) = Some fileType
  /\ error (commit s a) = None
  /\ preview (commit s a)
     = (if JS.str_truthy payload && negb (isScreenSharing s)
        then Some (previewSrc (Some fileType) payload) else None).
Proof.
  intros A1 A2 A3 A4. unfold preview.
  destruct (commit_kept s a) as (_ & -> & -> & -> & _).
  destruct (commit_reset s a) as (-> & _).
  rewrite A1, A2, A3, A4.
  split; [reflexivity|]. split; [reflexivity|].
  split; [destruct (resets s a); reflexivity|]. reflexivity.
Qed.

(** The source of the preview against the data URL that was read. *)
Lemma preview_of_typed_file (fileType payload : string) :
  JS.str_truthy fileType = true ->
  previewSrc (Some fileType) payload = readAsDataURL fileType payload.
Proof. unfold previewSrc, readAsDataURL. intros ->. reflexivity. Qed.

Lemma preview_of_untyped_file (fileType payload : string) :
  JS.str_truthy fileType = false ->
  previewSrc (Some fileType) payload <> readAsDataURL fileType payload.
Proof.
  unfold previewSrc, readAsDataURL. intros H. rewrite H.
  unfold JS.str_truthy in H. apply negb_false_iff in H.
  apply String.eqb_eq in H. subst fileType. cbn. intros E. inversion E.
Qed.

(** X13. The upload and the preview are a round trip for a file with a
    type. When the reader has loaded the data URL of a file (its type and
    its base64 payload, neither with a comma), the component stores the
    payload and the type, clears the error, and, unless the screen is
    shared, shows a preview whose source is written from the stored type
    and payload (l.450). For a file with a type that source is the data
    URL that was read. A file without a type is read as
    [application/octet-stream], but the source of its preview names no
    type, so it is not the URL that was read. A file without content
    leaves an empty image, which counts as no image: nothing is shown. *)
Theorem upload_preview_round_trip (s s' : State) op fileType lang payload :
  findOp op s = Some (AwaitFileReader fileType lang) ->
  no_comma fileType = true -> no_comma payload = true ->
  step (FileReaderSettled op (Some (readAsDataURL fileType payload))) s
  = Some s' ->
  imageBase64 s' = Some payload /\ imageMimeType s' = Some fileType
  /\ error s' = None
  /\ preview s'
     = (if JS.str_truthy payload && negb (isScreenSharing s)
        then Some (previewSrc (Some fileType) payload) else None)
  /\ (JS.str_truthy fileType = true ->
        previewSrc (Some fileType) payload = readAsDataURL fileType payload)
  /\ (JS.str_truthy fileType = false ->
        readAsDataURL fileType payload
        = readAsDataURL "application/octet-stream" payload
        /\ previewSrc (Some fileType) payload
           <> readAsDataURL fileType payload).
Proof.
  intros Hop Hm Hp. unfold step. cbn [handle]. rewrite Hop. cbv iota.
  intros E. injection E as <-.
  match goal with
  | |- context [commit s ?a] =>
      destruct (@preview_after_commit s a fileType payload)
        as (P1 & P2 & P3 & P4);
      try (unfold handleImageChange_settle;
           rewrite split_data_url by assumption; reflexivity)
  end.
  split; [exact P1|]. split; [exact P2|]. split; [exact P3|].
  split; [exact P4|]. split.
  - apply preview_of_typed_file.
  - intros H. split; [|apply preview_of_untyped_file; exact H].
    unfold readAsDataURL. rewrite H. reflexivity.
Qed.

Lemma upload_preview_round_trip_witness :
  preview (after (chosen "image/png"
                  ++ [FileReaderSettled 0
                        (Some (readAsDataURL "image/png" "AAAA"))]))
  = Some "data:image/png;base64,AAAA".
Proof.
  refine (proj1 (proj2 (proj2 (proj2 (@upload_preview_round_trip
            (after (chosen "image/png"))
            (after (chosen "image/png"
                    ++ [FileReaderSettled 0
                          (Some (readAsDataURL "image/png" "AAAA"))]))
            0%nat "image/png" en "AAAA" _ _ _ _))))).
  - reflexivity.
  - reflexivity.
  - reflexivity.
  - vm_compute. reflexivity.
Defined.

(** A file without a type: the preview is [data:;base64,AAAA]. *)
Example untyped_file_preview :
  preview (after (chosen ""
                  ++ [FileReaderSettled 0 (Some (readAsDataURL "" "AAAA"))]))
  = Some "data:;base64,AAAA"
  /\ readAsDataURL "" "AAAA" = "data:application/octet-stream;base64,AAAA".
Proof. split; vm_compute; reflexivity. Qed.

(** ** The system instruction *)

Lemma string_neq (a b : string) : (a =? b)%string = false -> a <> b.
Proof. intros H E. apply String.eqb_neq in H. contradiction. Qed.

(** X14. The instruction on a topic exists in English and in Korean only: for
    Spanish, French, Japanese and Chinese the instruction is the English
    one, and only the sentence that names the language of the response
    differs. Korean has a text of its own for every topic but the general
    one, which adds nothing in any language. The heading of a topic is
    its value with the hyphens turned into spaces and each word
    capitalised. *)
Theorem topic_text_falls_back_to_english (withImage : bool)
  (topic : SocialTopic) (lang : Language) :
  lang <> ko ->
  systemInstruction withImage topic lang
  = String.append
      (String.append
         (if withImage then instructionWithImage else instructionWithoutImage)
         (topicFocus topic en))
      (respondIn (responseLanguage lang))
  /\ (topic <> general -> topicFocus topic ko <> topicFocus topic en)
  /\ topicFocus general lang = ""
  /\ (lang <> en -> responseLanguage lang <> "English")
  /\ topicTitle (topicId topic)
     = match topic with
       | general => "General"
       | gender_equality => "Gender Equality"
       | human_rights => "Human Rights"
       | violence_prevention => "Violence Prevention"
       | workplace_conflict => "Workplace Conflict"
       end.
Proof.
  intros Hk. split.
  { unfold systemInstruction. f_equal. f_equal.
    destruct lang; try congruence; destruct topic; reflexivity. }
  split.
  { intros Hg. apply string_neq.
    destruct topic; try congruence; vm_compute; reflexivity. }
  split; [reflexivity|]. split.
  { intros He. apply string_neq.
    destruct lang; try congruence; vm_compute; reflexivity. }
  destruct topic; vm_compute; reflexivity.
Qed.

Lemma topic_text_falls_back_to_english_witness :
  systemInstruction false human_rights es
  = String.append
      (String.append instructionWithoutImage (topicFocus human_rights en))
      (respondIn "Spanish").
Proof.
  refine (proj1 (@topic_text_falls_back_to_english false human_rights es _)).
  discriminate.
Defined.

(** * The components that draw the temperature *)

Lemma allFrom_spec (check : Z -> bool) count : forall from z,
  allFrom from count check = true ->
  (from <= z < from + Z.of_nat count)%Z -> check z = true.
Proof.
  induction count as [|k IH]; intros from z H Hz; [lia|].
  cbn [allFrom] in H. apply andb_true_iff in H. destruct H as [H0 H1].
  destruct (Z.eq_dec z from) as [->|Hne]; [exact H0|].
  apply (IH (from + 1)%Z); [exact H1|lia].
Qed.

(** ** The bands *)

Lemma compare_cont_antisym (a b : positive) :
  Pos.compare_cont Eq b a = CompOpp (Pos.compare_cont Eq a b).
Proof. apply Pos.compare_antisym. Qed.

(** The comparisons of a number with 33 and with 66 as the components
    make them: [t <= 33] implies [t <= 66], and [t > 66] is the opposite
    of [t <= 66] unless [t] is NaN. *)
Lemma compare_33_66 (t : Num.number) :
  (Num.leb t (Num.of_Z 33) = true -> Num.leb t (Num.of_Z 66) = true)
  /\ (t <> Num.NaN ->
      Num.gtb t (Num.of_Z 66) = negb (Num.leb t (Num.of_Z 66))).
Proof.
  change (Num.of_Z 33)
    with (SpecFloat.S754_finite false 4644337115725824 (-47)).
  change (Num.of_Z 66)
    with (SpecFloat.S754_finite false 4644337115725824 (-46)).
  generalize 4644337115725824%positive. intros c.
  unfold Num.NaN.
  destruct t as [sg|sg| |sg m e];
    cbv beta iota delta [Num.leb Num.gtb SpecFloat.SFleb SpecFloat.SFltb
                         SpecFloat.SFcompare].
  - auto.
  - destruct sg; auto.
  - split; [discriminate|]. intros H. congruence.
  - destruct sg; [auto|].
    rewrite (Z.compare_antisym e (-46)).
    rewrite (compare_cont_antisym m c).
    destruct (Z.compare_spec e (-47)) as [E1|E1|E1];
      destruct (Z.compare_spec e (-46)) as [E2|E2|E2]; try lia;
      cbv beta iota delta [CompOpp negb]; auto.
    all: destruct (Pos.compare_cont Eq m c);
      cbv beta iota delta [CompOpp negb]; auto.
Qed.

(** X15. The two components colour a temperature alike. For every number the
    three colour functions of the gauge and the fill colour of the chart
    name the same band: up to 33 the cool one, up to 66 the warm one,
    above that the hot one. The colour of the gradient stop names that
    band as well, except for NaN (which is also what a missing
    temperature compares as): there the point is drawn in the hot colour
    and its gradient stop in the warm one. *)
Theorem colours_name_one_band (t : Num.number) :
  exists b,
    TemperatureGauge.getTemperatureColor t = bgClass b
    /\ TemperatureGauge.getTemperatureRingColor t = strokeClass b
    /\ TemperatureGauge.getTemperatureTextColor t = textClass b
    /\ EmotionChart.getTemperatureColor t = fillClass b
    /\ EmotionChart.stopColorOf t
       = match t with
         | SpecFloat.S754_nan => stopHex Warm
         | _ => stopHex b
         end
    /\ (b = Cool <-> Num.leb t (Num.of_Z 33) = true)
    /\ (b = Hot <-> Num.leb t (Num.of_Z 66) = false).
Proof.
  destruct (compare_33_66 t) as [H1 H2].
  unfold TemperatureGauge.getTemperatureColor,
    TemperatureGauge.getTemperatureRingColor,
    TemperatureGauge.getTemperatureTextColor,
    EmotionChart.getTemperatureColor, EmotionChart.stopColorOf.
  destruct (match t with SpecFloat.S754_nan => true | _ => false end) eqn:En.
  - destruct t; try discriminate En. exists Hot.
    repeat split; try reflexivity; discriminate.
  - assert (Em : forall x y : string,
               match t with SpecFloat.S754_nan => x | _ => y end = y)
      by (destruct t; try discriminate En; reflexivity).
    assert (Hg : Num.gtb t (Num.of_Z 66) = negb (Num.leb t (Num.of_Z 66))).
    { apply H2. intros ->. discriminate En. }
    rewrite Hg. clear Hg H2 En.
    destruct (Num.leb t (Num.of_Z 33)) eqn:E33.
    + rewrite (H1 eq_refl). exists Cool. rewrite Em.
      repeat split; try reflexivity; discriminate.
    + destruct (Num.leb t (Num.of_Z 66)) eqn:E66.
      * exists Warm. rewrite Em.
        repeat split; try reflexivity; discriminate.
      * exists Hot. rewrite Em.
        repeat split; try reflexivity; discriminate.
Qed.

(** ** Integer temperatures *)

Lemma integers_checked :
  allFrom 0 101 bandsOfInteger = true
  /\ allFrom 0 100 ringInRange = true
  /\ allFrom 0 100 pointInPlot = true.
Proof.
  split; [vm_compute; reflexivity|].
  split; vm_compute; reflexivity.
Qed.

(** X16. The ring of the gauge for an integer temperature from 0 to 100: the
    dash offset lies between 0 and the circumference, it is the whole
    circumference at 0 (an empty ring) and 0 at 100 (a full ring), and a
    higher temperature has a smaller offset. The classes of the ring and
    of the figure are those of the band of the temperature. *)
Theorem gauge_of_integer_temperature (z : Z) :
  inRange z ->
  let gauge := TemperatureGauge.render (Num.of_Z z) in
  Num.leb (Num.of_Z 0) (TemperatureGauge.dashoffset gauge) = true
  /\ Num.leb (TemperatureGauge.dashoffset gauge)
       (TemperatureGauge.strokeDasharray gauge) = true
  /\ ((z < 100)%Z ->
      Num.ltb (TemperatureGauge.strokeDashoffset (Num.of_Z (z + 1)))
        (TemperatureGauge.dashoffset gauge) = true)
  /\ TemperatureGauge.ringClass gauge = strokeClass (bandOf z)
  /\ TemperatureGauge.textClass gauge = textClass (bandOf z)
  /\ TemperatureGauge.strokeDashoffset (Num.of_Z 0)
     = TemperatureGauge.circumference
  /\ TemperatureGauge.strokeDashoffset (Num.of_Z 100) = Num.of_Z 0.
Proof.
  intros Hz. unfold inRange in Hz. cbv zeta.
  destruct integers_checked as (Hb & Hr & _).
  assert (B : bandsOfInteger z = true)
    by (apply (@allFrom_spec _ _ _ _ Hb); cbn; lia).
  unfold bandsOfInteger in B.
  apply andb_true_iff in B. destruct B as [B _].
  apply andb_true_iff in B. destruct B as [B _].
  apply andb_true_iff in B. destruct B as [B1 B2].
  apply String.eqb_eq in B1, B2.
  cbn [TemperatureGauge.render TemperatureGauge.dashoffset
       TemperatureGauge.strokeDasharray TemperatureGauge.ringClass
       TemperatureGauge.textClass].
  assert (E0 : TemperatureGauge.strokeDashoffset (Num.of_Z 0)
               = TemperatureGauge.circumference)
    by (vm_compute; reflexivity).
  assert (E100 : TemperatureGauge.strokeDashoffset (Num.of_Z 100)
                 = Num.of_Z 0)
    by (vm_compute; reflexivity).
  destruct (Z.eq_dec z 100) as [->|Hne].
  - rewrite E100. split; [vm_compute; reflexivity|].
    split; [vm_compute; reflexivity|]. split; [lia|]. auto.
  - assert (R : ringInRange z = true)
      by (apply (@allFrom_spec _ _ _ _ Hr); cbn; lia).
    unfold ringInRange in R. cbv zeta in R.
    apply andb_true_iff in R. destruct R as [R R3].
    apply andb_true_iff in R. destruct R as [R1 R2]. auto 10.
Qed.

Lemma gauge_of_integer_temperature_witness :
  TemperatureGauge.ringClass (TemperatureGauge.render (Num.of_Z 50))
  = "stroke-yellow-500".
Proof.
  refine (proj1 (proj2 (proj2 (proj2
            (@gauge_of_integer_temperature 50 _))))).
  unfold inRange. lia.
Defined.

(** ** The chart *)

Lemma map_fst_indexed {A} (l : list A) :
  map fst (EmotionChart.indexed l) = seq 0 (List.length l).
Proof.
  unfold EmotionChart.indexed. generalize 0%nat.
  induction l as [|a l IH]; intros k;
    cbn [map combine seq fst List.length]; [reflexivity|].
  rewrite IH. reflexivity.
Qed.

Lemma map_snd_indexed {A B} (f : A -> B) (l : list A) :
  map (fun p => f (snd p)) (EmotionChart.indexed l) = map f l.
Proof.
  unfold EmotionChart.indexed. generalize 0%nat.
  induction l as [|a l IH]; intros k;
    cbn [map combine seq snd List.length]; [reflexivity|].
  rewrite IH. reflexivity.
Qed.

Lemma spansThePlot_checked (n : nat) :
  (2 <= n <= 15)%nat -> spansThePlot n = true.
Proof.
  intros Hn.
  do 16 (destruct n as [|n]; [try lia; vm_compute; reflexivity|]).
  lia.
Qed.

(** X17. The chart of a history that the component can hold. The component
    renders the chart for more than one result, and the chart then never
    returns the empty output. For 2 to 15 results the line has one point
    for each result, in their order; the x coordinates increase from the
    left edge of the plot (30) to its right edge (470), the stops of the
    gradient run from 0 to 100 percent in the same steps, and every
    circle sits on its point of the line. *)
Theorem chart_spans_the_plot (history : list AnalysisResult) :
  (2 <= List.length history <= 15)%nat ->
  EmotionChart.shown history = true
  /\ exists chart,
       EmotionChart.render history = Some chart
       /\ map fst (EmotionChart.points chart)
          = xCoordinates (List.length history)
       /\ map snd (EmotionChart.points chart)
          = map (fun r => EmotionChart.yOf (temperature r)) history
       /\ map EmotionChart.offset (EmotionChart.stops chart)
          = offsets (List.length history)
       /\ map (fun c => (EmotionChart.cx c, EmotionChart.cy c))
            (EmotionChart.circles chart)
          = EmotionChart.points chart
       /\ spansThePlot (List.length history) = true.
Proof.
  intros Hn. split.
  { unfold EmotionChart.shown. apply Nat.ltb_lt. lia. }
  unfold EmotionChart.render.
  assert (E : (List.length history <? 2)%nat = false)
    by (apply Nat.ltb_ge; lia).
  rewrite E. eexists. split; [reflexivity|].
  cbn [EmotionChart.points EmotionChart.stops EmotionChart.circles].
  rewrite !map_map. cbn [fst snd EmotionChart.offset EmotionChart.cx
                           EmotionChart.cy].
  split.
  { unfold xCoordinates. rewrite <- (map_fst_indexed history).
    rewrite map_map. reflexivity. }
  split.
  { apply (map_snd_indexed
             (fun r => EmotionChart.yOf (temperature r)) history). }
  split.
  { unfold offsets. rewrite <- (map_fst_indexed history).
    rewrite map_map. reflexivity. }
  split; [reflexivity|].
  apply spansThePlot_checked, Hn.
Qed.

Lemma chart_spans_the_plot_witness :
  EmotionChart.shown [sample (Num.of_Z 20); sample (Num.of_Z 80)] = true.
Proof.
  refine (proj1 (@chart_spans_the_plot
                   [sample (Num.of_Z 20); sample (Num.of_Z 80)] _)).
  cbn. lia.
Defined.

(** X18. The line of the chart for integer temperatures from 0 to 100: the
    point of a temperature lies in the plot, between its top edge (30,
    reached at 100) and its bottom edge (170, reached at 0), and the
    point of a higher temperature lies higher. The point and its
    gradient stop carry the colour of the band of the temperature. *)
Theorem chart_point_of_integer_temperature (z : Z) :
  inRange z ->
  let y := EmotionChart.yOf (Num.of_Z z) in
  Num.leb EmotionChart.PADDING y = true
  /\ Num.leb y (Num.add EmotionChart.PADDING EmotionChart.chartHeight) = true
  /\ ((z < 100)%Z ->
      Num.ltb (EmotionChart.yOf (Num.of_Z (z + 1))) y = true)
  /\ EmotionChart.yOf (Num.of_Z 0) = Num.of_Z 170
  /\ EmotionChart.yOf (Num.of_Z 100) = Num.of_Z 30
  /\ EmotionChart.getTemperatureColor (Num.of_Z z) = fillClass (bandOf z)
  /\ EmotionChart.stopColorOf (Num.of_Z z) = stopHex (bandOf z).
Proof.
  intros Hz. unfold inRange in Hz. cbv zeta.
  destruct integers_checked as (Hb & _ & Hp).
  assert (B : bandsOfInteger z = true)
    by (apply (@allFrom_spec _ _ _ _ Hb); cbn; lia).
  unfold bandsOfInteger in B.
  apply andb_true_iff in B. destruct B as [B B4].
  apply andb_true_iff in B. destruct B as [_ B3].
  apply String.eqb_eq in B3, B4.
  assert (E0 : EmotionChart.yOf (Num.of_Z 0) = Num.of_Z 170)
    by (vm_compute; reflexivity).
  assert (E100 : EmotionChart.yOf (Num.of_Z 100) = Num.of_Z 30)
    by (vm_compute; reflexivity).
  destruct (Z.eq_dec z 100) as [->|Hne].
  - rewrite E100. split; [vm_compute; reflexivity|].
    split; [vm_compute; reflexivity|]. split; [lia|]. auto.
  - assert (R : pointInPlot z = true)
      by (apply (@allFrom_spec _ _ _ _ Hp); cbn; lia).
    unfold pointInPlot in R. cbv zeta in R.
    apply andb_true_iff in R. destruct R as [R R3].
    apply andb_true_iff in R. destruct R as [R1 R2]. auto 10.
Qed.

Lemma chart_point_of_integer_temperature_witness :
  EmotionChart.getTemperatureColor (Num.of_Z 70) = "fill-red-500".
Proof.
  refine (proj1 (proj2 (proj2 (proj2 (proj2 (proj2
            (@chart_point_of_integer_temperature 70 _))))))).
  unfold inRange. lia.
Defined.

(** * The shared screen *)

(** ** The source of the <video> element *)

Ltac video_cases :=
  by_cases;
  try solve [match goal with
             | E : videoRef _ = _ |- _ => rewrite E; auto
             end];
  try solve [match goal with
             | H : _ \/ _ |- _ => destruct H; auto; discriminate
             end].

Lemma handle_videoWithoutSource ev (s s' : State) :
  notGranted ev = true -> handle ev s = Some s' ->
  videoWithoutSource s -> videoWithoutSource s'.
Proof.
  unfold videoWithoutSource. intros Hn E H. destruct ev; cbn [handle] in E.
  - inversion E; subst. exact H.
  - inversion E; subst. exact H.
  - inversion E; subst. destruct (isLoading s); exact H.
  - inversion E; subst. revert H. video_cases.
  - inversion E; subst. revert H. video_cases.
  - inversion E; subst. revert H. video_cases.
  - inversion E; subst. revert H. video_cases.
  - inversion E; subst. destruct (analysisResult s); exact H.
  - destruct (_ && _); [|discriminate]. inversion E; subst. revert H.
    video_cases.
  - destruct (0 <=? dt)%Z; [|discriminate]. inversion E; subst. exact H.
  - revert E. unfold fireTimer.
    destruct (findTimer h s) as [t|]; [|discriminate].
    destruct (due t <=? now s)%Z; [|discriminate].
    intros E. inversion E; subst. revert H. video_cases.
  - destruct (findOp op s) as [[[]| |]|]; try discriminate;
      inversion E; subst; clear E; revert H;
      destruct (analyzeContent_settle o) as [msg|result];
      video_cases.
  - destruct (findOp op s) as [[[]| |]|]; try discriminate.
    inversion E; subst. revert H. video_cases.
  - destruct r as [stream|]; [discriminate Hn|].
    destruct (findOp op s) as [[[]| |]|]; try discriminate.
    inversion E; subst. exact H.
Qed.

Lemma commit_videoWithoutSource (prev s : State) :
  videoWithoutSource s -> videoWithoutSource (commit prev s).
Proof.
  unfold videoWithoutSource. video_cases.
Qed.

Lemma run_videoWithoutSource evs : forall s s' : State,
  forallb notGranted evs = true -> run evs s = Some s' ->
  videoWithoutSource s -> videoWithoutSource s'.
Proof.
  induction evs as [|ev evs IH]; cbn [run forallb]; intros s s' Hn E H.
  - inversion E; subst. exact H.
  - apply andb_true_iff in Hn. destruct Hn as [Hn1 Hn2].
    unfold step in E. destruct (handle ev s) as [s1|] eqn:E1; [|discriminate].
    eapply IH; [exact Hn2|exact E|].
    apply commit_videoWithoutSource.
    eapply handle_videoWithoutSource; eauto.
Qed.

(** X19. The <video> element never receives the stream of a share that starts
    while the screen is not shared. The stream is assigned to the element
    only if the element exists when the request is granted, and the
    element is rendered only once the sharing flag is set: after the
    grant the component is sharing and holds the stream, but the element
    that is then mounted has no source, and it gets none from any later
    event other than a further granted request. *)
Theorem video_has_no_source (s s' : State) op stream :
  reachable s -> isScreenSharing s = false ->
  findOp op s = Some AwaitGetDisplayMedia ->
  step (GetDisplayMediaSettled op (Some stream)) s = Some s' ->
  isScreenSharing s' = true /\ mediaStreamRef s' = Some stream
  /\ videoRef s' = Some {| srcObject := None |}
  /\ forall evs s'',
       forallb notGranted evs = true -> run evs s' = Some s'' ->
       videoRef s'' = None \/ videoRef s'' = Some {| srcObject := None |}.
Proof.
  intros Hr Hs Hop. apply reachable_inv in Hr. destruct Hr as [Hv _ _ _ _ _].
  unfold videoSynced in Hv. rewrite Hs in Hv.
  destruct (videoRef s) as [v|] eqn:Ev; [discriminate|].
  unfold step. cbn [handle]. rewrite Hop. cbv iota.
  intros E. injection E as <-.
  assert (F : isScreenSharing
                (commit s (startScreenSharing_settle (Some stream)
                             (settle op s))) = true
              /\ mediaStreamRef
                   (commit s (startScreenSharing_settle (Some stream)
                                (settle op s))) = Some stream
              /\ videoRef
                   (commit s (startScreenSharing_settle (Some stream)
                                (settle op s)))
                 = Some {| srcObject := None |}).
  { unfold startScreenSharing_settle, settle, addTimer. cbn. rewrite Ev. cbn.
    unfold commit, attachVideo. cbn. rewrite Ev.
    destruct (sameDeps _ _); [auto|].
    unfold debounceEffect_cleanup, debounceEffect, clearEffect. cbn.
    destruct (debounceCleanup s); cbn; rewrite andb_false_r; cbn; auto. }
  destruct F as (F1 & F2 & F3).
  split; [exact F1|]. split; [exact F2|]. split; [exact F3|].
  intros evs s'' Hn E. eapply run_videoWithoutSource; eauto.
  right. exact F3.
Qed.

Lemma video_has_no_source_witness :
  videoRef (after [ClickShare; GetDisplayMediaSettled 0 (Some screen)])
  = Some {| srcObject := None |}.
Proof.
  refine (proj1 (proj2 (proj2 (@video_has_no_source
            (after [ClickShare])
            (after [ClickShare; GetDisplayMediaSettled 0 (Some screen)])
            0%nat screen _ _ _ _)))).
  - exists [ClickShare]. vm_compute. reflexivity.
  - reflexivity.
  - reflexivity.
  - vm_compute. reflexivity.
Defined.

(** ** The frame interval *)

Lemma sharingArmed_same (s s1 : State) :
  isScreenSharing s1 = isScreenSharing s ->
  mediaStreamRef s1 = mediaStreamRef s ->
  analysisIntervalRef s1 = analysisIntervalRef s ->
  timers s1 = timers s -> now s1 = now s ->
  sharingArmed s -> sharingArmed s1.
Proof.
  unfold sharingArmed, findTimer. intros -> -> -> -> ->. auto.
Qed.

Lemma sharingArmed_off (s : State) :
  isScreenSharing s = false -> sharingArmed s.
Proof. unfold sharingArmed. intros ->. discriminate. Qed.

Lemma stopScreenSharing_armed (s : State) : sharingArmed (stopScreenSharing s).
Proof. apply sharingArmed_off. apply stopScreenSharing_stops. Qed.

Lemma find_rearmed h h' d (ts : list Timer) t :
  find (fun x => TimerId_eqb (tid x) h) ts = Some t ->
  find (fun x => TimerId_eqb (tid x) h) (map (rearm h' d) ts)
  = Some (rearm h' d t).
Proof.
  induction ts as [|a ts IH]; cbn; [discriminate|].
  destruct (rearm_same h' d a) as (E & _). rewrite E.
  destruct (TimerId_eqb (tid a) h); [|exact IH].
  intros H. inversion H; subst. reflexivity.
Qed.

Lemma fireTimer_armed h cap (s s' : State) :
  Inv s -> fireTimer h cap s = Some s' -> sharingArmed s -> sharingArmed s'.
Proof.
  intros Hi E H. unfold fireTimer in E.
  destruct (findTimer h s) as [t0|] eqn:Ef; [|discriminate].
  destruct (due t0 <=? now s)%Z; [|discriminate].
  inversion E; subst. clear E.
  assert (Hc : forall cb (x : State), sharingArmed x ->
                 sharingArmed (runCallback cb cap x)).
  { intros cb x Hx. revert Hx. destruct cb; cbn [runCallback];
      apply sharingArmed_same; by_cases. }
  apply Hc. clear Hc.
  destruct (found_timer _ _ Ef) as [Hin0 Ht0].
  destruct (every t0) as [period|] eqn:Ep; intros Hs;
    destruct (H Hs) as (m & hi & t & Hm & Hr & Hf & Hcb & Hev & Hdue);
    destruct (found_timer _ _ Hf) as [Hin Ht];
    exists m, hi.
  - exists (rearm h (now s + period)%Z t).
    destruct (rearm_same h (now s + period)%Z t) as (R1 & R2 & R3).
    split; [exact Hm|]. split; [exact Hr|].
    split; [apply find_rearmed; exact Hf|].
    split; [congruence|]. split; [congruence|].
    cbn [now setTimers browser]. unfold rearm.
    destruct (TimerId_eqb (tid t) h) eqn:Eh; cbn [due]; [|exact Hdue].
    assert (Et : t0 = t).
    { unfold TimerId_eqb in Eh. apply Pos.eqb_eq in Eh.
      assert (Ehi : hi = h) by congruence. rewrite Ehi in Hf.
      rewrite Ef in Hf. inversion Hf. reflexivity. }
    subst t0. assert (period = 5000%Z) by congruence. lia.
  - exists t. split; [exact Hm|]. split; [exact Hr|]. split.
    + unfold clearTimer, findTimer. cbn [timers setTimers browser].
      apply find_filter_keep; [exact Hf|].
      apply negb_true_iff. unfold TimerId_eqb. apply Pos.eqb_neq.
      intros Eq. assert (Et : t0 = t).
      { assert (Ehi : hi = h) by congruence. rewrite Ehi in Hf.
        rewrite Ef in Hf. inversion Hf. reflexivity. }
      subst t0. congruence.
    + auto.
Qed.

Lemma granted_armed (s : State) stream :
  timersInv s -> sharingArmed (startScreenSharing_settle (Some stream) s).
Proof.
  intros (Hlt & _) _.
  exists stream, (nextTimer s), (frameInterval (nextTimer s) (now s + 5000)).
  unfold startScreenSharing_settle, addTimer, findTimer. cbv zeta.
  cbn [videoRef setMediaStreamRef refs].
  assert (Hfind : find (fun t => TimerId_eqb (tid t) (nextTimer s))
                    (timers s ++ [frameInterval (nextTimer s) (now s + 5000)])
                  = Some (frameInterval (nextTimer s) (now s + 5000))).
  { rewrite find_app_none.
    - cbn. unfold TimerId_eqb. rewrite Pos.eqb_refl. reflexivity.
    - destruct (find _ (timers s)) as [t|] eqn:Ef; [|reflexivity].
      apply find_some in Ef. destruct Ef as [Hin Ht].
      unfold TimerId_eqb in Ht. apply Pos.eqb_eq in Ht.
      apply Hlt in Hin. lia. }
  destruct (videoRef s);
    (split; [reflexivity|]; split; [reflexivity|]; split; [exact Hfind|];
     split; [reflexivity|]; split; [reflexivity|]; cbn; lia).
Qed.

Lemma handle_armed ev (s s' : State) :
  Inv s -> handle ev s = Some s' -> sharingArmed s -> sharingArmed s'.
Proof.
  intros Hi E H. destruct ev; cbn [handle] in E.
  - inversion E; subst. revert H. apply sharingArmed_same; reflexivity.
  - inversion E; subst. revert H. apply sharingArmed_same; reflexivity.
  - inversion E; subst. destruct (isLoading s); [exact H|].
    revert H. apply sharingArmed_same; reflexivity.
  - inversion E; subst. revert H. apply sharingArmed_same; by_cases.
  - inversion E; subst. revert H. apply sharingArmed_same; by_cases.
  - inversion E; subst. destruct (isLoading s); [exact H|].
    destruct (isScreenSharing s) eqn:Es; [apply stopScreenSharing_armed|].
    apply sharingArmed_off. exact Es.
  - inversion E; subst. unfold handleImageChange.
    destruct f as [file|]; [|exact H].
    destruct (maxImageSize <? size file)%N.
    + revert H. apply sharingArmed_same; reflexivity.
    + generalize (@stopScreenSharing_armed s).
      apply sharingArmed_same; reflexivity.
  - inversion E; subst. destruct (analysisResult s); [|exact H].
    revert H. apply sharingArmed_same; reflexivity.
  - destruct (_ && _); [|discriminate]. inversion E; subst.
    apply stopScreenSharing_armed.
  - destruct (0 <=? dt)%Z eqn:Ed; [|discriminate]. inversion E; subst.
    apply Z.leb_le in Ed. intros Hs.
    destruct (H Hs) as (m & hi & t & Hm & Hr & Hf & Hcb & Hev & Hdue).
    exists m, hi, t. cbn. repeat split; auto. lia.
  - eapply fireTimer_armed; eauto.
  - destruct (findOp op s) as [[[]| |]|]; try discriminate;
      inversion E; subst; clear E;
      destruct (analyzeContent_settle o) as [msg|result].
    + revert H. apply sharingArmed_same; reflexivity.
    + revert H. apply sharingArmed_same; reflexivity.
    + unfold analyzeFrame_settle.
      generalize (@stopScreenSharing_armed
                    (setError (Some (Literal msg)) (settle op s))).
      apply sharingArmed_same; reflexivity.
    + revert H. apply sharingArmed_same; by_cases.
  - destruct (findOp op s) as [[[]| |]|]; try discriminate.
    inversion E; subst. revert H. apply sharingArmed_same; by_cases.
  - destruct (findOp op s) as [[[]| |]|]; try discriminate.
    inversion E; subst. destruct r as [stream|].
    + apply granted_armed. destruct Hi as [_ _ Ht _ _ _]. exact Ht.
    + apply sharingArmed_off. reflexivity.
Qed.

Lemma commit_armed (prev s : State) :
  cleanupIsDebounce s -> sharingArmed s -> sharingArmed (commit prev s).
Proof.
  intros J H Hs.
  destruct (commit_kept prev s) as (_ & _ & _ & E1 & _).
  destruct (commit_refs_kept prev s) as (E2 & E3 & _).
  destruct (commit_browser_kept prev s) as (E4 & _).
  rewrite E1 in Hs.
  destruct (H Hs) as (m & hi & t & Hm & Hr & Hf & Hcb & Hev & Hdue).
  exists m, hi, t. rewrite E2, E3, E4.
  split; [exact Hm|]. split; [exact Hr|]. split; [|auto].
  apply commit_keeps_interval; auto.
  unfold isDebounce. rewrite Hcb. reflexivity.
Qed.

Lemma reachable_armed (s : State) : reachable s -> sharingArmed s.
Proof.
  intros [evs E].
  assert (H : Inv init /\ timersInv2 init /\ sharingArmed init).
  { split; [apply init_inv|]. split.
    - split; [apply init_inv|]. intros t [].
    - apply sharingArmed_off. reflexivity. }
  revert H E. generalize init. induction evs as [|ev evs IH]; cbn [run].
  - intros s0 (_ & _ & H) E. inversion E; subst. exact H.
  - intros s0 (Hi & H2 & Ha). unfold step.
    destruct (handle ev s0) as [s1|] eqn:E1; [|discriminate].
    apply IH.
    assert (H2' : timersInv2 s1) by (eapply handle_inv2; eauto).
    split; [eapply step_inv; [|exact Hi]; unfold step; rewrite E1; reflexivity|].
    split; [apply commit_inv2; exact H2'|].
    apply commit_armed; [apply H2'|].
    eapply handle_armed; eauto.
Qed.

(** X20. While the component shows that the screen is shared, it holds the
    stream and a frame interval is armed: the interval whose handle the
    component keeps is in the timer table, calls the frame analysis every
    5000 ms, and its next tick is due within 5000 ms. *)
Theorem sharing_keeps_the_interval_armed (s : State) :
  reachable s -> isScreenSharing s = true ->
  exists m h t,
    mediaStreamRef s = Some m /\ analysisIntervalRef s = Some h
    /\ findTimer h s = Some t /\ callback t = CallAnalysisFrameFn
    /\ every t = Some 5000%Z /\ (due t <= now s + 5000)%Z.
Proof.
  intros Hr. apply (@reachable_armed s Hr).
Qed.

Lemma sharing_keeps_the_interval_armed_witness :
  exists m h t,
    mediaStreamRef (after slowFrameCall) = Some m
    /\ analysisIntervalRef (after slowFrameCall) = Some h
    /\ findTimer h (after slowFrameCall) = Some t
    /\ callback t = CallAnalysisFrameFn
    /\ every t = Some 5000%Z
    /\ (due t <= now (after slowFrameCall) + 5000)%Z.
Proof.
  apply sharing_keeps_the_interval_armed.
  - exists slowFrameCall. vm_compute. reflexivity.
  - reflexivity.
Defined.

(** * Voice dictation *)

Import Dictation.

Lemma render_error (w : World) (e : option Message) :
  error (app (render (setError e) w)) = e
  /\ inputText (app (render (setError e) w)) = inputText (app w)
  /\ language (app (render (setError e) w)) = language (app w)
  /\ isLoading (app (render (setError e) w)) = isLoading (app w).
Proof.
  unfold render. cbn [app setApp].
  rewrite commit_same by reflexivity. rewrite attachVideo_ui. auto.
Qed.

Lemma handleWorld_base t ev (w w' : World) :
  keepsBase ev = true -> handleWorld t ev w = Some w' ->
  baseTextRef w' = baseTextRef w.
Proof.
  intros Hk. destruct ev; cbn [handleWorld].
  - destruct (step ev (app w)) as [a|]; [|discriminate].
    intros E. inversion E; subst. clear E.
    destruct (sameLanguage _ _); [reflexivity|].
    unfold recognitionEffect, langEffect. cbn.
    destruct (isSpeechRecognitionSupported w); cbn.
    + destruct (speechRecognitionRef w); reflexivity.
    + destruct (speechRecognitionRef w); reflexivity.
  - intros E. inversion E; subst. clear E.
    destruct (isLoading (app w)); [reflexivity|].
    unfold handleToggleRecording.
    destruct (isSpeechRecognitionSupported w); cbn; [|reflexivity].
    destruct (speechRecognitionRef w); [|reflexivity].
    destruct (isRecording w); reflexivity.
  - destruct granted; [discriminate Hk|].
    destruct (findMicRequest op w); [|discriminate].
    intros E. inversion E; subst. reflexivity.
  - destruct (isStarted recognition w); [|discriminate].
    intros E. inversion E; subst. reflexivity.
  - destruct (findRecognition recognition w) as [x|]; [|discriminate].
    destruct (started x); [|discriminate].
    intros E. inversion E; subst. unfold onerror.
    destruct (_ || _); reflexivity.
  - destruct (isStarted recognition w); [|discriminate].
    intros E. inversion E; subst. reflexivity.
Qed.

Lemma runWorld_base t evs : forall w w' : World,
  forallb keepsBase evs = true -> runWorld t evs w = Some w' ->
  baseTextRef w' = baseTextRef w.
Proof.
  induction evs as [|ev evs IH]; cbn [runWorld forallb]; intros w w' Hk E.
  - inversion E; subst. reflexivity.
  - apply andb_true_iff in Hk. destruct Hk as [Hk1 Hk2].
    destruct (handleWorld t ev w) as [w1|] eqn:E1; [|discriminate].
    rewrite (IH _ _ Hk2 E). eapply handleWorld_base; eauto.
Qed.

(** X21. Dictation rewrites the text from the base on. Once [baseTextRef]
    holds a text, whatever happens afterwards short of a newly granted
    request for the microphone (typing included), a result of a running
    recognition sets the text to that base followed by the first
    alternatives of all results of the session; what was in the field is
    overwritten. The rest of the component takes the new text exactly as
    it takes typed text, debounce included. *)
Theorem dictation_rewrites_from_base t (w w1 w2 : World)
  (evs : list WorldEvent) recognition firstAlternatives :
  forallb keepsBase evs = true ->
  runWorld t evs w = Some w1 ->
  handleWorld t (SpeechResult recognition firstAlternatives) w1 = Some w2 ->
  inputText (app w2)
  = String.append (baseTextRef w) (transcriptOf firstAlternatives)
  /\ step (ChangeText (String.append (baseTextRef w)
                         (transcriptOf firstAlternatives))) (app w1)
     = Some (app w2)
  /\ baseTextRef w2 = baseTextRef w
  /\ isRecording w2 = isRecording w1.
Proof.
  intros Hk E1.
  assert (Hb : baseTextRef w1 = baseTextRef w)
    by (eapply runWorld_base; eauto).
  cbn [handleWorld]. destruct (isStarted recognition w1); [|discriminate].
  intros E. inversion E; subst. clear E.
  unfold onresult, render. cbn [app setApp baseTextRef isRecording].
  rewrite Hb.
  destruct (commit_kept (app w1)
              (setInputText
                 (String.append (baseTextRef w)
                    (transcriptOf firstAlternatives)) (app w1)))
    as (-> & _).
  auto.
Qed.

Lemma dictation_rewrites_from_base_witness :
  inputText
    (app (afterWorld keyNames true
            (dictating
             ++ [SpeechResult 0 ["hello"];
                 Component (ChangeText "typed over it");
                 SpeechResult 0 ["hello"; " world"]])))
  = "hello world".
Proof.
  refine (proj1 (@dictation_rewrites_from_base keyNames
                   (afterWorld keyNames true dictating)
                   (afterWorld keyNames true
                      (dictating
                       ++ [SpeechResult 0 ["hello"];
                           Component (ChangeText "typed over it")]))
                   (afterWorld keyNames true
                      (dictating
                       ++ [SpeechResult 0 ["hello"];
                           Component (ChangeText "typed over it");
                           SpeechResult 0 ["hello"; " world"]]))
                   [SpeechResult 0 ["hello"];
                    Component (ChangeText "typed over it")]
                   0%nat ["hello"; " world"] _ _ _)).
  - reflexivity.
  - vm_compute. reflexivity.
  - vm_compute. reflexivity.
Defined.

(** ** A browser without the API *)

Lemma handleWorld_noRecognition t ev (w w' : World) :
  handleWorld t ev w = Some w' -> noRecognition w -> noRecognition w'.
Proof.
  unfold noRecognition. intros E (H1 & H2 & H3 & H4 & H5).
  destruct ev; cbn [handleWorld] in E.
  - destruct (step ev (app w)) as [a|]; [|discriminate].
    inversion E; subst. clear E.
    destruct (sameLanguage _ _); cbn; auto.
    unfold recognitionEffect, langEffect. cbn. rewrite H1. cbn.
    rewrite H3. cbn. auto.
  - inversion E; subst. clear E.
    destruct (isLoading (app w)); auto.
    unfold handleToggleRecording. rewrite H1. cbn. auto.
  - unfold findMicRequest in E. rewrite H5 in E. discriminate.
  - unfold isStarted, findRecognition in E. rewrite H4 in E. discriminate.
  - unfold findRecognition in E. rewrite H4 in E. discriminate.
  - unfold isStarted, findRecognition in E. rewrite H4 in E. discriminate.
Qed.

(** X22. In a browser without the speech API no recognition object is ever
    made, no request for the microphone is ever sent and the recording
    flag is never set; a click on the record button does nothing but
    show the message that the microphone is not supported. *)
Theorem without_speech_api t (w : World) :
  reachableWorld t false w ->
  isRecording w = false /\ speechRecognitionRef w = None
  /\ recognitions w = [] /\ micRequests w = []
  /\ (isLoading (app w) = false ->
      exists w',
        handleWorld t ClickRecord w = Some w'
        /\ error (app w')
           = Some (Literal (t (language (app w)) micNotSupportedError))
        /\ inputText (app w') = inputText (app w)
        /\ isRecording w' = false /\ micRequests w' = []).
Proof.
  intros [evs E].
  assert (H : noRecognition w).
  { assert (H0 : noRecognition (initWorld false))
      by (repeat split; reflexivity).
    revert H0 E. generalize (initWorld false).
    induction evs as [|ev evs IH]; cbn [runWorld]; intros w0 H0 E.
    - inversion E; subst. exact H0.
    - destruct (handleWorld t ev w0) as [w1|] eqn:E1; [|discriminate].
      eapply IH; [|exact E]. eapply handleWorld_noRecognition; eauto. }
  destruct H as (H1 & H2 & H3 & H4 & H5).
  split; [exact H2|]. split; [exact H3|]. split; [exact H4|].
  split; [exact H5|].
  intros Hl. cbn [handleWorld]. rewrite Hl.
  unfold handleToggleRecording. rewrite H1. cbn [negb].
  eexists. split; [reflexivity|].
  destruct (render_error w
              (Some (Literal (t (language (app w)) micNotSupportedError))))
    as (-> & -> & _).
  cbn. auto.
Qed.

Lemma without_speech_api_witness :
  isRecording (afterWorld keyNames false [ClickRecord; ClickRecord]) = false
  /\ speechRecognitionRef (afterWorld keyNames false [ClickRecord; ClickRecord])
     = None.
Proof.
  destruct (@without_speech_api keyNames
              (afterWorld keyNames false [ClickRecord; ClickRecord]))
    as (H1 & H2 & _).
  - exists [ClickRecord; ClickRecord]. vm_compute. reflexivity.
  - split; [exact H1|exact H2].
Defined.

(** ** Recognition objects *)

Lemma find_update (r r' : nat) f (l : list Recognition) :
  (forall x, rid (f x) = rid x) ->
  find (fun x => Nat.eqb (rid x) r)
    (map (fun x => if Nat.eqb (rid x) r' then f x else x) l)
  = match find (fun x => Nat.eqb (rid x) r) l with
    | Some x => Some (if Nat.eqb (rid x) r' then f x else x)
    | None => None
    end.
Proof.
  intros Hf. induction l as [|a l IH]; cbn; [reflexivity|].
  destruct (Nat.eqb (rid a) r') eqn:Ea.
  - rewrite Hf. destruct (Nat.eqb (rid a) r); [rewrite Ea|]; auto.
  - destruct (Nat.eqb (rid a) r); [rewrite Ea|]; auto.
Qed.

Lemma found_rid r (l : list Recognition) x :
  find (fun y => Nat.eqb (rid y) r) l = Some x -> rid x = r /\ In x l.
Proof.
  intros H. apply find_some in H. destruct H as [Hin H].
  apply Nat.eqb_eq in H. auto.
Qed.

(** X23. When a request for the microphone is granted while the recognition
    object of that click is started already (as after a second click on
    the button before the browser has answered the first), [start()]
    throws and the component reports a denied permission: the recording
    flag is cleared and the permission message is shown, while the
    recognition goes on and the base text has been replaced by the text
    of that click. *)
Theorem second_start_is_reported_as_denied t (w : World) op req :
  findMicRequest op w = Some req ->
  isStarted (atRecognition req) w = true ->
  exists w',
    handleWorld t (UserMediaSettled op true) w = Some w'
    /\ isRecording w' = false
    /\ error (app w')
       = Some (Literal (t (atLanguage req) micPermissionError))
    /\ isStarted (atRecognition req) w' = true
    /\ baseTextRef w' = atText req
    /\ inputText (app w') = inputText (app w).
Proof.
  intros Hf Hs. cbn [handleWorld]. rewrite Hf.
  eexists. split; [reflexivity|]. cbv zeta.
  assert (Hs1 : isStarted (atRecognition req)
                  (updateRecognition (atRecognition req)
                     (withLang (speechLangMap (atLanguage req)))
                     (setBaseTextRef (atText req) (settleMicRequest op w)))
                = true).
  { revert Hs. unfold isStarted, findRecognition, updateRecognition. cbn.
    rewrite find_update by reflexivity.
    destruct (find _ (recognitions w)) as [x|]; [|discriminate].
    destruct (Nat.eqb (rid x) (atRecognition req)); auto. }
  unfold micGranted. cbv zeta. rewrite Hs1. unfold micDenied.
  cbn [isRecording setIsRecording].
  split; [reflexivity|].
  match goal with
  | |- context [render (setError ?e) ?w0] =>
      destruct (render_error w0 e) as (R1 & R2 & _)
  end.
  cbn [app setIsRecording]. rewrite R1, R2.
  split; [reflexivity|]. split; [|split; reflexivity].
  exact Hs1.
Qed.

Lemma second_start_is_reported_as_denied_witness :
  exists w',
    handleWorld keyNames (UserMediaSettled 1 true)
      (afterWorld keyNames true clickedTwice) = Some w'
    /\ isRecording w' = false
    /\ error (app w') = Some (Literal "micPermissionError")
    /\ isStarted 0 w' = true
    /\ baseTextRef w' = ""
    /\ inputText (app w') = "".
Proof.
  apply (@second_start_is_reported_as_denied keyNames
           (afterWorld keyNames true clickedTwice) 1%nat
           {| atText := ""; atLanguage := en; atRecognition := 0 |}).
  - reflexivity.
  - reflexivity.
Defined.

Lemma ridsBelow_update r f (w : World) :
  (forall x, rid (f x) = rid x) ->
  ridsBelow w -> ridsBelow (updateRecognition r f w).
Proof.
  unfold ridsBelow, updateRecognition. cbn. intros Hf H x Hx.
  apply in_map_iff in Hx. destruct Hx as (y & <- & Hy).
  destruct (Nat.eqb (rid y) r); [rewrite Hf|]; auto.
Qed.

Lemma ridsBelow_new language (w : World) :
  ridsBelow w -> ridsBelow (newRecognition language w).
Proof.
  unfold ridsBelow, newRecognition. cbn. intros H x Hx.
  apply in_app_iff in Hx. destruct Hx as [Hx|[<-|[]]]; cbn.
  - apply H in Hx. lia.
  - lia.
Qed.

Lemma ridsBelow_same (w w1 : World) :
  recognitions w1 = recognitions w -> nextRecognition w1 = nextRecognition w ->
  ridsBelow w -> ridsBelow w1.
Proof. unfold ridsBelow. intros -> ->. auto. Qed.

Lemma effects_ridsBelow (w : World) :
  ridsBelow w -> ridsBelow (langEffect (recognitionEffect w)).
Proof.
  intros H. unfold langEffect, recognitionEffect.
  destruct (isSpeechRecognitionSupported w).
  - cbn [speechRecognitionRef newRecognition].
    apply ridsBelow_update; [reflexivity|]. apply ridsBelow_new.
    destruct (speechRecognitionRef w); [|exact H].
    apply ridsBelow_update; [reflexivity|exact H].
  - destruct (speechRecognitionRef w); [|exact H].
    apply ridsBelow_update; [reflexivity|exact H].
Qed.

Lemma effects_supported (w : World) :
  isSpeechRecognitionSupported (langEffect (recognitionEffect w))
  = isSpeechRecognitionSupported w.
Proof.
  unfold langEffect, recognitionEffect.
  destruct (isSpeechRecognitionSupported w) eqn:E;
    destruct (speechRecognitionRef w); cbn; auto.
Qed.

Lemma handleWorld_ridsBelow t ev (w w' : World) :
  handleWorld t ev w = Some w' ->
  ridsBelow w /\ isSpeechRecognitionSupported w = true ->
  ridsBelow w' /\ isSpeechRecognitionSupported w' = true.
Proof.
  intros E [H Hs]. destruct ev; cbn [handleWorld] in E.
  - destruct (step ev (app w)) as [a|]; [|discriminate].
    inversion E; subst. clear E.
    destruct (sameLanguage _ _).
    + split; [revert H; apply ridsBelow_same; reflexivity|exact Hs].
    + split.
      * apply effects_ridsBelow. revert H. apply ridsBelow_same; reflexivity.
      * rewrite effects_supported. exact Hs.
  - inversion E; subst. clear E.
    destruct (isLoading (app w)); [auto|].
    unfold handleToggleRecording. rewrite Hs. cbn [negb].
    destruct (speechRecognitionRef w); [|auto].
    destruct (isRecording w); cbn; split; auto.
    apply (ridsBelow_update n asStopping); [reflexivity|exact H].
  - destruct (findMicRequest op w) as [req|]; [|discriminate].
    inversion E; subst. clear E. destruct granted.
    + unfold micGranted. cbv zeta.
      assert (H1 : ridsBelow
                     (updateRecognition (atRecognition req)
                        (withLang (speechLangMap (atLanguage req)))
                        (setBaseTextRef (atText req) (settleMicRequest op w)))).
      { apply ridsBelow_update; [reflexivity|].
        revert H. apply ridsBelow_same; reflexivity. }
      destruct (isStarted _ _).
      * split; [|exact Hs]. revert H1. apply ridsBelow_same; reflexivity.
      * split; [|exact Hs].
        apply (ridsBelow_update (atRecognition req) asStarted) in H1;
          [|reflexivity].
        revert H1. apply ridsBelow_same; reflexivity.
    + split; [|exact Hs]. revert H. apply ridsBelow_same; reflexivity.
  - destruct (isStarted recognition w); [|discriminate].
    inversion E; subst. split; [|exact Hs].
    revert H. apply ridsBelow_same; reflexivity.
  - destruct (findRecognition recognition w) as [x|]; [|discriminate].
    destruct (started x); [|discriminate].
    inversion E; subst. split.
    + revert H. apply ridsBelow_same; unfold onerror;
        destruct (_ || _); reflexivity.
    + unfold onerror. destruct (_ || _); exact Hs.
  - destruct (isStarted recognition w); [|discriminate].
    inversion E; subst. split; [|exact Hs].
    apply (ridsBelow_update recognition asEnded) in H; [|reflexivity].
    revert H. apply ridsBelow_same; reflexivity.
Qed.

Lemma reachableWorld_ridsBelow t (w : World) :
  reachableWorld t true w ->
  ridsBelow w /\ isSpeechRecognitionSupported w = true.
Proof.
  intros [evs E].
  assert (H0 : ridsBelow (initWorld true)
               /\ isSpeechRecognitionSupported (initWorld true) = true).
  { split; [|reflexivity]. intros x [<-|[]]. cbn. lia. }
  revert H0 E. generalize (initWorld true).
  induction evs as [|ev evs IH]; cbn [runWorld]; intros w0 H0 E.
  - inversion E; subst. exact H0.
  - destruct (handleWorld t ev w0) as [w1|] eqn:E1; [|discriminate].
    eapply IH; [|exact E]. eapply handleWorld_ridsBelow; eauto.
Qed.

Lemma find_fresh_rid (l : list Recognition) n :
  (forall x, In x l -> (rid x < n)%nat) ->
  find (fun x => Nat.eqb (rid x) n) l = None.
Proof.
  induction l as [|a l IH]; cbn; intros H; [reflexivity|].
  destruct (Nat.eqb_spec (rid a) n) as [E|E].
  - specialize (H a (or_introl eq_refl)). lia.
  - apply IH. intros x Hx. apply H. right. exact Hx.
Qed.

(** The state of the recognition objects after the language has changed:
    the object [r] that the component held is asked to stop, a new one is
    made for the new language and is the one the component holds. *)
Lemma effects_after_language_change (w : World) r x :
  ridsBelow w -> isSpeechRecognitionSupported w = true ->
  speechRecognitionRef w = Some r -> findRecognition r w = Some x ->
  let w1 := langEffect (recognitionEffect w) in
  speechRecognitionRef w1 = Some (nextRecognition w)
  /\ findRecognition (nextRecognition w) w1
     = Some {| rid := nextRecognition w;
               lang := speechLangMap (language (app w));
               started := false; stopRequested := false;
               boundLanguage := language (app w) |}
  /\ findRecognition r w1 = Some (asStopping x)
  /\ isRecording w1 = isRecording w /\ app w1 = app w
  /\ baseTextRef w1 = baseTextRef w.
Proof.
  intros Hb Hs Hr Hx. cbv zeta.
  destruct (found_rid _ _ Hx) as [Ex Hin].
  assert (Hlt : (r < nextRecognition w)%nat)
    by (rewrite <- Ex; apply Hb, Hin).
  unfold langEffect, recognitionEffect. rewrite Hs, Hr.
  cbn [speechRecognitionRef newRecognition updateRecognition setRecognitions
       recognitions nextRecognition isRecording app baseTextRef].
  unfold findRecognition.
  cbn [recognitions updateRecognition setRecognitions newRecognition].
  split; [reflexivity|]. split.
  - rewrite find_update by reflexivity.
    rewrite find_app_none.
    + cbn. rewrite Nat.eqb_refl. cbn. rewrite Nat.eqb_refl. reflexivity.
    + apply find_fresh_rid. intros y Hy.
      apply in_map_iff in Hy. destruct Hy as (z & <- & Hz).
      destruct (Nat.eqb (rid z) r); cbn; apply Hb, Hz.
  - split; [|auto].
    rewrite find_update by reflexivity.
    erewrite find_app_some.
    2:{ rewrite find_update by reflexivity. unfold findRecognition in Hx.
        rewrite Hx. rewrite Ex, Nat.eqb_refl. reflexivity. }
    cbn. rewrite Ex.
    destruct (Nat.eqb_spec r (nextRecognition w)) as [E|E]; [lia|].
    reflexivity.
Qed.

(** X24. A change of the language ends the dictation. The effect that makes
    the recognition object depends on [t], which changes with the
    language: the object that is listening is asked to stop, and the
    component holds a new object, set to the new language, that is not
    started. The recording flag stays set until the old object has
    ended; from then on the component neither records nor shows that it
    does, although the user did not stop the dictation. *)
Theorem language_change_ends_dictation t (w : World) r x newLanguage :
  reachableWorld t true w ->
  speechRecognitionRef w = Some r -> findRecognition r w = Some x ->
  started x = true ->
  sameLanguage (language (app w)) newLanguage = false ->
  exists w1 w2,
    handleWorld t (Component (ChangeLanguage newLanguage)) w = Some w1
    /\ speechRecognitionRef w1 = Some (nextRecognition w)
    /\ findRecognition (nextRecognition w) w1
       = Some {| rid := nextRecognition w;
                 lang := speechLangMap newLanguage;
                 started := false; stopRequested := false;
                 boundLanguage := newLanguage |}
    /\ findRecognition r w1 = Some (asStopping x)
    /\ isRecording w1 = isRecording w
    /\ handleWorld t (SpeechEnd r) w1 = Some w2
    /\ isRecording w2 = false
    /\ isStarted r w2 = false
    /\ isStarted (nextRecognition w) w2 = false
    /\ speechRecognitionRef w2 = Some (nextRecognition w).
Proof.
  intros Hr Href Hx Hst Hl.
  destruct (reachableWorld_ridsBelow Hr) as [Hb Hs].
  destruct (found_rid _ _ Hx) as [Ex Hin].
  assert (Hlt : (r < nextRecognition w)%nat)
    by (rewrite <- Ex; apply Hb, Hin).
  set (a := commit (app w) (setLanguage newLanguage (app w))).
  assert (Ea : step (ChangeLanguage newLanguage) (app w) = Some a)
    by reflexivity.
  assert (La : language a = newLanguage).
  { unfold a.
    destruct (commit_kept (app w) (setLanguage newLanguage (app w)))
      as (_ & _ & _ & _ & _ & _ & -> & _).
    reflexivity. }
  destruct (@effects_after_language_change (setApp a w) r x)
    as (F1 & F2 & F3 & F4 & F5 & F6); auto.
  cbn [app setApp nextRecognition isRecording] in F1, F2, F3, F4.
  rewrite La in F2.
  set (w1 := langEffect (recognitionEffect (setApp a w))) in *.
  assert (E1 : handleWorld t (Component (ChangeLanguage newLanguage)) w
               = Some w1).
  { cbn [handleWorld]. rewrite Ea. cbv zeta. rewrite La, Hl. reflexivity. }
  assert (S1 : isStarted r w1 = true).
  { unfold isStarted. rewrite F3. cbn. exact Hst. }
  exists w1, (onend (updateRecognition r asEnded w1)).
  split; [exact E1|]. split; [exact F1|]. split; [exact F2|].
  split; [exact F3|]. split; [exact F4|].
  split; [cbn [handleWorld]; rewrite S1; reflexivity|].
  split; [reflexivity|].
  unfold isStarted, findRecognition, onend, updateRecognition.
  cbn [recognitions setIsRecording setRecognitions speechRecognitionRef].
  rewrite !find_update by reflexivity.
  unfold findRecognition in F2, F3. rewrite F2, F3.
  cbn [rid asStopping]. rewrite Ex, Nat.eqb_refl.
  destruct (Nat.eqb_spec (nextRecognition w) r) as [E|E]; [lia|].
  cbn. auto.
Qed.

Lemma language_change_ends_dictation_witness :
  exists w1 w2,
    handleWorld keyNames (Component (ChangeLanguage ko))
      (afterWorld keyNames true dictating) = Some w1
    /\ speechRecognitionRef w1 = Some 1%nat
    /\ findRecognition 1 w1
       = Some {| rid := 1; lang := "ko-KR"; started := false;
                 stopRequested := false; boundLanguage := ko |}
    /\ findRecognition 0 w1
       = Some {| rid := 0; lang := "en-US"; started := true;
                 stopRequested := true; boundLanguage := en |}
    /\ isRecording w1 = true
    /\ handleWorld keyNames (SpeechEnd 0) w1 = Some w2
    /\ isRecording w2 = false
    /\ isStarted 0 w2 = false
    /\ isStarted 1 w2 = false
    /\ speechRecognitionRef w2 = Some 1%nat.
Proof.
  apply (@language_change_ends_dictation keyNames
           (afterWorld keyNames true dictating) 0%nat
           {| rid := 0; lang := "en-US"; started := true;
              stopRequested := false; boundLanguage := en |} ko).
  - exists dictating. vm_compute. reflexivity.
  - reflexivity.
  - reflexivity.
  - reflexivity.
  - reflexivity.
Defined.
